(** * Real-time core of the team-chat backend

    A shallow embedding of the socket layer (socket/index.ts,
    socket/messageHandlers.ts, socket/presenceHandlers.ts,
    socket/huddleHandlers.ts) and of the two services it calls
    (services/messageService.ts, services/huddleService.ts).

    The relational store reached through the Prisma client becomes an
    explicit record of tables that every operation threads through; a
    JavaScript exception becomes the [Throw] case of [Result]; the
    socket.io server becomes the list of connected sockets with the rooms
    each one has joined, and every emit becomes a list of deliveries. *)

From stdpp Require Import gmap strings list pretty.

Local Open Scope string_scope.
Local Open Scope list_scope.
Local Open Scope nat_scope.

(** ** JavaScript values *)

Module Js.

(** [if (x)] on a value of type [string | undefined]: undefined and the
    empty string are falsy. *)
Definition truthy (x : option string) : bool :=
  match x with
  | Some s => bool_decide (s ≠ "")
  | None => false
  end.

(** [x || d] on a value of type [string | undefined]. *)
Definition or_else (x : option string) (d : string) : string :=
  match x with
  | Some s => if bool_decide (s ≠ "") then s else d
  | None => d
  end.

(** [s.repeat(n)] *)
Fixpoint repeat (s : string) (n : nat) : string :=
  match n with
  | 0 => ""
  | S n' => s +:+ repeat s n'
  end.

(** [s.length]: the number of UTF-16 code units of the text whose UTF-8
    encoding is [s]. A byte below 128 or a lead byte of a two or three byte
    sequence stands for one unit, the lead byte of a four byte sequence for
    two, a continuation byte for none. *)
Fixpoint length (s : string) : nat :=
  match s with
  | EmptyString => 0
  | String a s' =>
      let b := Ascii.nat_of_ascii a in
      (if b <? 128 then 1 else if b <? 192 then 0 else if b <? 240 then 1 else 2)
      + length s'
  end.

End Js.

(** ** Results and the store-passing monad *)

Inductive Result (A : Type) : Type :=
| Ok (a : A)
| Throw (message : string).
Arguments Ok {A} a.
Arguments Throw {A} message.

Definition is_ok {A} (r : Result A) : bool :=
  match r with Ok _ => true | Throw _ => false end.

(** ** The store (schema of the Prisma models the core reads and writes) *)

Record User := mkUser {
  user_id : string;
  user_status : string;
  user_lastSeen : nat }.

Record ChannelMember := mkChannelMember {
  cm_channelId : string;
  cm_userId : string }.

Record DirectMessage := mkDirectMessage {
  dm_id : string;
  dm_user1Id : string;
  dm_user2Id : string }.

Record Message := mkMessage {
  msg_id : string;
  msg_content : string;
  msg_type : string;
  msg_channelId : option string;
  msg_dmId : option string;
  msg_userId : string;
  msg_threadId : option string;
  msg_edited : bool }.

Record Reaction := mkReaction {
  rx_id : string;
  rx_emoji : string;
  rx_messageId : string;
  rx_userId : string }.

Record Huddle := mkHuddle {
  hd_id : string;
  hd_name : option string;
  hd_channelId : option string;
  hd_creatorId : string;
  hd_status : string;
  hd_endedAt : option nat }.

Record HuddleParticipant := mkHuddleParticipant {
  hp_id : string;
  hp_huddleId : string;
  hp_userId : string;
  hp_joinedAt : nat;
  hp_leftAt : option nat;
  hp_audioMuted : bool;
  hp_videoOn : bool }.

(** [nextId] feeds [cuid()], [now] is what [new Date()] reads. *)
Record DB := mkDB {
  users : list User;
  channels : list string;
  channelMembers : list ChannelMember;
  directMessages : list DirectMessage;
  messages : list Message;
  reactions : list Reaction;
  huddles : list Huddle;
  huddleParticipants : list HuddleParticipant;
  nextId : nat;
  now : nat }.

Definition cuid (n : nat) : string := "c" +:+ pretty n.

Definition M (A : Type) : Type := DB → Result A * DB.

Definition throw {A} (message : string) : M A := λ db, (Throw message, db).

#[global] Instance M_ret : MRet M := λ A a db, (Ok a, db).

#[global] Instance M_bind : MBind M := λ A B k m db,
  match m db with
  | (Ok a, db') => k a db'
  | (Throw e, db') => (Throw e, db')
  end.

(** [try { m } catch (error) { h error }]: what [m] wrote before it threw
    stays written, there is no transaction around a service call. *)
Definition try_catch {A} (m : M A) (h : string → M A) : M A :=
  λ db, match m db with
        | (Ok a, db') => (Ok a, db')
        | (Throw e, db') => h e db'
        end.

Definition get_db : M DB := λ db, (Ok db, db).

Definition fresh_id : M string :=
  λ db, (Ok (cuid (nextId db)),
         mkDB (users db) (channels db) (channelMembers db) (directMessages db)
              (messages db) (reactions db) (huddles db) (huddleParticipants db)
              (S (nextId db)) (now db)).

Definition set_users (f : list User → list User) : M unit :=
  λ db, (Ok (),
         mkDB (f (users db)) (channels db) (channelMembers db) (directMessages db)
              (messages db) (reactions db) (huddles db) (huddleParticipants db)
              (nextId db) (now db)).

Definition set_directMessages (f : list DirectMessage → list DirectMessage) : M unit :=
  λ db, (Ok (),
         mkDB (users db) (channels db) (channelMembers db) (f (directMessages db))
              (messages db) (reactions db) (huddles db) (huddleParticipants db)
              (nextId db) (now db)).

Definition set_messages (f : list Message → list Message) : M unit :=
  λ db, (Ok (),
         mkDB (users db) (channels db) (channelMembers db) (directMessages db)
              (f (messages db)) (reactions db) (huddles db) (huddleParticipants db)
              (nextId db) (now db)).

Definition set_reactions (f : list Reaction → list Reaction) : M unit :=
  λ db, (Ok (),
         mkDB (users db) (channels db) (channelMembers db) (directMessages db)
              (messages db) (f (reactions db)) (huddles db) (huddleParticipants db)
              (nextId db) (now db)).

Definition set_huddles (f : list Huddle → list Huddle) : M unit :=
  λ db, (Ok (),
         mkDB (users db) (channels db) (channelMembers db) (directMessages db)
              (messages db) (reactions db) (f (huddles db)) (huddleParticipants db)
              (nextId db) (now db)).

Definition set_huddleParticipants
    (f : list HuddleParticipant → list HuddleParticipant) : M unit :=
  λ db, (Ok (),
         mkDB (users db) (channels db) (channelMembers db) (directMessages db)
              (messages db) (reactions db) (huddles db) (f (huddleParticipants db))
              (nextId db) (now db)).

Definition guard_or_throw (b : bool) (message : string) : M unit :=
  if b then mret () else throw message.

(** ** The Prisma client

    The client is a library and the schema file is not among the sources;
    the models are the ones of the Database Schema section of
    fern/backend-plan.md, and each call below follows the documented
    behaviour of the client call of the same name. Each call is one awaited
    round trip to the store, a PostgreSQL database. The constraints are
    those of the schema: the foreign keys of every model, the unique keys
    [(user1Id, user2Id)] of DirectMessage, [(messageId, userId, emoji)] of
    Reaction and [(huddleId, userId)] of HuddleParticipant, the cascade from a
    message to its reactions, and the reset of [threadId] in the replies of a
    deleted message. The store refuses a text that contains the character
    U+0000 or is not well-formed ([text_ok]): a [create] or [update] that is
    given such a text to write throws, and so do the reads of conversations
    and messages ([directMessage_findFirst], [message_findMany_desc]) when
    one of the texts they are asked to match is such a text. [create] throws when a
    constraint fails; [update] and [delete] throw when the record named by
    the unique key does not exist. *)

Module Prisma.

Definition fk (id : string) (ids : list string) : bool :=
  bool_decide (id ∈ ids).

Definition byte_in (lo hi : nat) (a : Ascii.ascii) : bool :=
  (lo <=? Ascii.nat_of_ascii a) && (Ascii.nat_of_ascii a <=? hi).

(** A text the store accepts. A string stands for the UTF-8 encoding of a
    text; the store, whose encoding is UTF8, takes a sequence of bytes that
    is well-formed UTF-8 (so no encoded surrogate and no overlong form) and
    holds no byte 0, the character U+0000. *)
Fixpoint text_ok (s : string) : bool :=
  match s with
  | EmptyString => true
  | String a s1 =>
      if byte_in 1 127 a then text_ok s1
      else if byte_in 194 223 a then
        match s1 with
        | String b s2 => byte_in 128 191 b && text_ok s2
        | _ => false
        end
      else if byte_in 224 239 a then
        match s1 with
        | String b (String c s3) =>
            byte_in (if byte_in 224 224 a then 160 else 128)
                    (if byte_in 237 237 a then 159 else 191) b
            && byte_in 128 191 c && text_ok s3
        | _ => false
        end
      else if byte_in 240 244 a then
        match s1 with
        | String b (String c (String d s4)) =>
            byte_in (if byte_in 240 240 a then 144 else 128)
                    (if byte_in 244 244 a then 143 else 191) b
            && byte_in 128 191 c && byte_in 128 191 d && text_ok s4
        | _ => false
        end
      else false
  end.

Definition text_opt_ok (s : option string) : bool :=
  match s with
  | Some t => text_ok t
  | None => true
  end.

Definition refused_text : string := "invalid byte sequence for encoding UTF8".

Definition fk_opt (id : option string) (ids : list string) : bool :=
  match id with
  | Some i => fk i ids
  | None => true
  end.

(** *** directMessage *)

Definition dm_between (a b : string) (d : DirectMessage) : bool :=
  bool_decide (dm_user1Id d = a ∧ dm_user2Id d = b)
  || bool_decide (dm_user1Id d = b ∧ dm_user2Id d = a).

(** [findFirst({ where: { OR: [{user1Id: a, user2Id: b},
                                {user1Id: b, user2Id: a}] } })] *)
Definition directMessage_findFirst (a b : string) : M (option DirectMessage) :=
  db ← get_db;
  guard_or_throw (text_ok a && text_ok b) refused_text;;
  mret (find (dm_between a b) (directMessages db)).

Definition directMessage_create (user1Id user2Id : string) : M DirectMessage :=
  db ← get_db;
  guard_or_throw (fk user1Id (user_id <$> users db)
                  && fk user2Id (user_id <$> users db))
                 "Foreign key constraint failed";;
  guard_or_throw
    (negb (existsb (λ d, bool_decide (dm_user1Id d = user1Id ∧ dm_user2Id d = user2Id))
                   (directMessages db)))
    "Unique constraint failed on the fields: (`user1Id`,`user2Id`)";;
  id ← fresh_id;
  let d := mkDirectMessage id user1Id user2Id in
  set_directMessages (λ l, l ++ [d]);;
  mret d.

(** *** message *)

Definition message_create (content userId : string)
    (channelId dmId threadId : option string) (type : string) : M Message :=
  db ← get_db;
  guard_or_throw (text_ok content && text_ok type) refused_text;;
  guard_or_throw (fk userId (user_id <$> users db)
                  && fk_opt channelId (channels db)
                  && fk_opt dmId (dm_id <$> directMessages db)
                  && fk_opt threadId (msg_id <$> messages db))
                 "Foreign key constraint failed";;
  id ← fresh_id;
  let m := mkMessage id content type channelId dmId userId threadId false in
  set_messages (λ l, l ++ [m]);;
  mret m.

Definition message_findUnique (id : string) : M (option Message) :=
  db ← get_db; mret (find (λ m, bool_decide (msg_id m = id)) (messages db)).

Definition unthread (id : string) (m : Message) : Message :=
  if bool_decide (msg_threadId m = Some id)
  then mkMessage (msg_id m) (msg_content m) (msg_type m) (msg_channelId m)
                 (msg_dmId m) (msg_userId m) None (msg_edited m)
  else m.

Definition message_delete (id : string) : M unit :=
  found ← message_findUnique id;
  guard_or_throw (bool_decide (is_Some found)) "Record to delete does not exist.";;
  set_messages (λ l, unthread id <$> filter (λ m, msg_id m ≠ id) l);;
  set_reactions (filter (λ r, rx_messageId r ≠ id)).

(** *** reaction *)

Definition rx_is (messageId userId emoji : string) (r : Reaction) : bool :=
  bool_decide (rx_messageId r = messageId ∧ rx_userId r = userId ∧ rx_emoji r = emoji).

(** [upsert({ where: { messageId_userId_emoji }, update: {}, create })] *)
Definition reaction_upsert (messageId userId emoji : string) : M Reaction :=
  db ← get_db;
  match find (rx_is messageId userId emoji) (reactions db) with
  | Some r => mret r
  | None =>
      guard_or_throw (text_ok emoji) refused_text;;
      guard_or_throw (fk messageId (msg_id <$> messages db)
                      && fk userId (user_id <$> users db))
                     "Foreign key constraint failed";;
      id ← fresh_id;
      let r := mkReaction id emoji messageId userId in
      set_reactions (λ l, l ++ [r]);;
      mret r
  end.

Definition reaction_delete (messageId userId emoji : string) : M unit :=
  db ← get_db;
  guard_or_throw (existsb (rx_is messageId userId emoji) (reactions db))
                 "Record to delete does not exist.";;
  set_reactions (filter (λ r, rx_is messageId userId emoji r = false)).

(** *** channelMember *)

Definition channelMember_findUnique (channelId userId : string)
    : M (option ChannelMember) :=
  db ← get_db;
  mret (find (λ c, bool_decide (cm_channelId c = channelId ∧ cm_userId c = userId))
             (channelMembers db)).

(** *** user *)

Definition user_update (id : string) (f : User → User) : M unit :=
  db ← get_db;
  guard_or_throw (fk id (user_id <$> users db)) "Record to update not found.";;
  guard_or_throw
    (forallb (λ u, negb (bool_decide (user_id u = id)) || text_ok (user_status (f u)))
             (users db))
    refused_text;;
  set_users (fmap (λ u, if bool_decide (user_id u = id) then f u else u)).

(** *** huddle *)

Definition huddle_findUnique (id : string) : M (option Huddle) :=
  db ← get_db; mret (find (λ h, bool_decide (hd_id h = id)) (huddles db)).

Definition huddle_create (name channelId : option string) (creatorId status : string)
    : M Huddle :=
  db ← get_db;
  guard_or_throw (text_opt_ok name && text_ok creatorId && text_ok status) refused_text;;
  guard_or_throw (fk_opt channelId (channels db)) "Foreign key constraint failed";;
  id ← fresh_id;
  let h := mkHuddle id name channelId creatorId status None in
  set_huddles (λ l, l ++ [h]);;
  mret h.

Definition huddle_update (id : string) (f : Huddle → Huddle) : M unit :=
  db ← get_db;
  guard_or_throw (fk id (hd_id <$> huddles db)) "Record to update not found.";;
  set_huddles (fmap (λ h, if bool_decide (hd_id h = id) then f h else h)).

(** *** huddleParticipant *)

Definition huddleParticipant_findUnique (huddleId userId : string)
    : M (option HuddleParticipant) :=
  db ← get_db;
  mret (find (λ p, bool_decide (hp_huddleId p = huddleId ∧ hp_userId p = userId))
             (huddleParticipants db)).

Definition huddleParticipant_update (id : string)
    (f : HuddleParticipant → HuddleParticipant) : M HuddleParticipant :=
  db ← get_db;
  match find (λ p, bool_decide (hp_id p = id)) (huddleParticipants db) with
  | Some p =>
      set_huddleParticipants
        (fmap (λ q, if bool_decide (hp_id q = id) then f q else q));;
      mret (f p)
  | None => throw "Record to update not found."
  end.

Definition huddleParticipant_create (huddleId userId : string)
    (audioMuted videoOn : bool) : M HuddleParticipant :=
  db ← get_db;
  guard_or_throw (fk huddleId (hd_id <$> huddles db)
                  && fk userId (user_id <$> users db))
                 "Foreign key constraint failed";;
  guard_or_throw
    (negb (existsb (λ p, bool_decide (hp_huddleId p = huddleId ∧ hp_userId p = userId))
                   (huddleParticipants db)))
    "Unique constraint failed on the fields: (`huddleId`,`userId`)";;
  id ← fresh_id;
  let p := mkHuddleParticipant id huddleId userId (now db) None audioMuted videoOn in
  set_huddleParticipants (λ l, l ++ [p]);;
  mret p.

Definition huddleParticipant_updateMany (where_ : HuddleParticipant → bool)
    (f : HuddleParticipant → HuddleParticipant) : M unit :=
  set_huddleParticipants (fmap (λ p, if where_ p then f p else p)).

Definition huddleParticipant_count (where_ : HuddleParticipant → bool) : M nat :=
  db ← get_db; mret (length (filter (λ p, where_ p = true) (huddleParticipants db))).

Definition huddleParticipant_findMany (where_ : HuddleParticipant → bool)
    : M (list HuddleParticipant) :=
  db ← get_db; mret (filter (λ p, where_ p = true) (huddleParticipants db)).

(** *** calls of the read and edit paths *)

Definition message_update (id : string) (f : Message → Message) : M Message :=
  db ← get_db;
  match find (λ m, bool_decide (msg_id m = id)) (messages db) with
  | Some m =>
      guard_or_throw (text_ok (msg_content (f m))) refused_text;;
      set_messages (fmap (λ x, if bool_decide (msg_id x = id) then f x else x));;
      mret (f m)
  | None => throw "Record to update not found."
  end.

(** The number given as [take], as the store reads it: a 32-bit integer. *)
Definition int32 (n : Z) : Z := ((n + 2 ^ 31) `mod` 2 ^ 32 - 2 ^ 31)%Z.

(** [findMany({ where, orderBy: { createdAt: 'desc' }, take })]. The rows
    of a table are kept in creation order ([createdAt] is set by the store
    when the row is created and no call writes it), so newest first is the
    table read backwards. [params] are the texts the [where] matches
    against. A [take] of [n ≥ 0] keeps the first [n] rows of that order, a
    negative one the last [-n]. *)
Definition message_findMany_desc (params : list string) (where_ : Message → bool)
    (take_ : Z) : M (list Message) :=
  db ← get_db;
  guard_or_throw (forallb text_ok params) refused_text;;
  let rows := reverse (filter (λ m, where_ m = true) (messages db)) in
  let n := int32 take_ in
  mret (if bool_decide (0 ≤ n)%Z then take (Z.to_nat n) rows
        else drop (length rows - Z.to_nat (- n)) rows).

Definition huddleParticipant_findFirst (where_ : HuddleParticipant → bool)
    : M (option HuddleParticipant) :=
  db ← get_db; mret (find where_ (huddleParticipants db)).

(** [include: { participants: { where: { leftAt: null } } }] *)
Definition with_participants (db : DB) (h : Huddle) : Huddle * list HuddleParticipant :=
  (h, filter (λ p, hp_huddleId p = hd_id h ∧ hp_leftAt p = None) (huddleParticipants db)).

Definition huddle_findMany (where_ : Huddle → bool)
    : M (list (Huddle * list HuddleParticipant)) :=
  db ← get_db;
  mret (with_participants db <$> filter (λ h, where_ h = true) (huddles db)).

Definition huddle_findUnique_with_participants (id : string)
    : M (option (Huddle * list HuddleParticipant)) :=
  db ← get_db;
  mret (with_participants db <$> find (λ h, bool_decide (hd_id h = id)) (huddles db)).

(** [findMany({ where: { status: { in: [...] } } })]. The query names no
    order, so the order of the answer is the store's choice; here it is the
    order of the table. *)
Definition user_findMany (where_ : User → bool) : M (list User) :=
  db ← get_db; mret (filter (λ u, where_ u = true) (users db)).

End Prisma.

(** ** services/messageService.ts *)

Module MessageService.

Record CreateMessageData := mkCreateMessageData {
  content : string;
  userId : string;
  channelId : option string;
  dmUserId : option string;
  threadId : option string;
  type : option string }.

(** The find-or-create of the pairwise conversation, lines 18-40. *)
Definition findOrCreateDm (data : CreateMessageData) : M (option string) :=
  if Js.truthy (dmUserId data) then
    let other := default "" (dmUserId data) in
    existingDm ← Prisma.directMessage_findFirst (userId data) other;
    match existingDm with
    | Some d => mret (Some (dm_id d))
    | None =>
        newDm ← Prisma.directMessage_create (userId data) other;
        mret (Some (dm_id newDm))
    end
  else mret None.

Definition createMessage (data : CreateMessageData) : M Message :=
  try_catch
    (dmId ← findOrCreateDm data;
     Prisma.message_create (content data) (userId data) (channelId data) dmId
                           (threadId data) (Js.or_else (type data) "text"))
    (λ _, throw "Failed to create message").

Definition canUserAccessChannel (userId channelId : string) : M bool :=
  try_catch
    (membership ← Prisma.channelMember_findUnique channelId userId;
     mret (bool_decide (is_Some membership)))
    (λ _, mret false).

Definition addReaction (messageId userId emoji : string) : M Reaction :=
  try_catch (Prisma.reaction_upsert messageId userId emoji)
            (λ _, throw "Failed to add reaction").

Definition removeReaction (messageId userId emoji : string) : M unit :=
  try_catch (Prisma.reaction_delete messageId userId emoji)
            (λ _, throw "Failed to remove reaction").

Definition deleteMessage (messageId userId : string) : M unit :=
  try_catch
    (message ← Prisma.message_findUnique messageId;
     match message with
     | Some m =>
         if bool_decide (msg_userId m ≠ userId)
         then throw "Message not found or access denied"
         else Prisma.message_delete messageId
     | None => throw "Message not found or access denied"
     end)
    (λ _, throw "Failed to delete message").

(** [where: { channelId | dmId, ...(cursor && { id: { lt: cursor } }) }];
    [lt] is the order of the store on ids. *)
Definition before_cursor (lt : string → string → bool) (cursor : option string)
    (m : Message) : bool :=
  if Js.truthy cursor then lt (msg_id m) (default "" cursor) else true.

(** The texts bound by [where: { ..., ...(cursor && { id: { lt: cursor } }) }]. *)
Definition cursor_params (cursor : option string) : list string :=
  if Js.truthy cursor then [default "" cursor] else [].

(** [limit: number = 50], an integer; it is handed to [take] as it is. *)
Definition getChannelMessages (lt : string → string → bool)
    (channelId userId : string) (limit : option Z) (cursor : option string)
    : M (list Message) :=
  try_catch
    (hasAccess ← canUserAccessChannel userId channelId;
     if negb hasAccess then throw "Access denied"
     else
       messages ← Prisma.message_findMany_desc
                    (channelId :: cursor_params cursor)
                    (λ m, bool_decide (msg_channelId m = Some channelId)
                          && before_cursor lt cursor m)
                    (default 50%Z limit);
       mret (reverse messages))
    (λ _, throw "Failed to fetch messages").

Definition getDMMessages (lt : string → string → bool)
    (userId otherUserId : string) (limit : option Z) (cursor : option string)
    : M (list Message) :=
  try_catch
    (dmConversation ← Prisma.directMessage_findFirst userId otherUserId;
     match dmConversation with
     | None => mret []
     | Some d =>
         messages ← Prisma.message_findMany_desc
                      (dm_id d :: cursor_params cursor)
                      (λ m, bool_decide (msg_dmId m = Some (dm_id d))
                            && before_cursor lt cursor m)
                      (default 50%Z limit);
         mret (reverse messages)
     end)
    (λ _, throw "Failed to fetch messages").

Definition set_content (content : string) (m : Message) : Message :=
  mkMessage (msg_id m) content (msg_type m) (msg_channelId m) (msg_dmId m)
            (msg_userId m) (msg_threadId m) true.

Definition updateMessage (messageId userId content : string) : M Message :=
  try_catch
    (message ← Prisma.message_findUnique messageId;
     match message with
     | Some m =>
         if bool_decide (msg_userId m ≠ userId)
         then throw "Message not found or access denied"
         else Prisma.message_update messageId (set_content content)
     | None => throw "Message not found or access denied"
     end)
    (λ _, throw "Failed to update message").

End MessageService.

(** ** services/huddleService.ts *)

Module HuddleService.

Definition set_leftAt (t : option nat) (p : HuddleParticipant) : HuddleParticipant :=
  mkHuddleParticipant (hp_id p) (hp_huddleId p) (hp_userId p) (hp_joinedAt p) t
                      (hp_audioMuted p) (hp_videoOn p).

Definition rejoin (t : nat) (p : HuddleParticipant) : HuddleParticipant :=
  mkHuddleParticipant (hp_id p) (hp_huddleId p) (hp_userId p) t None false false.

Definition set_ended (t : nat) (h : Huddle) : Huddle :=
  mkHuddle (hd_id h) (hd_name h) (hd_channelId h) (hd_creatorId h) "ended" (Some t).

(** [where: { huddleId, leftAt: null }] *)
Definition active_in (huddleId : string) (p : HuddleParticipant) : bool :=
  bool_decide (hp_huddleId p = huddleId ∧ hp_leftAt p = None).

(** [where: { huddleId, userId, leftAt: null }] *)
Definition active_as (huddleId userId : string) (p : HuddleParticipant) : bool :=
  bool_decide (hp_huddleId p = huddleId ∧ hp_userId p = userId ∧ hp_leftAt p = None).

Definition joinHuddle (huddleId userId : string) : M HuddleParticipant :=
  try_catch
    (existingParticipant ← Prisma.huddleParticipant_findUnique huddleId userId;
     match existingParticipant with
     | Some p =>
         match hp_leftAt p with
         | None => mret p
         | Some _ =>
             db ← get_db;
             Prisma.huddleParticipant_update (hp_id p) (rejoin (now db))
         end
     | None => Prisma.huddleParticipant_create huddleId userId false false
     end)
    (λ _, throw "Failed to join huddle").

Record CreateHuddleData := mkCreateHuddleData {
  creatorId : string;
  channelId : option string;
  name : option string }.

Definition createHuddle (data : CreateHuddleData) : M Huddle :=
  try_catch
    (huddle ← Prisma.huddle_create (name data) (channelId data) (creatorId data) "active";
     joinHuddle (hd_id huddle) (creatorId data);;
     mret huddle)
    (λ _, throw "Failed to create huddle").

Definition leaveHuddle (huddleId userId : string) : M unit :=
  try_catch
    (db ← get_db;
     Prisma.huddleParticipant_updateMany (active_as huddleId userId)
                                         (set_leftAt (Some (now db)));;
     activeParticipants ← Prisma.huddleParticipant_count (active_in huddleId);
     if bool_decide (activeParticipants = 0)
     then Prisma.huddle_update huddleId (set_ended (now db))
     else mret ())
    (λ _, throw "Failed to leave huddle").

Definition endHuddle (huddleId userId : string) : M unit :=
  try_catch
    (huddle ← Prisma.huddle_findUnique huddleId;
     match huddle with
     | Some h =>
         if bool_decide (hd_creatorId h ≠ userId)
         then throw "Only the huddle creator can end the huddle"
         else
           db ← get_db;
           Prisma.huddle_update huddleId (set_ended (now db));;
           Prisma.huddleParticipant_updateMany (active_in huddleId)
                                               (set_leftAt (Some (now db)))
     | None => throw "Only the huddle creator can end the huddle"
     end)
    (λ _, throw "Failed to end huddle").

Definition getHuddleParticipants (huddleId : string) : M (list HuddleParticipant) :=
  try_catch (Prisma.huddleParticipant_findMany (active_in huddleId))
            (λ _, throw "Failed to get huddle participants").

Record UpdateParticipantData := mkUpdateParticipantData {
  audioMuted : option bool;
  videoOn : option bool }.

(** [data: updates]: a field that is not given keeps its value. *)
Definition apply_updates (updates : UpdateParticipantData) (p : HuddleParticipant)
    : HuddleParticipant :=
  mkHuddleParticipant (hp_id p) (hp_huddleId p) (hp_userId p) (hp_joinedAt p) (hp_leftAt p)
                      (default (hp_audioMuted p) (audioMuted updates))
                      (default (hp_videoOn p) (videoOn updates)).

Definition updateParticipant (huddleId userId : string) (updates : UpdateParticipantData)
    : M HuddleParticipant :=
  try_catch
    (participant ← Prisma.huddleParticipant_findFirst (active_as huddleId userId);
     match participant with
     | None => throw "Participant not found in huddle"
     | Some p => Prisma.huddleParticipant_update (hp_id p) (apply_updates updates)
     end)
    (λ _, throw "Failed to update participant").

Definition getActiveHuddles : M (list (Huddle * list HuddleParticipant)) :=
  try_catch (Prisma.huddle_findMany (λ h, bool_decide (hd_status h = "active")))
            (λ _, throw "Failed to get active huddles").

Definition getHuddleById (huddleId : string) : M (option (Huddle * list HuddleParticipant)) :=
  try_catch (Prisma.huddle_findUnique_with_participants huddleId)
            (λ _, throw "Failed to get huddle").

End HuddleService.

(** ** The socket.io server

    [io] is the list of connected sockets of the namespace, each with the
    set of rooms it is in. An emit is the list of (receiving socket id,
    event) pairs it produces, in order. *)

Module SocketIo.

Record Socket := mkSocket {
  id : string;
  userId : string;
  username : string;
  rooms : gset string }.

(** The [any] of the signaling handlers: the JSON value as transmitted. *)
Definition Payload : Type := string.

Inductive Event : Type :=
| error (message : string)
| new_message (message : Message)
| message_deleted (messageId : string)
| reaction_added (messageId : string) (reaction : Reaction)
| reaction_removed (messageId userId emoji : string)
| user_status_changed (userId status : string)
| huddle_created (huddle : Huddle)
| user_joined_huddle (huddleId : string) (participant : HuddleParticipant)
| huddle_participants (huddleId : string) (participants : list HuddleParticipant)
| user_left_huddle (huddleId userId : string)
| huddle_ended (huddleId : string)
| webrtc_offer (huddleId fromUserId : string) (offer : Payload)
| webrtc_answer (huddleId fromUserId : string) (answer : Payload)
| webrtc_ice_candidate (huddleId fromUserId : string) (candidate : Payload).

Definition Delivery : Type := string * Event.

Record World := mkWorld {
  db : DB;
  io : list Socket }.

Definition in_room (room : string) (s : Socket) : bool :=
  bool_decide (room ∈ rooms s).

Definition is_not (socket : Socket) (s : Socket) : bool :=
  bool_decide (id s ≠ id socket).

Definition deliver (ev : Event) (ss : list Socket) : list Delivery :=
  (λ s, (id s, ev)) <$> ss.

(** [io.emit(ev)] *)
Definition io_emit (io : list Socket) (ev : Event) : list Delivery :=
  deliver ev io.

(** [io.to(room).emit(ev)] *)
Definition io_to (io : list Socket) (room : string) (ev : Event) : list Delivery :=
  deliver ev (filter (λ s, in_room room s = true) io).

(** [socket.emit(ev)] *)
Definition socket_emit (socket : Socket) (ev : Event) : list Delivery :=
  [(id socket, ev)].

(** [socket.to(room).emit(ev)] *)
Definition socket_to (io : list Socket) (socket : Socket) (room : string) (ev : Event)
    : list Delivery :=
  deliver ev (filter (λ s, in_room room s && is_not socket s = true) io).

(** [socket.broadcast.emit(ev)] *)
Definition socket_broadcast_emit (io : list Socket) (socket : Socket) (ev : Event)
    : list Delivery :=
  deliver ev (filter (λ s, is_not socket s = true) io).

Definition with_rooms (f : gset string → gset string) (s : Socket) : Socket :=
  mkSocket (id s) (userId s) (username s) (f (rooms s)).

(** [socket.join(room)] *)
Definition socket_join (socket : Socket) (room : string) (io : list Socket) : list Socket :=
  (λ s, if bool_decide (id s = id socket) then with_rooms (union {[room]}) s else s) <$> io.

(** [socket.leave(room)] *)
Definition socket_leave (socket : Socket) (room : string) (io : list Socket) : list Socket :=
  (λ s, if bool_decide (id s = id socket) then with_rooms (λ r, r ∖ {[room]}) s else s) <$> io.

(** A socket that has passed the authentication middleware: it is in the
    room of its own id, and index.ts joins it to the room named by its
    user id. *)
Definition connection (sid uid uname : string) (io : list Socket) : list Socket :=
  io ++ [mkSocket sid uid uname ({[uid]} ∪ {[sid]})].

(** The server drops a closing socket from its rooms and from the
    namespace before the socket's disconnect listeners run. *)
Definition close (socket : Socket) (io : list Socket) : list Socket :=
  filter (λ s, is_not socket s = true) io.

End SocketIo.

(** ** socket/messageHandlers.ts *)

Module MessageHandlers.
Import SocketIo.

Definition join_channel (socket : Socket) (channelId : string) (w : World)
    : World * list Delivery :=
  match MessageService.canUserAccessChannel (userId socket) channelId (db w) with
  | (Ok hasAccess, db') =>
      if hasAccess
      then (mkWorld db' (socket_join socket channelId (io w)), [])
      else (mkWorld db' (io w), [])
  | (Throw _, db') =>
      (mkWorld db' (io w), socket_emit socket (error "Failed to join channel"))
  end.

Definition leave_channel (socket : Socket) (channelId : string) (w : World)
    : World * list Delivery :=
  (mkWorld (db w) (socket_leave socket channelId (io w)), []).

Record SendMessageData := mkSendMessageData {
  content : string;
  channelId : option string;
  dmUserId : option string;
  threadId : option string }.

Definition send_message (socket : Socket) (data : SendMessageData) (w : World)
    : World * list Delivery :=
  match MessageService.createMessage
          (MessageService.mkCreateMessageData
             (content data) (userId socket) (channelId data) (dmUserId data)
             (threadId data) None) (db w) with
  | (Ok message, db') =>
      (mkWorld db' (io w),
       if Js.truthy (channelId data)
       then io_to (io w) (default "" (channelId data)) (new_message message)
       else if Js.truthy (dmUserId data)
       then io_to (io w) (userId socket) (new_message message)
            ++ io_to (io w) (default "" (dmUserId data)) (new_message message)
       else [])
  | (Throw _, db') =>
      (mkWorld db' (io w), socket_emit socket (error "Failed to send message"))
  end.

Definition delete_message (socket : Socket) (messageId : string) (w : World)
    : World * list Delivery :=
  match MessageService.deleteMessage messageId (userId socket) (db w) with
  | (Ok _, db') =>
      (mkWorld db' (io w), io_emit (io w) (message_deleted messageId))
  | (Throw _, db') =>
      (mkWorld db' (io w), socket_emit socket (error "Failed to delete message"))
  end.

Definition add_reaction (socket : Socket) (messageId emoji : string) (w : World)
    : World * list Delivery :=
  match MessageService.addReaction messageId (userId socket) emoji (db w) with
  | (Ok reaction, db') =>
      (mkWorld db' (io w), io_emit (io w) (reaction_added messageId reaction))
  | (Throw _, db') =>
      (mkWorld db' (io w), socket_emit socket (error "Failed to add reaction"))
  end.

Definition remove_reaction (socket : Socket) (messageId emoji : string) (w : World)
    : World * list Delivery :=
  match MessageService.removeReaction messageId (userId socket) emoji (db w) with
  | (Ok _, db') =>
      (mkWorld db' (io w),
       io_emit (io w) (reaction_removed messageId (userId socket) emoji))
  | (Throw _, db') =>
      (mkWorld db' (io w), socket_emit socket (error "Failed to remove reaction"))
  end.

End MessageHandlers.

(** ** socket/presenceHandlers.ts *)

Module PresenceHandlers.
Import SocketIo.

Definition set_status (status : string) (t : nat) (u : User) : User :=
  mkUser (user_id u) status t.

Definition update_status (socket : Socket) (status : string) (w : World)
    : World * list Delivery :=
  match Prisma.user_update (userId socket) (set_status status (now (db w))) (db w) with
  | (Ok _, db') =>
      (mkWorld db' (io w),
       socket_broadcast_emit (io w) socket (user_status_changed (userId socket) status))
  | (Throw _, db') =>
      (mkWorld db' (io w), socket_emit socket (error "Failed to update status"))
  end.

(** The [disconnect] listener, lines 285-303. *)
Definition disconnect (socket : Socket) (w : World) : World * list Delivery :=
  match Prisma.user_update (userId socket) (set_status "offline" (now (db w))) (db w) with
  | (Ok _, db') =>
      (mkWorld db' (io w),
       socket_broadcast_emit (io w) socket
                             (user_status_changed (userId socket) "offline"))
  | (Throw _, db') => (mkWorld db' (io w), [])
  end.

End PresenceHandlers.

(** ** socket/huddleHandlers.ts *)

Module HuddleHandlers.
Import SocketIo.

Definition room_of (huddleId : string) : string := "huddle:" +:+ huddleId.

Definition create_huddle (socket : Socket) (channelId name : option string) (w : World)
    : World * list Delivery :=
  match HuddleService.createHuddle
          (HuddleService.mkCreateHuddleData (userId socket) channelId name) (db w) with
  | (Ok huddle, db') =>
      let io' := socket_join socket (room_of (hd_id huddle)) (io w) in
      (mkWorld db' io',
       if Js.truthy channelId
       then io_to io' (default "" channelId) (huddle_created huddle)
       else io_emit io' (huddle_created huddle))
  | (Throw _, db') =>
      (mkWorld db' (io w), socket_emit socket (error "Failed to create huddle"))
  end.

Definition join_huddle (socket : Socket) (huddleId : string) (w : World)
    : World * list Delivery :=
  match HuddleService.joinHuddle huddleId (userId socket) (db w) with
  | (Ok participant, db1) =>
      let io' := socket_join socket (room_of huddleId) (io w) in
      let joined :=
        socket_to io' socket (room_of huddleId) (user_joined_huddle huddleId participant) in
      match HuddleService.getHuddleParticipants huddleId db1 with
      | (Ok participants, db2) =>
          (mkWorld db2 io',
           joined ++ socket_emit socket (huddle_participants huddleId participants))
      | (Throw _, db2) =>
          (mkWorld db2 io',
           joined ++ socket_emit socket (error "Failed to join huddle"))
      end
  | (Throw _, db1) =>
      (mkWorld db1 (io w), socket_emit socket (error "Failed to join huddle"))
  end.

Definition leave_huddle (socket : Socket) (huddleId : string) (w : World)
    : World * list Delivery :=
  match HuddleService.leaveHuddle huddleId (userId socket) (db w) with
  | (Ok _, db') =>
      let io' := socket_leave socket (room_of huddleId) (io w) in
      (mkWorld db' io',
       socket_to io' socket (room_of huddleId)
                 (user_left_huddle huddleId (userId socket)))
  | (Throw _, db') =>
      (mkWorld db' (io w), socket_emit socket (error "Failed to leave huddle"))
  end.

Definition end_huddle (socket : Socket) (huddleId : string) (w : World)
    : World * list Delivery :=
  match HuddleService.endHuddle huddleId (userId socket) (db w) with
  | (Ok _, db') =>
      (mkWorld db' ((with_rooms (λ r, r ∖ {[room_of huddleId]})) <$> io w),
       io_to (io w) (room_of huddleId) (huddle_ended huddleId))
  | (Throw _, db') =>
      (mkWorld db' (io w), socket_emit socket (error "Failed to end huddle"))
  end.

Record SignalData := mkSignalData {
  huddleId : string;
  targetUserId : string;
  payload : Payload }.

Definition on_webrtc_offer (socket : Socket) (data : SignalData) (w : World)
    : World * list Delivery :=
  (w, socket_to (io w) socket (targetUserId data)
                (webrtc_offer (huddleId data) (userId socket) (payload data))).

Definition on_webrtc_answer (socket : Socket) (data : SignalData) (w : World)
    : World * list Delivery :=
  (w, socket_to (io w) socket (targetUserId data)
                (webrtc_answer (huddleId data) (userId socket) (payload data))).

Definition on_webrtc_ice_candidate (socket : Socket) (data : SignalData) (w : World)
    : World * list Delivery :=
  (w, socket_to (io w) socket (targetUserId data)
                (webrtc_ice_candidate (huddleId data) (userId socket) (payload data))).

End HuddleHandlers.

(** ** socket/index.ts *)

Module Index.
Import SocketIo.

(** [io.on('connection', ...)]: join the personal room; the three
    handler groups are registered on the socket. *)
Definition on_connection (sid uid uname : string) (w : World) : World :=
  mkWorld (db w) (connection sid uid uname (io w)).

(** What runs when a socket closes: the server's own cleanup, then the
    registered [disconnect] listeners. presenceHandlers registers the one
    above, index.ts registers one that only logs, huddleHandlers and
    messageHandlers register none. *)
Definition on_disconnect (socket : Socket) (w : World) : World * list Delivery :=
  PresenceHandlers.disconnect socket (mkWorld (db w) (close socket (io w))).

End Index.

(** ** The remaining listeners

    update-message and the typing listeners of messageHandlers.ts,
    get-online-users of presenceHandlers.ts, the audio and video toggles
    and get-active-huddles of huddleHandlers.ts. [Wire.Event] is the set of
    events they emit; the emit functions are those of [SocketIo], for any
    event type. *)

Module Wire.
Import SocketIo.

Inductive TypingTarget : Type :=
| typing_channel (channelId : string)
| typing_dm (dmUserId : string).

Inductive Event : Type :=
| error (message : string)
| message_updated (message : Message)
| user_typing_start (userId username : string) (target : TypingTarget)
| user_typing_stop (userId : string) (target : TypingTarget)
| participant_audio_toggled (userId : string) (muted : bool)
| participant_video_toggled (userId : string) (videoOn : bool)
| active_huddles (huddles : list (Huddle * list HuddleParticipant))
| online_users (users : list User).

Definition Delivery : Type := string * Event.

Definition deliver {E} (ev : E) (ss : list Socket) : list (string * E) :=
  (λ s, (id s, ev)) <$> ss.

(** [io.to(room).emit(ev)] *)
Definition io_to {E} (io : list Socket) (room : string) (ev : E) : list (string * E) :=
  deliver ev (filter (λ s, in_room room s = true) io).

(** [socket.emit(ev)] *)
Definition socket_emit {E} (socket : Socket) (ev : E) : list (string * E) :=
  [(id socket, ev)].

(** [socket.to(room).emit(ev)] *)
Definition socket_to {E} (io : list Socket) (socket : Socket) (room : string) (ev : E)
    : list (string * E) :=
  deliver ev (filter (λ s, in_room room s && is_not socket s = true) io).

End Wire.

Module MessageEditing.
Import SocketIo.

(** [lt]: the order of the store on ids, for the getDMMessages call. *)
Definition update_message (lt : string → string → bool) (socket : Socket)
    (messageId content : string) (w : World) : World * list Wire.Delivery :=
  match MessageService.updateMessage messageId (userId socket) content (db w) with
  | (Ok updatedMessage, db1) =>
      if Js.truthy (msg_channelId updatedMessage)
      then (mkWorld db1 (io w),
            Wire.io_to (io w) (default "" (msg_channelId updatedMessage))
                       (Wire.message_updated updatedMessage))
      else if Js.truthy (msg_dmId updatedMessage)
      then
        match MessageService.getDMMessages lt (userId socket)
                (default "" (msg_dmId updatedMessage)) (Some 1%Z) None db1 with
        | (Ok _, db2) =>
            (mkWorld db2 (io w),
             Wire.io_to (io w) (userId socket) (Wire.message_updated updatedMessage))
        | (Throw _, db2) =>
            (mkWorld db2 (io w),
             Wire.socket_emit socket (Wire.error "Failed to update message"))
        end
      else (mkWorld db1 (io w), [])
  | (Throw _, db1) =>
      (mkWorld db1 (io w), Wire.socket_emit socket (Wire.error "Failed to update message"))
  end.

End MessageEditing.

Module Typing.
Import SocketIo.

Definition typing_start (socket : Socket) (channelId dmUserId : option string) (w : World)
    : World * list Wire.Delivery :=
  (w,
   if Js.truthy channelId
   then Wire.socket_to (io w) socket (default "" channelId)
          (Wire.user_typing_start (userId socket) (username socket)
                                  (Wire.typing_channel (default "" channelId)))
   else if Js.truthy dmUserId
   then Wire.socket_to (io w) socket (default "" dmUserId)
          (Wire.user_typing_start (userId socket) (username socket)
                                  (Wire.typing_dm (default "" dmUserId)))
   else []).

Definition typing_stop (socket : Socket) (channelId dmUserId : option string) (w : World)
    : World * list Wire.Delivery :=
  (w,
   if Js.truthy channelId
   then Wire.socket_to (io w) socket (default "" channelId)
          (Wire.user_typing_stop (userId socket) (Wire.typing_channel (default "" channelId)))
   else if Js.truthy dmUserId
   then Wire.socket_to (io w) socket (default "" dmUserId)
          (Wire.user_typing_stop (userId socket) (Wire.typing_dm (default "" dmUserId)))
   else []).

End Typing.

Module OnlineUsers.
Import SocketIo.

Definition get_online_users (socket : Socket) (w : World) : World * list Wire.Delivery :=
  match Prisma.user_findMany
          (λ u, bool_decide (user_status u = "online")
                || bool_decide (user_status u = "away")) (db w) with
  | (Ok onlineUsers, db') =>
      (mkWorld db' (io w), Wire.socket_emit socket (Wire.online_users onlineUsers))
  | (Throw _, db') =>
      (mkWorld db' (io w), Wire.socket_emit socket (Wire.error "Failed to get online users"))
  end.

End OnlineUsers.

Module HuddleControls.
Import SocketIo.

Definition toggle_audio (socket : Socket) (huddleId : string) (muted : bool) (w : World)
    : World * list Wire.Delivery :=
  match HuddleService.updateParticipant
          huddleId (userId socket)
          (HuddleService.mkUpdateParticipantData (Some muted) None) (db w) with
  | (Ok _, db') =>
      (mkWorld db' (io w),
       Wire.socket_to (io w) socket (HuddleHandlers.room_of huddleId)
                      (Wire.participant_audio_toggled (userId socket) muted))
  | (Throw _, db') =>
      (mkWorld db' (io w), Wire.socket_emit socket (Wire.error "Failed to toggle audio"))
  end.

Definition toggle_video (socket : Socket) (huddleId : string) (videoOn : bool) (w : World)
    : World * list Wire.Delivery :=
  match HuddleService.updateParticipant
          huddleId (userId socket)
          (HuddleService.mkUpdateParticipantData None (Some videoOn)) (db w) with
  | (Ok _, db') =>
      (mkWorld db' (io w),
       Wire.socket_to (io w) socket (HuddleHandlers.room_of huddleId)
                      (Wire.participant_video_toggled (userId socket) videoOn))
  | (Throw _, db') =>
      (mkWorld db' (io w), Wire.socket_emit socket (Wire.error "Failed to toggle video"))
  end.

Definition get_active_huddles (socket : Socket) (w : World) : World * list Wire.Delivery :=
  match HuddleService.getActiveHuddles (db w) with
  | (Ok huddles, db') =>
      (mkWorld db' (io w), Wire.socket_emit socket (Wire.active_huddles huddles))
  | (Throw _, db') =>
      (mkWorld db' (io w), Wire.socket_emit socket (Wire.error "Failed to get active huddles"))
  end.

End HuddleControls.

(** ** utils/jwt.ts and the authentication middleware of socket/index.ts *)

Module Jwt.

Definition extractTokenFromHeader (authorization : option string) : option string :=
  match authorization with
  | Some a =>
      if negb (bool_decide (a ≠ "")) || negb (String.prefix "Bearer " a)
      then None
      else Some (String.substring 7 (String.length a - 7) a)
  | None => None
  end.

End Jwt.

Module Handshake.
Import SocketIo.

(** [io.use(...)]: [verifyToken] checks the signature and the expiry of
    the token with the jsonwebtoken library and returns the user id and the
    user name of its payload, or throws. *)
Definition authenticate (verifyToken : string → Result (string * string))
    (token : option string) : Result (string * string) :=
  if Js.truthy token
  then match verifyToken (default "" token) with
       | Ok decoded => Ok decoded
       | Throw _ => Throw "Invalid authentication token"
       end
  else Throw "Authentication token required".

(** The middleware, then the connection listener for the sockets it lets
    through. *)
Definition connect (verifyToken : string → Result (string * string))
    (sid : string) (token : option string) (w : World) : Result World :=
  match authenticate verifyToken token with
  | Ok (uid, uname) => Ok (Index.on_connection sid uid uname w)
  | Throw e => Throw e
  end.

End Handshake.

(** ** validation schemas (Joi) *)

Module Validation.

(** [content: Joi.string().min(1).max(2000).required()] of
    [messageSchema]: "Message content cannot be empty", "Message content
    must not exceed 2000 characters". Joi measures a string by its
    [length]. *)
Definition messageSchema_content (content : string) : bool :=
  bool_decide (1 ≤ Js.length content) && bool_decide (Js.length content ≤ 2000).

End Validation.

(** ** createMessage on the event loop

    An async function gives the event loop the hand at every [await]; two
    socket events being handled at once advance in turns, one awaited store
    call at a time. [Task] is the point a call of createMessage has
    reached. *)

Module Async.
Import MessageService.

Inductive Task : Type :=
| AtFindFirst (data : CreateMessageData)
| AtCreateDm (data : CreateMessageData)
| AtCreateMessage (data : CreateMessageData) (dmId : option string)
| Returned (r : Result Message).

Definition start (data : CreateMessageData) : Task :=
  if Js.truthy (dmUserId data) then AtFindFirst data else AtCreateMessage data None.

Definition failed : Task := Returned (Throw "Failed to create message").

(** One awaited call of the task. *)
Definition step (t : Task) (db : DB) : Task * DB :=
  match t with
  | AtFindFirst data =>
      match Prisma.directMessage_findFirst (userId data) (default "" (dmUserId data)) db with
      | (Ok (Some d), db') => (AtCreateMessage data (Some (dm_id d)), db')
      | (Ok None, db') => (AtCreateDm data, db')
      | (Throw _, db') => (failed, db')
      end
  | AtCreateDm data =>
      match Prisma.directMessage_create (userId data) (default "" (dmUserId data)) db with
      | (Ok newDm, db') => (AtCreateMessage data (Some (dm_id newDm)), db')
      | (Throw _, db') => (failed, db')
      end
  | AtCreateMessage data dmId =>
      match Prisma.message_create (content data) (userId data) (channelId data) dmId
                                  (threadId data) (Js.or_else (type data) "text") db with
      | (Ok m, db') => (Returned (Ok m), db')
      | (Throw _, db') => (failed, db')
      end
  | Returned r => (Returned r, db)
  end.

Fixpoint run (fuel : nat) (t : Task) (db : DB) : Task * DB :=
  match fuel with
  | 0 => (t, db)
  | S fuel' => let '(t', db') := step t db in run fuel' t' db'
  end.

(** Two calls in flight; the schedule says which one the event loop
    resumes next ([false]: the first, [true]: the second). *)
Fixpoint interleave (schedule : list bool) (t1 t2 : Task) (db : DB) : Task * Task * DB :=
  match schedule with
  | [] => (t1, t2, db)
  | false :: rest => let '(t1', db') := step t1 db in interleave rest t1' t2 db'
  | true :: rest => let '(t2', db') := step t2 db in interleave rest t1 t2' db'
  end.

End Async.

(** ** Properties of the store *)

(** Number of conversation records between [a] and [b], in either
    orientation. *)
Definition dm_count (a b : string) (db : DB) : nat :=
  length (filter (λ d, Prisma.dm_between a b d = true) (directMessages db)).

Definition dm_unique (db : DB) : Prop := ∀ a b, dm_count a b db ≤ 1.

(** Number of reaction records for the triple. *)
Definition rx_count (messageId userId emoji : string) (db : DB) : nat :=
  length (filter (λ r, Prisma.rx_is messageId userId emoji r = true) (reactions db)).

Definition rx_unique (db : DB) : Prop := ∀ m u e, rx_count m u e db ≤ 1.

(** Number of participant rows of [userId] in [huddleId]. *)
Definition hp_count (huddleId userId : string) (db : DB) : nat :=
  length (filter (λ p, hp_huddleId p = huddleId ∧ hp_userId p = userId)
                 (huddleParticipants db)).

Definition hp_unique (db : DB) : Prop := ∀ h u, hp_count h u db ≤ 1.

(** [out] carries [ev] to each socket of [room] other than [socket], and
    carries nothing else. *)
Definition relays_to_room (w : SocketIo.World) (socket : SocketIo.Socket) (room : string)
    (ev : SocketIo.Event) (out : list SocketIo.Delivery) : Prop :=
  ∀ sid ev',
    (sid, ev') ∈ out
    ↔ ev' = ev ∧ ∃ s, s ∈ SocketIo.io w ∧ SocketIo.id s = sid
                      ∧ room ∈ SocketIo.rooms s ∧ SocketIo.id s ≠ SocketIo.id socket.

(** The participant rows of [userId] in [huddleId] that are active. *)
Definition active_rows (huddleId userId : string) (db : DB) : list HuddleParticipant :=
  filter (λ p, HuddleService.active_as huddleId userId p = true) (huddleParticipants db).

(** ** A small deployment used in the examples

    Three users; alice and bob are members of channel general, carol is
    not; each user has one connection, alice a second one. *)

Module Fixture.
Import SocketIo.

Definition db0 : DB :=
  mkDB [mkUser "alice" "online" 0; mkUser "bob" "online" 0; mkUser "carol" "online" 0]
       ["general"]
       [mkChannelMember "general" "alice"; mkChannelMember "general" "bob"]
       [] [] [] [] [] 0 100.

Definition s1 : Socket := mkSocket "s1" "alice" "alice" ({["alice"]} ∪ {["s1"]}).
Definition s2 : Socket := mkSocket "s2" "bob" "bob" ({["bob"]} ∪ {["s2"]}).
Definition s3 : Socket := mkSocket "s3" "carol" "carol" ({["carol"]} ∪ {["s3"]}).
Definition s4 : Socket := mkSocket "s4" "alice" "alice" ({["alice"]} ∪ {["s4"]}).

(** Everyone connected, alice and bob joined to general. *)
Definition w0 : World :=
  let w := Index.on_connection "s1" "alice" "alice" (mkWorld db0 []) in
  let w := Index.on_connection "s2" "bob" "bob" w in
  let w := Index.on_connection "s3" "carol" "carol" w in
  let w := (MessageHandlers.join_channel s1 "general" w).1 in
  (MessageHandlers.join_channel s2 "general" w).1.

(** alice has posted "hello" (message c0) in general. *)
Definition w_msg : World :=
  (MessageHandlers.send_message
     s1 (MessageHandlers.mkSendMessageData "hello" (Some "general") None None) w0).1.

(** alice has reacted to it with +1 (reaction c1). *)
Definition w_rx : World := (MessageHandlers.add_reaction s1 "c0" "+1" w_msg).1.

(** A body of 2001 characters. *)
Definition oversized : string := Js.repeat "a" 2001.

(** alice has created a huddle (c0) in general and bob has joined it. *)
Definition w_huddle : World :=
  let w := (HuddleHandlers.create_huddle s1 (Some "general") None w0).1 in
  (HuddleHandlers.join_huddle s2 "c0" w).1.

(** alice has then ended it. *)
Definition w_ended : World := (HuddleHandlers.end_huddle s1 "c0" w_huddle).1.

(** alice has opened a second connection. *)
Definition w_two : World := Index.on_connection "s4" "alice" "alice" w0.

Definition aliceToBob : MessageService.CreateMessageData :=
  MessageService.mkCreateMessageData "hi bob" "alice" None (Some "bob") None None.

Definition bobToAlice : MessageService.CreateMessageData :=
  MessageService.mkCreateMessageData "hi alice" "bob" None (Some "alice") None None.

(** alice has sent bob a first direct message (conversation c0, message
    c1) and then posted "one", "two", "three" in general (c2, c3, c4). *)
Definition w_dm : World :=
  let w := (MessageHandlers.send_message
              s1 (MessageHandlers.mkSendMessageData "hi bob" None (Some "bob") None) w0).1 in
  let w := (MessageHandlers.send_message
              s1 (MessageHandlers.mkSendMessageData "one" (Some "general") None None) w).1 in
  let w := (MessageHandlers.send_message
              s2 (MessageHandlers.mkSendMessageData "two" (Some "general") None None) w).1 in
  (MessageHandlers.send_message
     s1 (MessageHandlers.mkSendMessageData "three" (Some "general") None None) w).1.

End Fixture.

(** * Proofs *)

(** ** Unfolding the monad *)

Ltac unfold_M :=
  unfold try_catch, guard_or_throw, throw, get_db, fresh_id, set_users,
    set_directMessages, set_messages, set_reactions, set_huddles,
    set_huddleParticipants, mbind, mret, M_bind, M_ret in *.

(** ** The pairwise conversation *)

Section DirectMessages.
Import MessageService.

(** The stepwise reading of createMessage, run without interruption, is
    createMessage. *)
Lemma run_createMessage (data : CreateMessageData) (db : DB) :
  Async.run 3 (Async.start data) db
  = (Async.Returned (createMessage data db).1, (createMessage data db).2).
Proof.
  unfold createMessage, findOrCreateDm, Async.start.
  destruct (Js.truthy (dmUserId data)) eqn:Hdm; simpl.
  - unfold Prisma.directMessage_findFirst. unfold_M.
    destruct (Prisma.text_ok _ && Prisma.text_ok _); simpl; [|reflexivity].
    destruct (find _ (directMessages db)) as [d|] eqn:Hfind; simpl.
    + destruct (Prisma.message_create _ _ _ _ _ _ db) as [[m|e] db']; reflexivity.
    + destruct (Prisma.directMessage_create _ _ db) as [[d|e] db1]; simpl; [|reflexivity].
      destruct (Prisma.message_create _ _ _ _ _ _ db1) as [[m|e] db2]; reflexivity.
  - unfold_M.
    destruct (Prisma.message_create _ _ _ _ _ _ db) as [[m|e] db']; reflexivity.
Qed.

Lemma find_None_filter {A} (f : A → bool) (l : list A) :
  find f l = None → filter (λ x, f x = true) l = [].
Proof.
  induction l as [|x l IH]; simpl; [done|].
  destruct (f x) eqn:Hx; [done|]. intros Hfind.
  rewrite filter_cons_False; [auto | congruence].
Qed.

Lemma dm_between_same_pair (a b c e : string) (d x : DirectMessage) :
  dm_user1Id d = a → dm_user2Id d = b →
  Prisma.dm_between c e d = true →
  Prisma.dm_between c e x = Prisma.dm_between a b x.
Proof.
  unfold Prisma.dm_between. intros <- <- Hd.
  apply orb_true_iff in Hd as [Hd|Hd]; apply bool_decide_eq_true in Hd as [<- <-].
  - reflexivity.
  - apply orb_comm.
Qed.

Lemma message_create_directMessages content userId channelId dmId threadId type db :
  directMessages (Prisma.message_create content userId channelId dmId threadId type db).2
  = directMessages db.
Proof.
  unfold Prisma.message_create. unfold_M.
  destruct (Prisma.text_ok _ && Prisma.text_ok _); simpl; [|reflexivity].
  destruct (_ && _); reflexivity.
Qed.

Lemma findOrCreateDm_unique (data : CreateMessageData) (db : DB) :
  dm_unique db → dm_unique (findOrCreateDm data db).2.
Proof.
  intros Huniq. unfold findOrCreateDm.
  destruct (Js.truthy (dmUserId data)); [|exact Huniq].
  unfold Prisma.directMessage_findFirst, Prisma.directMessage_create. unfold_M.
  destruct (Prisma.text_ok _ && Prisma.text_ok _); simpl; [|exact Huniq].
  destruct (find _ (directMessages db)) as [d|] eqn:Hfind; [exact Huniq|].
  destruct (_ && _); [|exact Huniq]. simpl.
  destruct (negb _); [|exact Huniq]. simpl.
  intros c e. unfold dm_count. simpl.
  rewrite filter_app, length_app.
  set (d := mkDirectMessage _ _ _).
  destruct (Prisma.dm_between c e d) eqn:Hd.
  - rewrite (list_filter_iff _ (λ x, Prisma.dm_between (userId data)
                                       (default "" (dmUserId data)) x = true)).
    + rewrite (find_None_filter _ _ Hfind). simpl.
      rewrite filter_cons_True, filter_nil by done. done.
    + intros x.
      by rewrite (dm_between_same_pair (userId data) (default "" (dmUserId data))
                                       c e d x).
  - rewrite filter_cons_False, filter_nil by congruence. simpl.
    specialize (Huniq c e). unfold dm_count in Huniq. lia.
Qed.

(** Handled one after the other, sends keep the store at one
    conversation record per unordered pair. *)
Lemma createMessage_unique (data : CreateMessageData) (db : DB) :
  dm_unique db → dm_unique (createMessage data db).2.
Proof.
  intros Huniq. apply (findOrCreateDm_unique data) in Huniq.
  unfold createMessage. unfold_M.
  destruct (findOrCreateDm data db) as [[dmId|e] db1]; simpl in *; [|exact Huniq].
  intros a b. specialize (Huniq a b). unfold dm_count in *.
  pose proof (message_create_directMessages (content data) (userId data)
                (channelId data) dmId (threadId data)
                (Js.or_else (type data) "text") db1) as Hdm.
  destruct (Prisma.message_create _ _ _ _ _ _ db1) as [[m|e] db2]; simpl in *;
    by rewrite Hdm.
Qed.

End DirectMessages.

(** C1: two users each send the other a first message at the same time.
    Both calls of createMessage look the conversation up before either has
    created it, both then create one: the store ends with two conversation
    records for the one pair, and the two messages are filed under
    different conversations. *)
Theorem C1_concurrent_first_messages_two_conversations :
  Async.interleave [false; true; false; true; false; true]
                   (Async.start Fixture.aliceToBob) (Async.start Fixture.bobToAlice)
                   Fixture.db0
  = (Async.Returned
       (Ok (mkMessage "c2" "hi bob" "text" None (Some "c0") "alice" None false)),
     Async.Returned
       (Ok (mkMessage "c3" "hi alice" "text" None (Some "c1") "bob" None false)),
     mkDB (users Fixture.db0) (channels Fixture.db0) (channelMembers Fixture.db0)
          [mkDirectMessage "c0" "alice" "bob"; mkDirectMessage "c1" "bob" "alice"]
          [mkMessage "c2" "hi bob" "text" None (Some "c0") "alice" None false;
           mkMessage "c3" "hi alice" "text" None (Some "c1") "bob" None false]
          [] [] [] 4 100)
  ∧ dm_unique Fixture.db0
  ∧ dm_count "alice" "bob"
      (Async.interleave [false; true; false; true; false; true]
                        (Async.start Fixture.aliceToBob) (Async.start Fixture.bobToAlice)
                        Fixture.db0).2 = 2.
Proof.
  split; [vm_compute; reflexivity|]. split; [|vm_compute; reflexivity].
  intros a b. unfold dm_count. simpl. lia.
Qed.


(** ** Reactions *)

Section Reactions.
Import MessageService.

Lemma existsb_find_None {A} (f : A → bool) (l : list A) :
  existsb f l = false ↔ find f l = None.
Proof.
  induction l as [|x l IH]; simpl; [done|].
  destruct (f x); simpl; [split; discriminate | exact IH].
Qed.

Lemma count_0_find_None {A} (f : A → bool) (l : list A) :
  length (filter (λ x, f x = true) l) = 0 ↔ find f l = None.
Proof.
  induction l as [|x l IH]; simpl; [done|].
  destruct (f x) eqn:Hx.
  - rewrite filter_cons_True by done. simpl. split; discriminate.
  - rewrite filter_cons_False by congruence. exact IH.
Qed.

Lemma filter_filter_length {A} (P Q : A → Prop)
    `{!∀ x, Decision (P x), !∀ x, Decision (Q x)} (l : list A) :
  length (filter P (filter Q l)) ≤ length (filter P l).
Proof.
  induction l as [|x l IH]; simpl; [done|].
  destruct (decide (Q x)).
  - rewrite (filter_cons_True Q) by done.
    destruct (decide (P x)).
    + rewrite !(filter_cons_True P) by done. simpl. lia.
    + rewrite !(filter_cons_False P) by done. done.
  - rewrite (filter_cons_False Q) by done.
    destruct (decide (P x)).
    + rewrite (filter_cons_True P) by done. simpl. lia.
    + rewrite (filter_cons_False P) by done. done.
Qed.

(** Adding a reaction that is there returns it and writes nothing. *)
Lemma addReaction_existing m u e r db :
  find (Prisma.rx_is m u e) (reactions db) = Some r →
  addReaction m u e db = (Ok r, db).
Proof.
  intros Hfind. unfold addReaction, Prisma.reaction_upsert. unfold_M.
  by rewrite Hfind.
Qed.

Lemma rx_is_inj m u e m' u' e' r :
  Prisma.rx_is m u e r = true → Prisma.rx_is m' u' e' r = true →
  m' = m ∧ u' = u ∧ e' = e.
Proof.
  unfold Prisma.rx_is. intros H1 H2.
  apply bool_decide_eq_true in H1 as (<- & <- & <-).
  by apply bool_decide_eq_true in H2 as (<- & <- & <-).
Qed.

Lemma addReaction_unique m u e db :
  rx_unique db → rx_unique (addReaction m u e db).2.
Proof.
  intros Huniq. unfold addReaction, Prisma.reaction_upsert. unfold_M.
  destruct (find _ (reactions db)) as [r|] eqn:Hfind; [exact Huniq|].
  destruct (Prisma.text_ok e); simpl; [|exact Huniq].
  destruct (_ && _); [|exact Huniq]. simpl.
  intros m' u' e'. unfold rx_count. simpl.
  rewrite filter_app, length_app.
  set (r := mkReaction _ _ _ _).
  destruct (Prisma.rx_is m' u' e' r) eqn:Hr.
  - assert (Prisma.rx_is m u e r = true) as Hr0
        by (unfold Prisma.rx_is; by apply bool_decide_eq_true).
    destruct (rx_is_inj _ _ _ _ _ _ _ Hr0 Hr) as (-> & -> & ->).
    apply count_0_find_None in Hfind. rewrite Hfind.
    rewrite filter_cons_True, filter_nil by done. done.
  - rewrite filter_cons_False, filter_nil by congruence. simpl.
    specialize (Huniq m' u' e'). unfold rx_count in Huniq. lia.
Qed.

Lemma removeReaction_unique m u e db :
  rx_unique db → rx_unique (removeReaction m u e db).2.
Proof.
  intros Huniq. unfold removeReaction, Prisma.reaction_delete. unfold_M.
  destruct (existsb _ (reactions db)); [|exact Huniq]. simpl.
  intros m' u' e'. unfold rx_count. simpl.
  etrans; [apply filter_filter_length|]. apply Huniq.
Qed.

(** Removing a reaction that is not there throws and writes nothing. *)
Lemma removeReaction_missing m u e db :
  rx_count m u e db = 0 →
  removeReaction m u e db = (Throw "Failed to remove reaction", db).
Proof.
  intros Hcount. apply count_0_find_None, existsb_find_None in Hcount.
  unfold removeReaction, Prisma.reaction_delete. unfold_M.
  by rewrite Hcount.
Qed.

Lemma removeReaction_present m u e db :
  rx_count m u e db ≠ 0 →
  (removeReaction m u e db).1 = Ok () ∧ rx_count m u e (removeReaction m u e db).2 = 0.
Proof.
  intros Hcount.
  assert (existsb (Prisma.rx_is m u e) (reactions db) = true) as Hex.
  { destruct (existsb _ _) eqn:Hex; [done|].
    by apply existsb_find_None, count_0_find_None in Hex. }
  unfold removeReaction, Prisma.reaction_delete. unfold_M.
  rewrite Hex. simpl. split; [done|].
  unfold rx_count. simpl. rewrite list_filter_filter. clear Hex Hcount.
  induction (reactions db) as [|r l IH]; [done|].
  rewrite filter_cons_False; [exact IH|].
  intros [H1 H2]. congruence.
Qed.

End Reactions.

(** C5 (as amended): for every triple (messageId, userId, emoji), adding a
    reaction that already exists returns the existing record and leaves the
    store unchanged; addReaction and removeReaction both keep the store at
    no more than one record per triple; removing a reaction that does not
    exist leaves the store unchanged and fails with "Failed to remove
    reaction". *)
Theorem C5_reaction_add_is_idempotent_remove_of_missing_fails
    (db : DB) (messageId userId emoji : string) :
  rx_unique db →
  (∀ r, find (Prisma.rx_is messageId userId emoji) (reactions db) = Some r →
        MessageService.addReaction messageId userId emoji db = (Ok r, db))
  ∧ rx_unique (MessageService.addReaction messageId userId emoji db).2
  ∧ rx_unique (MessageService.removeReaction messageId userId emoji db).2
  ∧ (rx_count messageId userId emoji db = 0 →
     MessageService.removeReaction messageId userId emoji db
     = (Throw "Failed to remove reaction", db)).
Proof.
  intros Huniq. repeat split.
  - intros r. apply addReaction_existing.
  - by apply addReaction_unique.
  - by apply removeReaction_unique.
  - apply removeReaction_missing.
Qed.

(** The theorem of C5 at the store in which alice has reacted to c0. *)
Lemma C5_witness :
  rx_unique (SocketIo.db Fixture.w_rx)
  ∧ (∀ r, find (Prisma.rx_is "c0" "alice" "+1") (reactions (SocketIo.db Fixture.w_rx))
          = Some r →
          MessageService.addReaction "c0" "alice" "+1" (SocketIo.db Fixture.w_rx)
          = (Ok r, SocketIo.db Fixture.w_rx))
  ∧ rx_unique (MessageService.addReaction "c0" "alice" "+1" (SocketIo.db Fixture.w_rx)).2
  ∧ rx_unique (MessageService.removeReaction "c0" "alice" "+1" (SocketIo.db Fixture.w_rx)).2
  ∧ (rx_count "c0" "alice" "+1" (SocketIo.db Fixture.w_rx) = 0 →
     MessageService.removeReaction "c0" "alice" "+1" (SocketIo.db Fixture.w_rx)
     = (Throw "Failed to remove reaction", SocketIo.db Fixture.w_rx)).
Proof.
  assert (rx_unique (SocketIo.db Fixture.w_rx)) as Huniq.
  { intros m u e. unfold rx_count.
    change (reactions (SocketIo.db Fixture.w_rx))
      with [mkReaction "c1" "+1" "c0" "alice"].
    rewrite filter_cons, filter_nil. case_decide; simpl; lia. }
  split; [exact Huniq|].
  exact (C5_reaction_add_is_idempotent_remove_of_missing_fails
           (SocketIo.db Fixture.w_rx) "c0" "alice" "+1" Huniq).
Defined.

(** C5, the claim as stated fails: bob has not reacted to message c0, and
    his removal of a +1 does not succeed; the store is as it was and the
    handler answers him with an error event. *)
Lemma C5_remove_of_missing_reaction_throws :
  rx_count "c0" "bob" "+1" (SocketIo.db Fixture.w_rx) = 0
  ∧ MessageService.removeReaction "c0" "bob" "+1" (SocketIo.db Fixture.w_rx)
    = (Throw "Failed to remove reaction", SocketIo.db Fixture.w_rx)
  ∧ (MessageHandlers.remove_reaction Fixture.s2 "c0" "+1" Fixture.w_rx).2
    = [("s2", SocketIo.error "Failed to remove reaction")].
Proof. split_and!; vm_compute; reflexivity. Qed.

(** ** The message handlers *)

Section MessageEvents.
Import SocketIo MessageHandlers.

Lemma elem_of_deliver (ev : Event) (ss : list Socket) (sid : string) (ev' : Event) :
  (sid, ev') ∈ deliver ev ss ↔ ev' = ev ∧ ∃ s, s ∈ ss ∧ id s = sid.
Proof.
  unfold deliver. rewrite list_elem_of_fmap. split.
  - intros (s & Heq & Hs). injection Heq as -> ->. eauto.
  - intros (-> & s & Hs & <-). eauto.
Qed.

(** A member has no membership row: the access check answers false. *)
Lemma canUserAccessChannel_non_member (userId channelId : string) (db : DB) :
  (∀ c, c ∈ channelMembers db →
        ¬ (cm_channelId c = channelId ∧ cm_userId c = userId)) →
  MessageService.canUserAccessChannel userId channelId db = (Ok false, db).
Proof.
  intros Hnot. unfold MessageService.canUserAccessChannel,
    Prisma.channelMember_findUnique. unfold_M.
  destruct (find _ (channelMembers db)) as [c|] eqn:Hfind; [|done].
  apply find_some in Hfind as [Hin Hc].
  apply bool_decide_eq_true in Hc.
  apply list_elem_of_In in Hin. by destruct (Hnot c Hin).
Qed.

Lemma deleteMessage_by_author (messageId userId : string) (m : Message) (db : DB) :
  find (λ m, bool_decide (msg_id m = messageId)) (messages db) = Some m →
  msg_userId m = userId →
  (MessageService.deleteMessage messageId userId db).1 = Ok ().
Proof.
  intros Hfind Hauthor. unfold MessageService.deleteMessage, Prisma.message_delete,
    Prisma.message_findUnique. unfold_M.
  rewrite Hfind. rewrite bool_decide_eq_false_2 by (intros H; by apply H).
  rewrite Hfind. reflexivity.
Qed.

End MessageEvents.

(** C10: a delete-message that succeeds emits message-deleted, carrying
    the id of the deleted message, to every connected socket, whatever
    rooms the socket is in; nothing else is emitted. *)
Theorem C10_message_deleted_goes_to_every_connected_client
    (socket : SocketIo.Socket) (messageId : string) (w : SocketIo.World) :
  is_ok (MessageService.deleteMessage messageId (SocketIo.userId socket) (SocketIo.db w)).1
  = true →
  (∀ s, s ∈ SocketIo.io w →
        (SocketIo.id s, SocketIo.message_deleted messageId)
        ∈ (MessageHandlers.delete_message socket messageId w).2)
  ∧ (∀ sid ev, (sid, ev) ∈ (MessageHandlers.delete_message socket messageId w).2 →
               ev = SocketIo.message_deleted messageId)
  ∧ length (MessageHandlers.delete_message socket messageId w).2
    = length (SocketIo.io w).
Proof.
  intros Hok. unfold MessageHandlers.delete_message.
  destruct (MessageService.deleteMessage _ _ _) as [[[]|e] db']; [|discriminate].
  simpl. unfold SocketIo.io_emit. repeat split.
  - intros s Hs. apply elem_of_deliver. eauto.
  - intros sid ev Hin. by apply elem_of_deliver in Hin as [-> _].
  - unfold SocketIo.deliver. by rewrite length_fmap.
Qed.

(** The theorem of C10 at alice's deletion of c0: carol's socket is not in
    room general and receives the event. *)
Lemma C10_witness :
  is_ok (MessageService.deleteMessage "c0" "alice" (SocketIo.db Fixture.w_msg)).1 = true
  ∧ SocketIo.io Fixture.w_msg !! 2 = Some Fixture.s3
  ∧ SocketIo.in_room "general" Fixture.s3 = false
  ∧ ("s3", SocketIo.message_deleted "c0")
    ∈ (MessageHandlers.delete_message Fixture.s1 "c0" Fixture.w_msg).2.
Proof.
  assert (SocketIo.io Fixture.w_msg !! 2 = Some Fixture.s3) as Hs3
      by (vm_compute; reflexivity).
  split; [vm_compute; reflexivity|]. split; [exact Hs3|].
  split; [vm_compute; reflexivity|].
  apply (C10_message_deleted_goes_to_every_connected_client
           Fixture.s1 "c0" Fixture.w_msg ltac:(vm_compute; reflexivity)) with (s := Fixture.s3).
  exact (list_elem_of_lookup_2 _ _ _ Hs3).
Defined.

(** C6: message c0 belongs to channel general, whose room holds the
    sockets of alice and bob; carol's socket is connected and outside that
    room. alice adds a reaction to c0 and then removes it: carol's socket
    receives both reaction-added and reaction-removed. The handlers emit
    with io.emit under the comment "Emit to all subscribers of the
    message's room". *)
Theorem C6_reaction_events_reach_sockets_outside_the_room :
  msg_channelId <$> messages (SocketIo.db Fixture.w_msg) = [Some "general"]
  ∧ (λ s, (SocketIo.id s, SocketIo.in_room "general" s)) <$> SocketIo.io Fixture.w_msg
    = [("s1", true); ("s2", true); ("s3", false)]
  ∧ (MessageHandlers.add_reaction Fixture.s1 "c0" "+1" Fixture.w_msg).2
    = [("s1", SocketIo.reaction_added "c0" (mkReaction "c1" "+1" "c0" "alice"));
       ("s2", SocketIo.reaction_added "c0" (mkReaction "c1" "+1" "c0" "alice"));
       ("s3", SocketIo.reaction_added "c0" (mkReaction "c1" "+1" "c0" "alice"))]
  ∧ (MessageHandlers.remove_reaction Fixture.s1 "c0" "+1" Fixture.w_rx).2
    = [("s1", SocketIo.reaction_removed "c0" "alice" "+1");
       ("s2", SocketIo.reaction_removed "c0" "alice" "+1");
       ("s3", SocketIo.reaction_removed "c0" "alice" "+1")].
Proof. repeat split; vm_compute; reflexivity. Qed.

(** C3: alice sends an empty body, then a body of 2001 characters, to
    channel general. messageSchema rejects both bodies, but neither
    createMessage nor the send-message handler consults it: each message is
    stored and broadcast to the room as new-message, and no error event is
    sent. *)
Theorem C3_empty_and_oversized_bodies_are_stored_and_broadcast :
  Validation.messageSchema_content "" = false
  ∧ (let r := MessageHandlers.send_message
                Fixture.s1 (MessageHandlers.mkSendMessageData "" (Some "general") None None)
                Fixture.w0 in
     messages (SocketIo.db r.1)
     = [mkMessage "c0" "" "text" (Some "general") None "alice" None false]
     ∧ r.2 = [("s1", SocketIo.new_message
                       (mkMessage "c0" "" "text" (Some "general") None "alice" None false));
              ("s2", SocketIo.new_message
                       (mkMessage "c0" "" "text" (Some "general") None "alice" None false))])
  ∧ String.length Fixture.oversized = 2001
  ∧ Validation.messageSchema_content Fixture.oversized = false
  ∧ (let r := MessageHandlers.send_message
                Fixture.s1
                (MessageHandlers.mkSendMessageData Fixture.oversized (Some "general") None None)
                Fixture.w0 in
     msg_content <$> messages (SocketIo.db r.1) = [Fixture.oversized]
     ∧ r.2 = [("s1", SocketIo.new_message
                       (mkMessage "c0" Fixture.oversized "text" (Some "general") None
                                  "alice" None false));
              ("s2", SocketIo.new_message
                       (mkMessage "c0" Fixture.oversized "text" (Some "general") None
                                  "alice" None false))]).
Proof. repeat split; vm_compute; reflexivity. Qed.

(** C4 (as amended): for every join-channel request by a user who has no
    membership row for the channel, the socket is not added to the room,
    the store is unchanged, and nothing is emitted to any socket, the
    requester included. *)
Theorem C4_join_channel_by_non_member_is_silently_ignored
    (socket : SocketIo.Socket) (channelId : string) (w : SocketIo.World) :
  (∀ c, c ∈ channelMembers (SocketIo.db w) →
        ¬ (cm_channelId c = channelId ∧ cm_userId c = SocketIo.userId socket)) →
  MessageHandlers.join_channel socket channelId w = (w, []).
Proof.
  intros Hnot. unfold MessageHandlers.join_channel.
  rewrite (canUserAccessChannel_non_member _ _ _ Hnot). by destruct w.
Qed.

(** The theorem of C4 at carol's request to join general. *)
Lemma C4_witness :
  (∀ c, c ∈ channelMembers (SocketIo.db Fixture.w0) →
        ¬ (cm_channelId c = "general" ∧ cm_userId c = SocketIo.userId Fixture.s3))
  ∧ MessageHandlers.join_channel Fixture.s3 "general" Fixture.w0 = (Fixture.w0, []).
Proof.
  assert (∀ c, c ∈ channelMembers (SocketIo.db Fixture.w0) →
               ¬ (cm_channelId c = "general" ∧ cm_userId c = SocketIo.userId Fixture.s3))
    as Hnot.
  { intros c Hc [_ Hu].
    change (channelMembers (SocketIo.db Fixture.w0))
      with [mkChannelMember "general" "alice"; mkChannelMember "general" "bob"] in Hc.
    apply list_elem_of_In in Hc. simpl in Hc.
    destruct Hc as [<-|[<-|[]]]; discriminate Hu. }
  split; [exact Hnot|].
  exact (C4_join_channel_by_non_member_is_silently_ignored Fixture.s3 "general" Fixture.w0 Hnot).
Defined.

(** C4, the claim as stated fails: carol is not a member of general; her
    join-channel is refused, and no error event reaches her socket. *)
Lemma C4_no_error_is_reported_to_the_requester :
  MessageService.canUserAccessChannel "carol" "general" (SocketIo.db Fixture.w0)
  = (Ok false, SocketIo.db Fixture.w0)
  ∧ ¬ ∃ message, ("s3", SocketIo.error message)
                 ∈ (MessageHandlers.join_channel Fixture.s3 "general" Fixture.w0).2.
Proof.
  split; [vm_compute; reflexivity|].
  intros [message Hin].
  change ((MessageHandlers.join_channel Fixture.s3 "general" Fixture.w0).2)
    with (@nil SocketIo.Delivery) in Hin.
  by apply elem_of_nil in Hin.
Qed.

(** ** Signaling relay *)

Section Signaling.
Import SocketIo HuddleHandlers.

Lemma socket_to_relays (w : World) (socket : Socket) (room : string) (ev : Event) :
  relays_to_room w socket room ev (socket_to (io w) socket room ev).
Proof.
  intros sid ev'. unfold socket_to. rewrite elem_of_deliver.
  split; intros [-> (s & Hs & Hid)]; (split; [done|]); exists s.
  - apply list_elem_of_filter in Hs as [Hp Hs].
    apply andb_true_iff in Hp as [Hroom Hnot].
    apply bool_decide_eq_true in Hroom. apply bool_decide_eq_true in Hnot. done.
  - destruct Hid as (Hid & Hroom & Hnot). split; [|done].
    apply list_elem_of_filter. split; [|done].
    apply andb_true_iff. split; by apply bool_decide_eq_true.
Qed.

End Signaling.

(** C7 (as amended): every signaling message (offer, answer, ICE candidate)
    leaves the store and the rooms untouched and is emitted, with the
    payload as received and the sender's user id attached, to exactly the
    sockets in the room named by targetUserId other than the sending
    socket. No condition on the sender's participation in the named huddle
    is involved: the relay happens whether or not the sender is a
    participant. *)
Theorem C7_signaling_is_relayed_to_the_target_room_ungated
    (socket : SocketIo.Socket) (data : HuddleHandlers.SignalData) (w : SocketIo.World) :
  (HuddleHandlers.on_webrtc_offer socket data w).1 = w
  ∧ relays_to_room w socket (HuddleHandlers.targetUserId data)
      (SocketIo.webrtc_offer (HuddleHandlers.huddleId data) (SocketIo.userId socket)
                             (HuddleHandlers.payload data))
      (HuddleHandlers.on_webrtc_offer socket data w).2
  ∧ (HuddleHandlers.on_webrtc_answer socket data w).1 = w
  ∧ relays_to_room w socket (HuddleHandlers.targetUserId data)
      (SocketIo.webrtc_answer (HuddleHandlers.huddleId data) (SocketIo.userId socket)
                              (HuddleHandlers.payload data))
      (HuddleHandlers.on_webrtc_answer socket data w).2
  ∧ (HuddleHandlers.on_webrtc_ice_candidate socket data w).1 = w
  ∧ relays_to_room w socket (HuddleHandlers.targetUserId data)
      (SocketIo.webrtc_ice_candidate (HuddleHandlers.huddleId data) (SocketIo.userId socket)
                                     (HuddleHandlers.payload data))
      (HuddleHandlers.on_webrtc_ice_candidate socket data w).2.
Proof.
  split_and!; try reflexivity; apply socket_to_relays.
Qed.

(** C7, the claim as stated fails: carol has no participant row in huddle
    c0, and the offer she addresses to bob under that huddle id is relayed
    to bob's socket. *)
Lemma C7_offer_from_a_non_participant_is_relayed :
  active_rows "c0" "carol" (SocketIo.db Fixture.w_huddle) = []
  ∧ (HuddleHandlers.on_webrtc_offer
       Fixture.s3 (HuddleHandlers.mkSignalData "c0" "bob" "v=0 o=carol") Fixture.w_huddle).2
    = [("s2", SocketIo.webrtc_offer "c0" "carol" "v=0 o=carol")].
Proof. split; vm_compute; reflexivity. Qed.

(** ** Disconnect *)

Section Disconnect.
Import SocketIo.

Lemma user_update_existing (uid : string) (f : User → User) (db : DB) :
  uid ∈ user_id <$> users db →
  (∀ u, Prisma.text_ok (user_status (f u)) = true) →
  Prisma.user_update uid f db
  = (Ok (),
     mkDB ((λ u, if bool_decide (user_id u = uid) then f u else u) <$> users db)
          (channels db) (channelMembers db) (directMessages db) (messages db)
          (reactions db) (huddles db) (huddleParticipants db) (nextId db) (now db)).
Proof.
  intros Hin Htext. unfold Prisma.user_update, Prisma.fk. unfold_M.
  rewrite bool_decide_eq_true_2 by done. simpl.
  rewrite (proj2 (forallb_forall _ _)); [done|].
  intros u _. rewrite Htext. apply orb_true_r.
Qed.

Lemma user_update_huddles (uid : string) (f : User → User) (db : DB) :
  huddleParticipants (Prisma.user_update uid f db).2 = huddleParticipants db
  ∧ huddles (Prisma.user_update uid f db).2 = huddles db.
Proof.
  unfold Prisma.user_update. unfold_M.
  destruct (Prisma.fk _ _); simpl; [|done]. by destruct (forallb _ _).
Qed.

Lemma elem_of_close (socket s : Socket) (ss : list Socket) :
  s ∈ close socket ss ↔ s ∈ ss ∧ id s ≠ id socket.
Proof.
  unfold close. rewrite list_elem_of_filter. unfold is_not.
  rewrite bool_decide_eq_true. tauto.
Qed.

(** What the disconnect of a socket emits: at most the offline status
    change of its user. *)
Lemma on_disconnect_events (socket : Socket) (w : World) (sid : string) (ev : Event) :
  (sid, ev) ∈ (Index.on_disconnect socket w).2 →
  ev = user_status_changed (userId socket) "offline".
Proof.
  unfold Index.on_disconnect, PresenceHandlers.disconnect. simpl.
  destruct (Prisma.user_update _ _ _) as [[[]|e] db']; simpl.
  - unfold socket_broadcast_emit. rewrite elem_of_deliver. by intros [-> _].
  - by intros ?%elem_of_nil.
Qed.

End Disconnect.

(** C8 (as amended): when a connection of a stored user disconnects, the
    user's stored status is set to offline and the status change is emitted
    to every other connected socket. Whether other connections of the same
    user remain plays no part: they receive the event like any other
    socket. *)
Theorem C8_disconnect_sets_offline_unconditionally
    (socket : SocketIo.Socket) (w : SocketIo.World) :
  SocketIo.userId socket ∈ user_id <$> users (SocketIo.db w) →
  (∀ u, u ∈ users (SocketIo.db (Index.on_disconnect socket w).1) →
        user_id u = SocketIo.userId socket → user_status u = "offline")
  ∧ (∀ s, s ∈ SocketIo.io w → SocketIo.id s ≠ SocketIo.id socket →
          s ∈ SocketIo.io (Index.on_disconnect socket w).1
          ∧ (SocketIo.id s,
             SocketIo.user_status_changed (SocketIo.userId socket) "offline")
            ∈ (Index.on_disconnect socket w).2).
Proof.
  intros Hin. unfold Index.on_disconnect, PresenceHandlers.disconnect. simpl.
  rewrite (user_update_existing _ _ _ Hin) by done. simpl. split.
  - intros u Hu Hid. apply list_elem_of_fmap in Hu as (u0 & -> & Hu0).
    destruct (bool_decide (user_id u0 = SocketIo.userId socket)) eqn:Hdec.
    + reflexivity.
    + apply bool_decide_eq_false in Hdec. by destruct Hdec.
  - intros s Hs Hne.
    assert (s ∈ SocketIo.close socket (SocketIo.io w)) as Hclose
        by (by apply elem_of_close).
    split; [exact Hclose|].
    unfold SocketIo.socket_broadcast_emit. apply elem_of_deliver. split; [done|].
    exists s. split; [|done].
    apply list_elem_of_filter. split; [|exact Hclose].
    unfold SocketIo.is_not. by apply bool_decide_eq_true.
Qed.

(** The theorem of C8 at the disconnect of alice's second connection. *)
Lemma C8_witness :
  SocketIo.userId Fixture.s4 ∈ user_id <$> users (SocketIo.db Fixture.w_two)
  ∧ (∀ u, u ∈ users (SocketIo.db (Index.on_disconnect Fixture.s4 Fixture.w_two).1) →
          user_id u = "alice" → user_status u = "offline")
  ∧ (∀ s, s ∈ SocketIo.io Fixture.w_two → SocketIo.id s ≠ "s4" →
          s ∈ SocketIo.io (Index.on_disconnect Fixture.s4 Fixture.w_two).1
          ∧ (SocketIo.id s, SocketIo.user_status_changed "alice" "offline")
            ∈ (Index.on_disconnect Fixture.s4 Fixture.w_two).2).
Proof.
  assert (SocketIo.userId Fixture.s4 ∈ user_id <$> users (SocketIo.db Fixture.w_two))
    as Hin by (apply (list_elem_of_lookup_2 _ 0); reflexivity).
  split; [exact Hin|].
  exact (C8_disconnect_sets_offline_unconditionally Fixture.s4 Fixture.w_two Hin).
Defined.

(** C8, the claim as stated fails: alice has two connections, s1 and s4.
    s4 disconnects; s1 stays connected, yet alice's stored status becomes
    offline and the change is emitted, to s1 among others. *)
Lemma C8_status_goes_offline_while_a_connection_remains :
  (λ s, (SocketIo.id s, SocketIo.userId s))
    <$> SocketIo.io (Index.on_disconnect Fixture.s4 Fixture.w_two).1
  = [("s1", "alice"); ("s2", "bob"); ("s3", "carol")]
  ∧ users (SocketIo.db Fixture.w_two)
    = [mkUser "alice" "online" 0; mkUser "bob" "online" 0; mkUser "carol" "online" 0]
  ∧ users (SocketIo.db (Index.on_disconnect Fixture.s4 Fixture.w_two).1)
    = [mkUser "alice" "offline" 100; mkUser "bob" "online" 0; mkUser "carol" "online" 0]
  ∧ (Index.on_disconnect Fixture.s4 Fixture.w_two).2
    = [("s1", SocketIo.user_status_changed "alice" "offline");
       ("s2", SocketIo.user_status_changed "alice" "offline");
       ("s3", SocketIo.user_status_changed "alice" "offline")].
Proof. split_and!; vm_compute; reflexivity. Qed.

(** ** Huddles *)

Section Huddles.
Import SocketIo HuddleService.

Lemma find_id_elem_of {A} (key : A → string) (i : string) (l : list A) (x : A) :
  find (λ y, bool_decide (key y = i)) l = Some x → i ∈ key <$> l.
Proof.
  intros Hfind. apply find_some in Hfind as [Hin Hkey].
  apply bool_decide_eq_true in Hkey as <-.
  apply list_elem_of_fmap_2. by apply list_elem_of_In.
Qed.

Lemma hd_id_update (i : string) (f : Huddle → Huddle) (l : list Huddle) :
  (∀ h, hd_id (f h) = hd_id h) →
  hd_id <$> ((λ h, if bool_decide (hd_id h = i) then f h else h) <$> l) = hd_id <$> l.
Proof.
  intros Hf. rewrite <- list_fmap_compose. apply list_fmap_ext.
  intros _ h _. simpl. by destruct (bool_decide _).
Qed.

(** endHuddle by the creator, written out. *)
Lemma endHuddle_by_creator (huddleId userId : string) (h : Huddle) (db : DB) :
  find (λ h, bool_decide (hd_id h = huddleId)) (huddles db) = Some h →
  hd_creatorId h = userId →
  endHuddle huddleId userId db
  = (Ok (),
     mkDB (users db) (channels db) (channelMembers db) (directMessages db)
          (messages db) (reactions db)
          ((λ h, if bool_decide (hd_id h = huddleId) then set_ended (now db) h else h)
             <$> huddles db)
          ((λ p, if active_in huddleId p then set_leftAt (Some (now db)) p else p)
             <$> huddleParticipants db)
          (nextId db) (now db)).
Proof.
  intros Hfind Hcreator. unfold endHuddle, Prisma.huddle_findUnique,
    Prisma.huddle_update, Prisma.huddleParticipant_updateMany, Prisma.fk. unfold_M.
  rewrite Hfind. rewrite bool_decide_eq_false_2 by (intros H; by apply H).
  rewrite bool_decide_eq_true_2 by (by eapply find_id_elem_of).
  reflexivity.
Qed.

(** joinHuddle reads and writes participant rows only: whatever the
    status of the huddle, a stored user gets an active row back. *)
Lemma joinHuddle_any_status (huddleId userId : string) (db : DB) :
  huddleId ∈ hd_id <$> huddles db →
  userId ∈ user_id <$> users db →
  ∃ p, (joinHuddle huddleId userId db).1 = Ok p ∧ hp_leftAt p = None
       ∧ huddles (joinHuddle huddleId userId db).2 = huddles db.
Proof.
  intros Hh Hu. unfold joinHuddle, Prisma.huddleParticipant_findUnique,
    Prisma.huddleParticipant_update, Prisma.huddleParticipant_create, Prisma.fk.
  unfold_M.
  destruct (find _ (huddleParticipants db)) as [p|] eqn:Hfind.
  - destruct (hp_leftAt p) as [t|] eqn:Hleft.
    + destruct (find (λ q, bool_decide (hp_id q = hp_id p)) (huddleParticipants db))
        as [p0|] eqn:Hid.
      * exists (rejoin (now db) p0). done.
      * apply find_some in Hfind as [Hin _].
        eapply find_none in Hid; [|exact Hin].
        by rewrite bool_decide_eq_true_2 in Hid.
    + exists p. done.
  - rewrite !bool_decide_eq_true_2 by done. simpl.
    apply existsb_find_None in Hfind. rewrite Hfind. simpl.
    eexists. done.
Qed.

Lemma find_fmap_preserved {A} (f : A → bool) (g : A → A) (l : list A) :
  (∀ x, f (g x) = f x) → find f (g <$> l) = g <$> find f l.
Proof.
  intros Hfg. induction l as [|x l IH]; [done|].
  rewrite fmap_cons. simpl. rewrite Hfg. by destruct (f x).
Qed.

(** Row ids are a key: the first row with the id of a stored row is that
    row. *)
Lemma find_key_NoDup {A} (key : A → string) (l : list A) (x : A) :
  NoDup (key <$> l) → x ∈ l → find (λ y, bool_decide (key y = key x)) l = Some x.
Proof.
  induction l as [|y l IH]; intros Hnd Hin; [by apply elem_of_nil in Hin|].
  rewrite fmap_cons in Hnd. apply NoDup_cons in Hnd as [Hy Hnd]. simpl.
  apply elem_of_cons in Hin as [->|Hin].
  - by rewrite bool_decide_eq_true_2.
  - rewrite bool_decide_eq_false_2; [by apply IH|].
    intros Heq. apply Hy. rewrite Heq. by apply list_elem_of_fmap_2.
Qed.

(** joinHuddle by a stored user on a stored huddle, case by case on the
    row of the pair: an active row is returned as it is, a closed row is
    reactivated in place, and without a row one is created. *)
Lemma joinHuddle_stored (huddleId userId : string) (db : DB) :
  huddleId ∈ hd_id <$> huddles db →
  userId ∈ user_id <$> users db →
  NoDup (hp_id <$> huddleParticipants db) →
  (∃ p, find (λ p, bool_decide (hp_huddleId p = huddleId ∧ hp_userId p = userId))
             (huddleParticipants db) = Some p
        ∧ hp_leftAt p = None ∧ joinHuddle huddleId userId db = (Ok p, db))
  ∨ (∃ p, find (λ p, bool_decide (hp_huddleId p = huddleId ∧ hp_userId p = userId))
               (huddleParticipants db) = Some p
          ∧ hp_leftAt p ≠ None
          ∧ joinHuddle huddleId userId db
            = (Ok (rejoin (now db) p),
               mkDB (users db) (channels db) (channelMembers db) (directMessages db)
                    (messages db) (reactions db) (huddles db)
                    ((λ q, if bool_decide (hp_id q = hp_id p) then rejoin (now db) q
                           else q) <$> huddleParticipants db)
                    (nextId db) (now db)))
  ∨ (find (λ p, bool_decide (hp_huddleId p = huddleId ∧ hp_userId p = userId))
          (huddleParticipants db) = None
     ∧ joinHuddle huddleId userId db
       = (Ok (mkHuddleParticipant (cuid (nextId db)) huddleId userId (now db) None
                                  false false),
          mkDB (users db) (channels db) (channelMembers db) (directMessages db)
               (messages db) (reactions db) (huddles db)
               (huddleParticipants db
                ++ [mkHuddleParticipant (cuid (nextId db)) huddleId userId (now db) None
                                        false false])
               (S (nextId db)) (now db))).
Proof.
  intros Hh Hu Hkey. unfold joinHuddle, Prisma.huddleParticipant_findUnique,
    Prisma.huddleParticipant_update, Prisma.huddleParticipant_create, Prisma.fk.
  unfold_M.
  destruct (find _ (huddleParticipants db)) as [p|] eqn:Hfind.
  - destruct (hp_leftAt p) as [t|] eqn:Hleft.
    + right. left. exists p. rewrite Hleft.
      apply find_some in Hfind as [Hin _]. apply list_elem_of_In in Hin.
      rewrite (find_key_NoDup hp_id _ p Hkey Hin). done.
    + left. exists p. done.
  - right. right. split; [done|].
    rewrite !bool_decide_eq_true_2 by done. simpl.
    apply existsb_find_None in Hfind. by rewrite Hfind.
Qed.

Lemma leaveHuddle_participants (huddleId userId : string) (db : DB) :
  huddleParticipants (leaveHuddle huddleId userId db).2
  = (λ p, if active_as huddleId userId p then set_leftAt (Some (now db)) p else p)
      <$> huddleParticipants db.
Proof.
  unfold leaveHuddle, Prisma.huddleParticipant_updateMany,
    Prisma.huddleParticipant_count, Prisma.huddle_update. unfold_M. simpl.
  destruct (bool_decide (length _ = 0)); [|done].
  by destruct (Prisma.fk _ _).
Qed.

End Huddles.

(** C9 (as amended): the disconnect of a connection performs no implicit
    leave: it leaves every huddle and every participant row as it was, and
    emits nothing but the offline status change, so no user-left-huddle
    event. A participant is marked as left, and the other sockets of the
    huddle room receive user-left-huddle for that user, when the connection
    sends leave-huddle and the service call succeeds. *)
Theorem C9_disconnect_performs_no_implicit_leave
    (socket : SocketIo.Socket) (huddleId : string) (w : SocketIo.World) :
  is_ok (HuddleService.leaveHuddle huddleId (SocketIo.userId socket) (SocketIo.db w)).1
  = true →
  (huddleParticipants (SocketIo.db (Index.on_disconnect socket w).1)
   = huddleParticipants (SocketIo.db w)
   ∧ huddles (SocketIo.db (Index.on_disconnect socket w).1) = huddles (SocketIo.db w)
   ∧ ∀ sid ev, (sid, ev) ∈ (Index.on_disconnect socket w).2 →
               ev = SocketIo.user_status_changed (SocketIo.userId socket) "offline")
  ∧ (active_rows huddleId (SocketIo.userId socket)
       (SocketIo.db (HuddleHandlers.leave_huddle socket huddleId w).1) = []
     ∧ ∀ s, s ∈ SocketIo.io w →
            HuddleHandlers.room_of huddleId ∈ SocketIo.rooms s →
            SocketIo.id s ≠ SocketIo.id socket →
            (SocketIo.id s, SocketIo.user_left_huddle huddleId (SocketIo.userId socket))
            ∈ (HuddleHandlers.leave_huddle socket huddleId w).2).
Proof.
  intros Hok. split.
  - split_and!.
    + unfold Index.on_disconnect, PresenceHandlers.disconnect. simpl.
      pose proof (user_update_huddles (SocketIo.userId socket)
                    (PresenceHandlers.set_status "offline" (now (SocketIo.db w)))
                    (SocketIo.db w)) as [Hp _].
      by destruct (Prisma.user_update _ _ _) as [[[]|e] db'].
    + unfold Index.on_disconnect, PresenceHandlers.disconnect. simpl.
      pose proof (user_update_huddles (SocketIo.userId socket)
                    (PresenceHandlers.set_status "offline" (now (SocketIo.db w)))
                    (SocketIo.db w)) as [_ Hh].
      by destruct (Prisma.user_update _ _ _) as [[[]|e] db'].
    + apply on_disconnect_events.
  - unfold HuddleHandlers.leave_huddle.
    pose proof (leaveHuddle_participants huddleId (SocketIo.userId socket) (SocketIo.db w))
      as Hparts.
    destruct (HuddleService.leaveHuddle _ _ _) as [[[]|e] db']; [|discriminate].
    simpl in *. split.
    + unfold active_rows. rewrite Hparts. clear Hparts.
      induction (huddleParticipants (SocketIo.db w)) as [|p l IH]; [done|].
      rewrite fmap_cons, filter_cons_False; [exact IH|].
      destruct (HuddleService.active_as _ _ p) eqn:Hp.
      * unfold HuddleService.active_as, HuddleService.set_leftAt. simpl.
        rewrite bool_decide_eq_false_2; [done|]. by intros (_ & _ & ?).
      * congruence.
    + intros s Hs Hroom Hne. unfold SocketIo.socket_to. apply elem_of_deliver.
      split; [done|]. exists s. split; [|done].
      apply list_elem_of_filter. split.
      * apply andb_true_iff. unfold SocketIo.in_room, SocketIo.is_not.
        split; by apply bool_decide_eq_true.
      * unfold SocketIo.socket_leave. apply list_elem_of_fmap. exists s.
        split; [|done]. by rewrite bool_decide_eq_false_2.
Qed.

(** The theorem of C9 at bob's explicit leave of huddle c0: his row is no
    longer active and alice's socket receives user-left-huddle. *)
Lemma C9_witness :
  is_ok (HuddleService.leaveHuddle "c0" "bob" (SocketIo.db Fixture.w_huddle)).1 = true
  ∧ SocketIo.io Fixture.w_huddle !! 0
    = Some (SocketIo.mkSocket "s1" "alice" "alice"
                     ({[HuddleHandlers.room_of "c0"]}
                      ∪ ({["general"]} ∪ ({["alice"]} ∪ {["s1"]}))))
  ∧ active_rows "c0" "bob" (SocketIo.db Fixture.w_huddle)
    = [mkHuddleParticipant "c2" "c0" "bob" 100 None false false]
  ∧ active_rows "c0" "bob"
      (SocketIo.db (HuddleHandlers.leave_huddle Fixture.s2 "c0" Fixture.w_huddle).1) = []
  ∧ ("s1", SocketIo.user_left_huddle "c0" "bob")
    ∈ (HuddleHandlers.leave_huddle Fixture.s2 "c0" Fixture.w_huddle).2.
Proof.
  assert (is_ok (HuddleService.leaveHuddle "c0" "bob" (SocketIo.db Fixture.w_huddle)).1
          = true) as Hok by (vm_compute; reflexivity).
  pose proof (C9_disconnect_performs_no_implicit_leave Fixture.s2 "c0" Fixture.w_huddle Hok)
    as [_ [Hrows Hev]].
  assert (SocketIo.io Fixture.w_huddle !! 0
          = Some (SocketIo.mkSocket "s1" "alice" "alice"
                           ({[HuddleHandlers.room_of "c0"]}
                            ∪ ({["general"]} ∪ ({["alice"]} ∪ {["s1"]})))))
    as Hs1 by (vm_compute; reflexivity).
  split_and!; [exact Hok | exact Hs1 | vm_compute; reflexivity | exact Hrows |].
  apply (Hev _ (list_elem_of_lookup_2 _ _ _ Hs1)).
  - vm_compute. reflexivity.
  - discriminate.
Defined.

(** C9, the claim as stated fails: alice and bob are the active
    participants of huddle c0. bob's socket disconnects without
    leave-huddle: his participant row stays active, and alice's socket
    receives the status change and no user-left-huddle. *)
Lemma C9_disconnect_leaves_the_participant_active :
  active_rows "c0" "bob" (SocketIo.db Fixture.w_huddle)
  = [mkHuddleParticipant "c2" "c0" "bob" 100 None false false]
  ∧ active_rows "c0" "bob" (SocketIo.db (Index.on_disconnect Fixture.s2 Fixture.w_huddle).1)
    = [mkHuddleParticipant "c2" "c0" "bob" 100 None false false]
  ∧ (Index.on_disconnect Fixture.s2 Fixture.w_huddle).2
    = [("s1", SocketIo.user_status_changed "bob" "offline");
       ("s3", SocketIo.user_status_changed "bob" "offline")]
  ∧ ("s1", SocketIo.user_left_huddle "c0" "bob")
    ∉ (Index.on_disconnect Fixture.s2 Fixture.w_huddle).2.
Proof.
  split_and!; try (vm_compute; reflexivity).
  intros Hin. by apply on_disconnect_events in Hin.
Qed.

(** C2 (as amended): endHuddle by the creator of a huddle succeeds, sets
    the huddle's status to ended and marks every active participant of the
    huddle as left. joinHuddle does not read the huddle's status: after the
    end, a join by any stored user succeeds and returns an active
    participant row, and the huddle stays ended. The row returned is a
    stored row of that user in that huddle (row ids being a key of the
    store): either the user's old, closed row, reactivated in place with
    audio and video reset, all other rows as they were, or, when the user
    had no row in the huddle, a new row appended to the others. *)
Theorem C2_end_marks_everyone_left_and_later_joins_succeed
    (db : DB) (huddleId userId : string) (h : Huddle) :
  find (λ h, bool_decide (hd_id h = huddleId)) (huddles db) = Some h →
  hd_creatorId h = userId →
  (HuddleService.endHuddle huddleId userId db).1 = Ok ()
  ∧ (∀ h', h' ∈ huddles (HuddleService.endHuddle huddleId userId db).2 →
           hd_id h' = huddleId → hd_status h' = "ended")
  ∧ (∀ p, p ∈ huddleParticipants (HuddleService.endHuddle huddleId userId db).2 →
          hp_huddleId p = huddleId → hp_leftAt p ≠ None)
  ∧ (∀ joiner, joiner ∈ user_id <$> users db →
       ∃ p, (HuddleService.joinHuddle huddleId joiner
               (HuddleService.endHuddle huddleId userId db).2).1 = Ok p
            ∧ hp_leftAt p = None
            ∧ ∀ h', h' ∈ huddles (HuddleService.joinHuddle huddleId joiner
                                    (HuddleService.endHuddle huddleId userId db).2).2 →
                    hd_id h' = huddleId → hd_status h' = "ended")
  ∧ (∀ joiner, joiner ∈ user_id <$> users db →
       NoDup (hp_id <$> huddleParticipants db) →
       let ended := (HuddleService.endHuddle huddleId userId db).2 in
       let joined := HuddleService.joinHuddle huddleId joiner ended in
       ∃ p, joined.1 = Ok p
            ∧ hp_huddleId p = huddleId ∧ hp_userId p = joiner ∧ hp_leftAt p = None
            ∧ p ∈ huddleParticipants joined.2
            ∧ ((∃ old, old ∈ huddleParticipants ended
                       ∧ hp_huddleId old = huddleId ∧ hp_userId old = joiner
                       ∧ hp_leftAt old ≠ None
                       ∧ p = mkHuddleParticipant (hp_id old) huddleId joiner (now db) None
                                                 false false
                       ∧ huddleParticipants joined.2
                         = (λ q, if bool_decide (hp_id q = hp_id old) then p else q)
                             <$> huddleParticipants ended)
               ∨ ((∀ q, q ∈ huddleParticipants ended →
                        ¬ (hp_huddleId q = huddleId ∧ hp_userId q = joiner))
                  ∧ huddleParticipants joined.2 = huddleParticipants ended ++ [p]))).
Proof.
  intros Hfind Hcreator.
  rewrite (endHuddle_by_creator _ _ _ _ Hfind Hcreator). simpl.
  set (ended :=
         mkDB (users db) (channels db) (channelMembers db) (directMessages db)
              (messages db) (reactions db)
              ((λ h0, if bool_decide (hd_id h0 = huddleId)
                      then HuddleService.set_ended (now db) h0 else h0)
                 <$> huddles db)
              ((λ p, if HuddleService.active_in huddleId p
                     then HuddleService.set_leftAt (Some (now db)) p else p)
                 <$> huddleParticipants db)
              (nextId db) (now db)).
  assert (∀ h', h' ∈ huddles ended → hd_id h' = huddleId → hd_status h' = "ended")
    as Hended.
  { intros h' Hin Hid. apply list_elem_of_fmap in Hin as (h0 & -> & _).
    destruct (bool_decide (hd_id h0 = huddleId)) eqn:Hdec; [done|].
    apply bool_decide_eq_false in Hdec. by destruct Hdec. }
  assert (∀ p, p ∈ huddleParticipants ended → hp_huddleId p = huddleId →
               hp_leftAt p ≠ None) as Hclosed.
  { intros p Hin Hid. apply list_elem_of_fmap in Hin as (p0 & -> & _).
    destruct (HuddleService.active_in huddleId p0) eqn:Hact; [done|].
    intros Hleft. unfold HuddleService.active_in in Hact.
    apply bool_decide_eq_false in Hact. by destruct Hact. }
  assert (huddleId ∈ hd_id <$> huddles ended) as Hstored.
  { simpl. rewrite hd_id_update by done. by eapply find_id_elem_of. }
  split_and!; [done | exact Hended | exact Hclosed | |].
  - intros joiner Hjoiner.
    destruct (joinHuddle_any_status huddleId joiner ended Hstored Hjoiner)
      as (p & Hok & Hleft & Hsame).
    exists p. split_and!; [exact Hok | exact Hleft |].
    rewrite Hsame. exact Hended.
  - intros joiner Hjoiner Hkey.
    assert (NoDup (hp_id <$> huddleParticipants ended)) as Hkey'.
    { simpl. rewrite <- list_fmap_compose.
      erewrite list_fmap_ext; [exact Hkey|].
      intros _ q _. simpl. by destruct (HuddleService.active_in huddleId q). }
    destruct (joinHuddle_stored huddleId joiner ended Hstored Hjoiner Hkey')
      as [(p & Hp & Hleft & _)|[(p & Hp & Hleft & ->)|(Hp & ->)]].
    + apply find_some in Hp as [Hin Hpair]. apply list_elem_of_In in Hin.
      apply bool_decide_eq_true in Hpair as [Hph _].
      by destruct (Hclosed p Hin Hph).
    + pose proof Hp as Hp'. apply find_some in Hp' as [Hin Hpair].
      apply list_elem_of_In in Hin. apply bool_decide_eq_true in Hpair as [Hph Hpu].
      exists (HuddleService.rejoin (now db) p).
      assert (HuddleService.rejoin (now ended) p
              = mkHuddleParticipant (hp_id p) huddleId joiner (now db) None false false)
        as Hrow by (unfold HuddleService.rejoin; by rewrite Hph, Hpu).
      cbn [fst snd huddleParticipants]. split_and!; try done.
      * apply list_elem_of_fmap. exists p. split; [|exact Hin].
        by rewrite bool_decide_eq_true_2.
      * left. exists p. split_and!; try done.
        apply list_fmap_ext. intros i q Hq. simpl.
        destruct (bool_decide (hp_id q = hp_id p)) eqn:Hdec; [|done].
        apply bool_decide_eq_true in Hdec.
        apply list_elem_of_lookup_2 in Hq.
        pose proof (find_key_NoDup hp_id _ q Hkey' Hq) as Hq1.
        pose proof (find_key_NoDup hp_id _ p Hkey' Hin) as Hp1.
        rewrite Hdec in Hq1. rewrite Hq1 in Hp1. by injection Hp1 as ->.
    + eexists. cbn [fst snd huddleParticipants]. split_and!; try done.
      * apply elem_of_app. right. left.
      * right. split; [|done].
        intros q Hq Hpair. apply list_elem_of_In in Hq.
        eapply find_none in Hp; [|exact Hq].
        by rewrite bool_decide_eq_true_2 in Hp.
Qed.

(** The theorem of C2 at huddle c0, ended by alice and rejoined by bob:
    bob gets his row c2 back, active, and no row is added. *)
Lemma C2_witness :
  find (λ h, bool_decide (hd_id h = "c0")) (huddles (SocketIo.db Fixture.w_huddle))
  = Some (mkHuddle "c0" None (Some "general") "alice" "active" None)
  ∧ "bob" ∈ user_id <$> users (SocketIo.db Fixture.w_huddle)
  ∧ NoDup (hp_id <$> huddleParticipants (SocketIo.db Fixture.w_huddle))
  ∧ (HuddleService.endHuddle "c0" "alice" (SocketIo.db Fixture.w_huddle)).1 = Ok ()
  ∧ (∀ p, p ∈ huddleParticipants
                (HuddleService.endHuddle "c0" "alice" (SocketIo.db Fixture.w_huddle)).2 →
          hp_huddleId p = "c0" → hp_leftAt p ≠ None)
  ∧ ∃ p, (HuddleService.joinHuddle "c0" "bob"
            (HuddleService.endHuddle "c0" "alice" (SocketIo.db Fixture.w_huddle)).2).1 = Ok p
         ∧ hp_huddleId p = "c0" ∧ hp_userId p = "bob" ∧ hp_leftAt p = None
         ∧ p ∈ huddleParticipants
                 (HuddleService.joinHuddle "c0" "bob"
                    (HuddleService.endHuddle "c0" "alice"
                                             (SocketIo.db Fixture.w_huddle)).2).2.
Proof.
  assert (find (λ h, bool_decide (hd_id h = "c0")) (huddles (SocketIo.db Fixture.w_huddle))
          = Some (mkHuddle "c0" None (Some "general") "alice" "active" None)) as Hfind
      by (vm_compute; reflexivity).
  assert ("bob" ∈ user_id <$> users (SocketIo.db Fixture.w_huddle)) as Hbob
      by (apply (list_elem_of_lookup_2 _ 1); reflexivity).
  assert (NoDup (hp_id <$> huddleParticipants (SocketIo.db Fixture.w_huddle))) as Hkey.
  { change (hp_id <$> huddleParticipants (SocketIo.db Fixture.w_huddle))
      with ["c1"; "c2"].
    apply NoDup_cons. split; [|apply NoDup_singleton].
    intros Hin. apply list_elem_of_singleton in Hin. discriminate Hin. }
  pose proof (C2_end_marks_everyone_left_and_later_joins_succeed
                (SocketIo.db Fixture.w_huddle) "c0" "alice" _ Hfind eq_refl)
    as (Hok & _ & Hleft & _ & Hjoin).
  split_and!; [exact Hfind | exact Hbob | exact Hkey | exact Hok | exact Hleft |].
  destruct (Hjoin "bob" Hbob Hkey) as (p & Hp & Hh & Hu & Hnone & Hin & _).
  exists p. split_and!; [exact Hp | exact Hh | exact Hu | exact Hnone | exact Hin].
Defined.

(** C2, the claim as stated fails: alice has ended huddle c0, all
    participants are marked as left. bob then sends join-huddle for c0: the
    service call succeeds, his row is active again in the ended huddle, and
    his socket receives the roster, not an error. *)
Lemma C2_join_of_an_ended_huddle_succeeds :
  hd_status <$> huddles (SocketIo.db Fixture.w_ended) = ["ended"]
  ∧ hp_leftAt <$> huddleParticipants (SocketIo.db Fixture.w_ended) = [Some 100; Some 100]
  ∧ HuddleService.joinHuddle "c0" "bob" (SocketIo.db Fixture.w_ended)
    = (Ok (mkHuddleParticipant "c2" "c0" "bob" 100 None false false),
       SocketIo.db (HuddleHandlers.join_huddle Fixture.s2 "c0" Fixture.w_ended).1)
  ∧ hd_status <$> huddles (SocketIo.db (HuddleHandlers.join_huddle Fixture.s2 "c0"
                                                                     Fixture.w_ended).1)
    = ["ended"]
  ∧ (HuddleHandlers.join_huddle Fixture.s2 "c0" Fixture.w_ended).2
    = [("s2", SocketIo.huddle_participants
                "c0" [mkHuddleParticipant "c2" "c0" "bob" 100 None false false])].
Proof. split_and!; vm_compute; reflexivity. Qed.

(** * Further properties of the code *)

(** ** Sending *)

Section Sending.
Import SocketIo MessageService MessageHandlers.

Lemma elem_of_io_to (io : list Socket) (room : string) (ev : Event) (sid : string)
    (ev' : Event) :
  (sid, ev') ∈ io_to io room ev ↔ ev' = ev ∧ ∃ s, s ∈ io ∧ id s = sid ∧ room ∈ rooms s.
Proof.
  unfold io_to. rewrite elem_of_deliver. split; intros [-> (s & Hs & Hid)].
  - apply list_elem_of_filter in Hs as [Hroom Hs].
    apply bool_decide_eq_true in Hroom. eauto.
  - split; [done|]. destruct Hid as [Hid Hroom]. exists s. split; [|done].
    apply list_elem_of_filter. split; [|done]. by apply bool_decide_eq_true.
Qed.

Lemma message_create_ok content userId channelId dmId threadId type db :
  Prisma.text_ok content = true → Prisma.text_ok type = true →
  userId ∈ user_id <$> users db →
  Prisma.fk_opt channelId (channels db) = true →
  Prisma.fk_opt dmId (dm_id <$> directMessages db) = true →
  Prisma.fk_opt threadId (msg_id <$> messages db) = true →
  Prisma.message_create content userId channelId dmId threadId type db
  = (Ok (mkMessage (cuid (nextId db)) content type channelId dmId userId threadId false),
     mkDB (users db) (channels db) (channelMembers db) (directMessages db)
          (messages db
           ++ [mkMessage (cuid (nextId db)) content type channelId dmId userId threadId false])
          (reactions db) (huddles db) (huddleParticipants db) (S (nextId db)) (now db)).
Proof.
  intros Hcontent Htype Hu Hc Hd Ht. unfold Prisma.message_create, Prisma.fk. unfold_M.
  rewrite Hcontent, Htype. simpl.
  rewrite bool_decide_eq_true_2 by done. rewrite Hc, Hd, Ht. reflexivity.
Qed.

(** send-message to a channel by a stored user, written out. *)
Lemma send_message_channel_stored (socket : Socket) (content c : string)
    (dm : option string) (w : World) :
  Prisma.text_ok content = true →
  SocketIo.userId socket ∈ user_id <$> users (db w) →
  c ≠ "" → c ∈ channels (db w) → Js.truthy dm = false →
  let m := mkMessage (cuid (nextId (db w))) content "text" (Some c) None (SocketIo.userId socket)
                     None false in
  send_message socket (mkSendMessageData content (Some c) dm None) w
  = (mkWorld (mkDB (users (db w)) (channels (db w)) (channelMembers (db w))
                   (directMessages (db w)) (messages (db w) ++ [m]) (reactions (db w))
                   (huddles (db w)) (huddleParticipants (db w)) (S (nextId (db w)))
                   (now (db w)))
             (io w),
     io_to (io w) c (new_message m)).
Proof.
  intros Htext Hu Hne Hc Hdm m. subst m.
  unfold MessageHandlers.send_message, createMessage, findOrCreateDm. simpl. rewrite Hdm. unfold_M.
  rewrite message_create_ok; simpl; try done.
  - by rewrite bool_decide_eq_true_2.
  - unfold Prisma.fk. by apply bool_decide_eq_true.
Qed.

End Sending.

(** X1: a stored user can post to any existing channel, member of it or not.
    When the body is a text the store accepts (well-formed, without the
    character U+0000), the message is stored with the body as sent and is
    emitted as new-message to exactly the sockets that are in the channel's
    room. *)
Theorem send_message_to_a_channel_needs_no_membership
    (socket : SocketIo.Socket) (content c : string) (dm : option string)
    (w : SocketIo.World) :
  Prisma.text_ok content = true →
  SocketIo.userId socket ∈ user_id <$> users (SocketIo.db w) →
  c ≠ "" → c ∈ channels (SocketIo.db w) → Js.truthy dm = false →
  let m := mkMessage (cuid (nextId (SocketIo.db w))) content "text" (Some c) None
                     (SocketIo.userId socket) None false in
  let r := MessageHandlers.send_message
             socket (MessageHandlers.mkSendMessageData content (Some c) dm None) w in
  messages (SocketIo.db r.1) = messages (SocketIo.db w) ++ [m]
  ∧ SocketIo.io r.1 = SocketIo.io w
  ∧ ∀ sid ev, (sid, ev) ∈ r.2
              ↔ ev = SocketIo.new_message m
                ∧ ∃ s, s ∈ SocketIo.io w ∧ SocketIo.id s = sid ∧ c ∈ SocketIo.rooms s.
Proof.
  intros Htext Hu Hne Hc Hdm m r. subst r m.
  rewrite (send_message_channel_stored socket content c dm w Htext Hu Hne Hc Hdm). simpl.
  split_and!; try done. intros sid ev. apply elem_of_io_to.
Qed.

(** X1 at carol, who is not a member of general. *)
Lemma send_message_to_a_channel_needs_no_membership_witness :
  Prisma.text_ok "hi" = true
  ∧ SocketIo.userId Fixture.s3 ∈ user_id <$> users (SocketIo.db Fixture.w0)
  ∧ "general" ≠ "" ∧ "general" ∈ channels (SocketIo.db Fixture.w0)
  ∧ MessageService.canUserAccessChannel "carol" "general" (SocketIo.db Fixture.w0)
    = (Ok false, SocketIo.db Fixture.w0)
  ∧ messages (SocketIo.db (MessageHandlers.send_message
                             Fixture.s3
                             (MessageHandlers.mkSendMessageData "hi" (Some "general") None None)
                             Fixture.w0).1)
    = [mkMessage "c0" "hi" "text" (Some "general") None "carol" None false].
Proof.
  assert (SocketIo.userId Fixture.s3 ∈ user_id <$> users (SocketIo.db Fixture.w0)) as Hu
      by (apply (list_elem_of_lookup_2 _ 2); reflexivity).
  assert ("general" ∈ channels (SocketIo.db Fixture.w0)) as Hc
      by (apply (list_elem_of_lookup_2 _ 0); reflexivity).
  split_and!; [reflexivity | exact Hu | done | exact Hc | vm_compute; reflexivity |].
  exact (proj1 (send_message_to_a_channel_needs_no_membership
                  Fixture.s3 "hi" "general" None Fixture.w0 eq_refl Hu ltac:(done) Hc
                  eq_refl)).
Defined.

Section Conversations.
Import MessageService.

Lemma dm_between_sym (a b : string) (d : DirectMessage) :
  Prisma.dm_between a b d = Prisma.dm_between b a d.
Proof. unfold Prisma.dm_between. apply orb_comm. Qed.

Lemma find_ext {A} (f g : A → bool) (l : list A) :
  (∀ x, f x = g x) → find f l = find g l.
Proof. intros Hfg. induction l as [|x l IH]; simpl; [done|]. by rewrite Hfg, IH. Qed.

Lemma find_app_None {A} (f : A → bool) (l : list A) (x : A) :
  find f l = None → f x = true → find f (l ++ [x]) = Some x.
Proof.
  intros Hnone Hx. induction l as [|y l IH]; simpl in *; [by rewrite Hx|].
  destruct (f y); [done|]. auto.
Qed.

Lemma dm_ordered_absent (a b : string) (l : list DirectMessage) :
  find (Prisma.dm_between a b) l = None →
  existsb (λ d, bool_decide (dm_user1Id d = a ∧ dm_user2Id d = b)) l = false.
Proof.
  intros Hnone. apply existsb_find_None.
  induction l as [|d l IH]; simpl in *; [done|].
  unfold Prisma.dm_between in Hnone at 1.
  destruct (bool_decide (dm_user1Id d = a ∧ dm_user2Id d = b)); simpl in *; [done|].
  destruct (bool_decide _) in Hnone; [done|]. auto.
Qed.

(** What the find-or-create returns and leaves behind, for two stored
    users. *)
Lemma findOrCreateDm_stored (data : CreateMessageData) (db : DB) :
  Js.truthy (dmUserId data) = true →
  Prisma.text_ok (userId data) = true →
  Prisma.text_ok (default "" (dmUserId data)) = true →
  userId data ∈ user_id <$> users db →
  default "" (dmUserId data) ∈ user_id <$> users db →
  ∃ d db',
    findOrCreateDm data db = (Ok (Some (dm_id d)), db')
    ∧ find (Prisma.dm_between (userId data) (default "" (dmUserId data)))
           (directMessages db') = Some d
    ∧ users db' = users db ∧ channels db' = channels db ∧ messages db' = messages db
    ∧ (directMessages db' = directMessages db
       ∨ (find (Prisma.dm_between (userId data) (default "" (dmUserId data)))
               (directMessages db) = None
          ∧ d = mkDirectMessage (cuid (nextId db)) (userId data)
                                (default "" (dmUserId data))
          ∧ directMessages db' = directMessages db ++ [d])).
Proof.
  intros Hdm Ht1 Ht2 Hu1 Hu2. unfold findOrCreateDm. rewrite Hdm.
  unfold Prisma.directMessage_findFirst, Prisma.directMessage_create, Prisma.fk. unfold_M.
  rewrite Ht1, Ht2. simpl.
  destruct (find _ (directMessages db)) as [d|] eqn:Hfind.
  - exists d, db. split_and!; try done. by left.
  - rewrite !bool_decide_eq_true_2 by done. simpl.
    rewrite (dm_ordered_absent _ _ _ Hfind). simpl.
    exists (mkDirectMessage (cuid (nextId db)) (userId data) (default "" (dmUserId data))).
    eexists. split; [reflexivity|]. simpl. split_and!; try done.
    + apply find_app_None; [done|].
      unfold Prisma.dm_between. simpl. by rewrite bool_decide_eq_true_2.
    + right. done.
Qed.

(** With the conversation on record, the find-or-create returns it, or
    the store refuses the lookup; it writes nothing. *)
Lemma findOrCreateDm_found (data : CreateMessageData) (db : DB) (d : DirectMessage) :
  Js.truthy (dmUserId data) = true →
  find (Prisma.dm_between (userId data) (default "" (dmUserId data))) (directMessages db)
  = Some d →
  findOrCreateDm data db = (Ok (Some (dm_id d)), db)
  ∨ findOrCreateDm data db = (Throw Prisma.refused_text, db).
Proof.
  intros Hdm Hfind. unfold findOrCreateDm. rewrite Hdm.
  unfold Prisma.directMessage_findFirst. unfold_M.
  destruct (Prisma.text_ok _ && Prisma.text_ok _); simpl; [left|by right].
  by rewrite Hfind.
Qed.

Lemma createMessage_dm_found (data : CreateMessageData) (db : DB) (d : DirectMessage) :
  Js.truthy (dmUserId data) = true →
  find (Prisma.dm_between (userId data) (default "" (dmUserId data))) (directMessages db)
  = Some d →
  directMessages (createMessage data db).2 = directMessages db
  ∧ ∀ m, (createMessage data db).1 = Ok m → msg_dmId m = Some (dm_id d).
Proof.
  intros Hdm Hfind. unfold createMessage. unfold_M.
  destruct (findOrCreateDm_found _ _ _ Hdm Hfind) as [-> | ->]; [|done].
  pose proof (message_create_directMessages (content data) (userId data) (channelId data)
                (Some (dm_id d)) (threadId data) (Js.or_else (type data) "text") db) as Hdms.
  unfold Prisma.message_create in *. unfold_M.
  destruct (Prisma.text_ok _ && Prisma.text_ok _); simpl in *; [|done].
  destruct (_ && _); simpl in *; [|done].
  split; [done|]. by intros m [= <-].
Qed.

End Conversations.

(** X2: a direct message between two stored users, whose body and user ids
    are texts the store accepts (well-formed, without the character U+0000),
    is stored as a text message of the sender, outside any channel and
    thread, under the first conversation record of the pair: the one the
    store already had, or, when it had none, a new record of sender and
    recipient that is appended. It is emitted as new-message to the sockets
    in the personal room of the sender or of the recipient, and to no other
    socket. *)
Theorem send_direct_message_reaches_both_personal_rooms
    (socket : SocketIo.Socket) (content other : string) (w : SocketIo.World) :
  Prisma.text_ok content = true →
  Prisma.text_ok (SocketIo.userId socket) = true →
  Prisma.text_ok other = true →
  SocketIo.userId socket ∈ user_id <$> users (SocketIo.db w) →
  other ∈ user_id <$> users (SocketIo.db w) →
  other ≠ "" →
  let r := MessageHandlers.send_message
             socket (MessageHandlers.mkSendMessageData content None (Some other) None) w in
  ∃ m d,
    messages (SocketIo.db r.1) = messages (SocketIo.db w) ++ [m]
    ∧ msg_content m = content ∧ msg_userId m = SocketIo.userId socket
    ∧ msg_channelId m = None ∧ msg_dmId m = Some (dm_id d)
    ∧ msg_type m = "text" ∧ msg_threadId m = None ∧ msg_edited m = false
    ∧ find (Prisma.dm_between (SocketIo.userId socket) other)
           (directMessages (SocketIo.db r.1)) = Some d
    ∧ (directMessages (SocketIo.db r.1) = directMessages (SocketIo.db w)
       ∨ (find (Prisma.dm_between (SocketIo.userId socket) other)
               (directMessages (SocketIo.db w)) = None
          ∧ d = mkDirectMessage (cuid (nextId (SocketIo.db w))) (SocketIo.userId socket)
                                other
          ∧ directMessages (SocketIo.db r.1) = directMessages (SocketIo.db w) ++ [d]))
    ∧ ∀ sid ev, (sid, ev) ∈ r.2
                ↔ ev = SocketIo.new_message m
                  ∧ ∃ s, s ∈ SocketIo.io w ∧ SocketIo.id s = sid
                         ∧ (SocketIo.userId socket ∈ SocketIo.rooms s
                            ∨ other ∈ SocketIo.rooms s).
Proof.
  intros Htext Ht1 Ht2 Hu1 Hu2 Hne r. subst r.
  set (data := MessageService.mkCreateMessageData
                 content (SocketIo.userId socket) None (Some other) None None).
  assert (Js.truthy (MessageService.dmUserId data) = true) as Hdm
      by (simpl; by apply bool_decide_eq_true).
  destruct (findOrCreateDm_stored data (SocketIo.db w) Hdm Ht1 Ht2 Hu1 Hu2)
    as (d & db' & Hfoc & Hfind & Hus & Hch & Hms & Hdms).
  unfold MessageHandlers.send_message, MessageService.createMessage.
  cbn [MessageHandlers.content MessageHandlers.channelId MessageHandlers.dmUserId
       MessageHandlers.threadId].
  fold data. unfold_M. rewrite Hfoc. simpl.
  pose proof Hfind as Hfind'.
  apply find_some in Hfind as [Hin Hbet]. apply list_elem_of_In in Hin.
  rewrite message_create_ok; simpl.
  - rewrite bool_decide_eq_true_2 by done. simpl.
    exists (mkMessage (cuid (nextId db')) content "text" None (Some (dm_id d))
                      (SocketIo.userId socket) None false), d.
    split_and!; try done.
    + by rewrite Hms.
    + intros sid ev. rewrite elem_of_app, !elem_of_io_to. split.
      * intros [[-> (s & Hs & Hid & Hr)]|[-> (s & Hs & Hid & Hr)]];
          (split; [done|]); exists s; auto.
      * intros [-> (s & Hs & Hid & [Hr|Hr])]; [left|right]; eauto.
  - done.
  - done.
  - by rewrite Hus.
  - done.
  - unfold Prisma.fk. apply bool_decide_eq_true. by apply list_elem_of_fmap_2.
  - done.
Qed.

(** X2 at alice's first message to bob. *)
Lemma send_direct_message_reaches_both_personal_rooms_witness :
  Prisma.text_ok "hi" = true
  ∧ Prisma.text_ok (SocketIo.userId Fixture.s1) = true
  ∧ Prisma.text_ok "bob" = true
  ∧ SocketIo.userId Fixture.s1 ∈ user_id <$> users (SocketIo.db Fixture.w0)
  ∧ "bob" ∈ user_id <$> users (SocketIo.db Fixture.w0)
  ∧ ∃ m d,
      messages (SocketIo.db (MessageHandlers.send_message
                               Fixture.s1
                               (MessageHandlers.mkSendMessageData "hi" None (Some "bob") None)
                               Fixture.w0).1)
      = messages (SocketIo.db Fixture.w0) ++ [m]
      ∧ msg_dmId m = Some (dm_id d).
Proof.
  assert (SocketIo.userId Fixture.s1 ∈ user_id <$> users (SocketIo.db Fixture.w0)) as Hu1
      by (apply (list_elem_of_lookup_2 _ 0); reflexivity).
  assert ("bob" ∈ user_id <$> users (SocketIo.db Fixture.w0)) as Hu2
      by (apply (list_elem_of_lookup_2 _ 1); reflexivity).
  split_and!; [reflexivity | reflexivity | reflexivity | exact Hu1 | exact Hu2 |].
  destruct (send_direct_message_reaches_both_personal_rooms
              Fixture.s1 "hi" "bob" Fixture.w0 eq_refl eq_refl eq_refl Hu1 Hu2 ltac:(done))
    as (m & d & Hm & _ & _ & _ & Hd & _).
  exists m, d. done.
Defined.

(** X3: a send-message that names neither a channel nor a user, with a body
    that is a text the store accepts (well-formed, without the character
    U+0000), is stored all the same, under no channel and no conversation,
    and is emitted to nobody. *)
Theorem send_message_without_target_is_stored_and_not_emitted
    (socket : SocketIo.Socket) (content : string) (dm : option string)
    (w : SocketIo.World) :
  Prisma.text_ok content = true →
  SocketIo.userId socket ∈ user_id <$> users (SocketIo.db w) →
  Js.truthy dm = false →
  MessageHandlers.send_message
    socket (MessageHandlers.mkSendMessageData content None dm None) w
  = (SocketIo.mkWorld
       (mkDB (users (SocketIo.db w)) (channels (SocketIo.db w))
             (channelMembers (SocketIo.db w)) (directMessages (SocketIo.db w))
             (messages (SocketIo.db w)
              ++ [mkMessage (cuid (nextId (SocketIo.db w))) content "text" None None
                            (SocketIo.userId socket) None false])
             (reactions (SocketIo.db w)) (huddles (SocketIo.db w))
             (huddleParticipants (SocketIo.db w)) (S (nextId (SocketIo.db w)))
             (now (SocketIo.db w)))
       (SocketIo.io w),
     []).
Proof.
  intros Htext Hu Hdm.
  unfold MessageHandlers.send_message, MessageService.createMessage,
    MessageService.findOrCreateDm. simpl. rewrite Hdm. unfold_M.
  rewrite message_create_ok; simpl; done.
Qed.

(** X3 at a send by alice with no target at all. *)
Lemma send_message_without_target_is_stored_and_not_emitted_witness :
  Prisma.text_ok "lost" = true
  ∧ SocketIo.userId Fixture.s1 ∈ user_id <$> users (SocketIo.db Fixture.w0)
  ∧ (MessageHandlers.send_message
       Fixture.s1 (MessageHandlers.mkSendMessageData "lost" None None None) Fixture.w0).2
    = [].
Proof.
  assert (SocketIo.userId Fixture.s1 ∈ user_id <$> users (SocketIo.db Fixture.w0)) as Hu
      by (apply (list_elem_of_lookup_2 _ 0); reflexivity).
  split_and!; [reflexivity | exact Hu |].
  by rewrite (send_message_without_target_is_stored_and_not_emitted
                Fixture.s1 "lost" None Fixture.w0 eq_refl Hu eq_refl).
Defined.

Section Reuse.
Import MessageService.

(** A direct message that was created is filed under the first
    conversation record of the pair. *)
Lemma createMessage_dm_recorded (data : CreateMessageData) (db : DB) (m : Message) :
  Js.truthy (dmUserId data) = true →
  (createMessage data db).1 = Ok m →
  ∃ d, find (Prisma.dm_between (userId data) (default "" (dmUserId data)))
            (directMessages (createMessage data db).2) = Some d
       ∧ msg_dmId m = Some (dm_id d).
Proof.
  intros Hdm Hok.
  destruct (find (Prisma.dm_between (userId data) (default "" (dmUserId data)))
                 (directMessages db)) as [d|] eqn:Hfind.
  - destruct (createMessage_dm_found data db d Hdm Hfind) as [Hdms Hid].
    exists d. rewrite Hdms. auto.
  - revert Hok. unfold createMessage, findOrCreateDm. rewrite Hdm.
    unfold Prisma.directMessage_findFirst, Prisma.directMessage_create. unfold_M.
    destruct (Prisma.text_ok _ && Prisma.text_ok _); simpl; [|discriminate].
    rewrite Hfind.
    destruct (_ && _); simpl; [|discriminate].
    destruct (negb _); simpl; [|discriminate].
    set (d := mkDirectMessage _ _ _). set (db1 := mkDB _ _ _ _ _ _ _ _ _ _).
    pose proof (message_create_directMessages (content data) (userId data) (channelId data)
                  (Some (cuid (nextId db))) (threadId data)
                  (Js.or_else (type data) "text") db1) as Hdms.
    unfold Prisma.message_create in *. unfold_M.
    destruct (Prisma.text_ok _ && Prisma.text_ok _); simpl in *; [|discriminate].
    destruct (_ && _); simpl in *; [|discriminate].
    intros [= <-]. exists d. split; [|done].
    apply find_app_None; [done|].
    unfold Prisma.dm_between. simpl. by rewrite bool_decide_eq_true_2.
Qed.

End Reuse.

(** X4: once a direct message between two users has been created, a later
    createMessage between the same two users, in either direction, files
    its message under the same conversation and creates no conversation
    record. *)
Theorem createMessage_reuses_the_conversation_of_the_pair
    (data1 data2 : MessageService.CreateMessageData) (db : DB) (m1 m2 : Message) :
  Js.truthy (MessageService.dmUserId data1) = true →
  Js.truthy (MessageService.dmUserId data2) = true →
  (MessageService.userId data2 = MessageService.userId data1
   ∧ MessageService.dmUserId data2 = MessageService.dmUserId data1)
  ∨ (MessageService.userId data2 = default "" (MessageService.dmUserId data1)
     ∧ MessageService.dmUserId data2 = Some (MessageService.userId data1)) →
  (MessageService.createMessage data1 db).1 = Ok m1 →
  (MessageService.createMessage data2 (MessageService.createMessage data1 db).2).1 = Ok m2 →
  is_Some (msg_dmId m1)
  ∧ msg_dmId m2 = msg_dmId m1
  ∧ directMessages
      (MessageService.createMessage data2 (MessageService.createMessage data1 db).2).2
    = directMessages (MessageService.createMessage data1 db).2.
Proof.
  intros Hdm1 Hdm2 Hpair Hok1 Hok2.
  destruct (createMessage_dm_recorded data1 db m1 Hdm1 Hok1) as (d & Hfind & Hid1).
  assert (find (Prisma.dm_between (MessageService.userId data2)
                                  (default "" (MessageService.dmUserId data2)))
               (directMessages (MessageService.createMessage data1 db).2) = Some d)
    as Hfind2.
  { rewrite <- Hfind. destruct Hpair as [[-> ->]|[-> ->]]; [done|].
    simpl. apply find_ext. intros x. apply dm_between_sym. }
  destruct (createMessage_dm_found data2 _ d Hdm2 Hfind2) as [Hdms Hid2].
  split_and!; [by rewrite Hid1 | by rewrite Hid1, (Hid2 m2 Hok2) | exact Hdms].
Qed.

(** X4 at alice's message to bob followed by bob's answer. *)
Lemma createMessage_reuses_the_conversation_of_the_pair_witness :
  (MessageService.createMessage Fixture.aliceToBob Fixture.db0).1
  = Ok (mkMessage "c1" "hi bob" "text" None (Some "c0") "alice" None false)
  ∧ (MessageService.createMessage
       Fixture.bobToAlice (MessageService.createMessage Fixture.aliceToBob Fixture.db0).2).1
    = Ok (mkMessage "c2" "hi alice" "text" None (Some "c0") "bob" None false)
  ∧ directMessages
      (MessageService.createMessage
         Fixture.bobToAlice (MessageService.createMessage Fixture.aliceToBob Fixture.db0).2).2
    = directMessages (MessageService.createMessage Fixture.aliceToBob Fixture.db0).2.
Proof.
  assert ((MessageService.createMessage Fixture.aliceToBob Fixture.db0).1
          = Ok (mkMessage "c1" "hi bob" "text" None (Some "c0") "alice" None false)) as H1
      by (vm_compute; reflexivity).
  assert ((MessageService.createMessage
             Fixture.bobToAlice
             (MessageService.createMessage Fixture.aliceToBob Fixture.db0).2).1
          = Ok (mkMessage "c2" "hi alice" "text" None (Some "c0") "bob" None false)) as H2
      by (vm_compute; reflexivity).
  split_and!; [exact H1 | exact H2 |].
  exact (proj2 (proj2 (createMessage_reuses_the_conversation_of_the_pair
                         Fixture.aliceToBob Fixture.bobToAlice Fixture.db0 _ _
                         eq_refl eq_refl (or_intror (conj eq_refl eq_refl)) H1 H2))).
Defined.

(** ** Editing, deleting and reading messages *)

Section Messages.
Import SocketIo MessageService.

Lemma elem_of_wire_io_to {E} (io : list Socket) (room : string) (ev ev' : E) (sid : string) :
  (sid, ev') ∈ Wire.io_to io room ev
  ↔ ev' = ev ∧ ∃ s, s ∈ io ∧ id s = sid ∧ room ∈ rooms s.
Proof.
  unfold Wire.io_to, Wire.deliver. rewrite list_elem_of_fmap. split.
  - intros (s & [= -> ->] & Hs). apply list_elem_of_filter in Hs as [Hroom Hs].
    apply bool_decide_eq_true in Hroom. eauto.
  - intros (-> & s & Hs & <- & Hroom). exists s. split; [done|].
    apply list_elem_of_filter. split; [|done]. by apply bool_decide_eq_true.
Qed.

Lemma elem_of_wire_socket_to {E} (io : list Socket) (socket : Socket) (room : string)
    (ev ev' : E) (sid : string) :
  (sid, ev') ∈ Wire.socket_to io socket room ev
  ↔ ev' = ev ∧ ∃ s, s ∈ io ∧ id s = sid ∧ room ∈ rooms s ∧ id s ≠ id socket.
Proof.
  unfold Wire.socket_to, Wire.deliver. rewrite list_elem_of_fmap. split.
  - intros (s & [= -> ->] & Hs). apply list_elem_of_filter in Hs as [Hp Hs].
    apply andb_true_iff in Hp as [Hroom Hnot].
    apply bool_decide_eq_true in Hroom. apply bool_decide_eq_true in Hnot. eauto 6.
  - intros (-> & s & Hs & <- & Hroom & Hnot). exists s. split; [done|].
    apply list_elem_of_filter. split; [|done].
    apply andb_true_iff. split; by apply bool_decide_eq_true.
Qed.

Lemma deleteMessage_refused (messageId userId : string) (db : DB) :
  (∀ m, find (λ m, bool_decide (msg_id m = messageId)) (messages db) = Some m →
        msg_userId m ≠ userId) →
  deleteMessage messageId userId db = (Throw "Failed to delete message", db).
Proof.
  intros Hnot. unfold deleteMessage, Prisma.message_findUnique. unfold_M.
  destruct (find _ (messages db)) as [m|] eqn:Hfind; [|done].
  by rewrite bool_decide_eq_true_2 by (by apply Hnot).
Qed.

Lemma updateMessage_refused (messageId userId content : string) (db : DB) :
  (∀ m, find (λ m, bool_decide (msg_id m = messageId)) (messages db) = Some m →
        msg_userId m ≠ userId) →
  updateMessage messageId userId content db = (Throw "Failed to update message", db).
Proof.
  intros Hnot. unfold updateMessage, Prisma.message_findUnique. unfold_M.
  destruct (find _ (messages db)) as [m|] eqn:Hfind; [|done].
  by rewrite bool_decide_eq_true_2 by (by apply Hnot).
Qed.

Lemma updateMessage_by_author (messageId userId content : string) (m : Message) (db : DB) :
  Prisma.text_ok content = true →
  find (λ m, bool_decide (msg_id m = messageId)) (messages db) = Some m →
  msg_userId m = userId →
  updateMessage messageId userId content db
  = (Ok (set_content content m),
     mkDB (users db) (channels db) (channelMembers db) (directMessages db)
          ((λ x, if bool_decide (msg_id x = messageId) then set_content content x else x)
             <$> messages db)
          (reactions db) (huddles db) (huddleParticipants db) (nextId db) (now db)).
Proof.
  intros Htext Hfind Hauthor. unfold updateMessage, Prisma.message_findUnique,
    Prisma.message_update. unfold_M.
  rewrite Hfind. rewrite bool_decide_eq_false_2 by (intros H; by apply H).
  rewrite Hfind. simpl. by rewrite Htext.
Qed.

Lemma int32_small (n : Z) : (0 ≤ n < 2 ^ 31)%Z → Prisma.int32 n = n.
Proof. intros Hn. unfold Prisma.int32. rewrite Z.mod_small; lia. Qed.

Lemma cursor_params_ok (cursor : option string) :
  (∀ c, cursor = Some c → Prisma.text_ok c = true) →
  forallb Prisma.text_ok (cursor_params cursor) = true.
Proof.
  intros Hc. unfold cursor_params. destruct (Js.truthy cursor); [|done].
  destruct cursor as [c|]; simpl; [|done]. by rewrite (Hc c eq_refl).
Qed.

Lemma limit_in_range (limit : option Z) :
  (∀ n, limit = Some n → (0 ≤ n < 2 ^ 31)%Z) → (0 ≤ default 50 limit < 2 ^ 31)%Z.
Proof. intros Hl. destruct limit as [n|]; simpl; [by apply Hl | lia]. Qed.

(** The newest rows first, for texts the store accepts and a [take] between
    0 and 2^31 - 1. *)
Lemma message_findMany_desc_ok (params : list string) (where_ : Message → bool) (n : Z)
    (db : DB) :
  forallb Prisma.text_ok params = true → (0 ≤ n < 2 ^ 31)%Z →
  Prisma.message_findMany_desc params where_ n db
  = (Ok (take (Z.to_nat n) (reverse (filter (λ m, where_ m = true) (messages db)))), db).
Proof.
  intros Hparams Hn. unfold Prisma.message_findMany_desc. unfold_M.
  rewrite Hparams. simpl. rewrite (int32_small n Hn).
  by rewrite bool_decide_eq_true_2 by lia.
Qed.

(** getDMMessages only reads. *)
Lemma getDMMessages_reads lt userId otherUserId limit cursor db :
  (getDMMessages lt userId otherUserId limit cursor db).2 = db.
Proof.
  unfold getDMMessages, Prisma.directMessage_findFirst, Prisma.message_findMany_desc.
  unfold_M. destruct (Prisma.text_ok _ && Prisma.text_ok _); simpl; [|done].
  destruct (find _ (directMessages db)); simpl; [|done].
  by destruct (_ && _).
Qed.

(** Its store calls succeed when the texts they bind are texts the store
    accepts and the limit is between 0 and 2^31 - 1. *)
Lemma getDMMessages_ok lt userId otherUserId limit cursor db :
  Prisma.text_ok userId = true → Prisma.text_ok otherUserId = true →
  (∀ d, d ∈ directMessages db → Prisma.text_ok (dm_id d) = true) →
  (∀ c, cursor = Some c → Prisma.text_ok c = true) →
  (∀ n, limit = Some n → (0 ≤ n < 2 ^ 31)%Z) →
  ∃ l, getDMMessages lt userId otherUserId limit cursor db = (Ok l, db).
Proof.
  intros Hu Ho Hids Hcur Hlim. unfold getDMMessages, Prisma.directMessage_findFirst.
  unfold_M. rewrite Hu, Ho. simpl.
  destruct (find _ (directMessages db)) as [d|] eqn:Hfind; simpl; [|eauto].
  apply find_some in Hfind as [Hin _]. apply list_elem_of_In in Hin.
  rewrite message_findMany_desc_ok; simpl; [eauto | | by apply limit_in_range].
  rewrite (Hids d Hin). simpl. by apply cursor_params_ok.
Qed.

End Messages.

(** X5: only its author can edit or delete a message. When the message
    does not exist or belongs to someone else, updateMessage and
    deleteMessage throw and write nothing, and the two listeners answer the
    requesting socket alone with an error event. *)
Theorem edit_and_delete_are_refused_to_anyone_but_the_author
    (lt : string → string → bool) (socket : SocketIo.Socket)
    (messageId content : string) (w : SocketIo.World) :
  (∀ m, find (λ m, bool_decide (msg_id m = messageId)) (messages (SocketIo.db w)) = Some m →
        msg_userId m ≠ SocketIo.userId socket) →
  MessageService.updateMessage messageId (SocketIo.userId socket) content (SocketIo.db w)
  = (Throw "Failed to update message", SocketIo.db w)
  ∧ MessageService.deleteMessage messageId (SocketIo.userId socket) (SocketIo.db w)
    = (Throw "Failed to delete message", SocketIo.db w)
  ∧ MessageEditing.update_message lt socket messageId content w
    = (w, [(SocketIo.id socket, Wire.error "Failed to update message")])
  ∧ MessageHandlers.delete_message socket messageId w
    = (w, [(SocketIo.id socket, SocketIo.error "Failed to delete message")]).
Proof.
  intros Hnot.
  pose proof (updateMessage_refused messageId _ content _ Hnot) as Hupd.
  pose proof (deleteMessage_refused messageId _ _ Hnot) as Hdel.
  split_and!; [exact Hupd | exact Hdel | |].
  - unfold MessageEditing.update_message. rewrite Hupd. by destruct w.
  - unfold MessageHandlers.delete_message. rewrite Hdel. by destruct w.
Qed.

(** X5 at bob's attempt on alice's message c0. *)
Lemma edit_and_delete_are_refused_to_anyone_but_the_author_witness :
  find (λ m, bool_decide (msg_id m = "c0")) (messages (SocketIo.db Fixture.w_msg))
  = Some (mkMessage "c0" "hello" "text" (Some "general") None "alice" None false)
  ∧ MessageHandlers.delete_message Fixture.s2 "c0" Fixture.w_msg
    = (Fixture.w_msg, [("s2", SocketIo.error "Failed to delete message")]).
Proof.
  assert (find (λ m, bool_decide (msg_id m = "c0")) (messages (SocketIo.db Fixture.w_msg))
          = Some (mkMessage "c0" "hello" "text" (Some "general") None "alice" None false))
    as Hfind by (vm_compute; reflexivity).
  split; [exact Hfind|].
  refine (proj2 (proj2 (proj2 (edit_and_delete_are_refused_to_anyone_but_the_author
                                 String.ltb Fixture.s2 "c0" "edited" Fixture.w_msg _)))).
  intros m Hm. rewrite Hfind in Hm. injection Hm as <-. discriminate.
Defined.

(** X6: deleteMessage by the author removes the message and every reaction
    to it; the other messages and their reactions stay, in order, and no
    message keeps the deleted one as thread parent. *)
Theorem deleteMessage_by_the_author_removes_message_and_reactions
    (messageId userId : string) (m : Message) (db : DB) :
  find (λ m, bool_decide (msg_id m = messageId)) (messages db) = Some m →
  msg_userId m = userId →
  (MessageService.deleteMessage messageId userId db).1 = Ok ()
  ∧ msg_id <$> messages (MessageService.deleteMessage messageId userId db).2
    = filter (λ i, i ≠ messageId) (msg_id <$> messages db)
  ∧ (∀ m', m' ∈ messages (MessageService.deleteMessage messageId userId db).2 →
           msg_threadId m' ≠ Some messageId)
  ∧ reactions (MessageService.deleteMessage messageId userId db).2
    = filter (λ r, rx_messageId r ≠ messageId) (reactions db).
Proof.
  intros Hfind Hauthor.
  unfold MessageService.deleteMessage, Prisma.message_delete, Prisma.message_findUnique.
  unfold_M. rewrite Hfind. rewrite bool_decide_eq_false_2 by (intros H; by apply H).
  rewrite Hfind. simpl. split_and!; try done.
  - clear Hfind. induction (messages db) as [|x l IH]; [done|].
    rewrite fmap_cons. destruct (decide (msg_id x = messageId)) as [Heq|Hne].
    + rewrite !filter_cons_False by (intros H; by apply H). exact IH.
    + rewrite !filter_cons_True by done. rewrite !fmap_cons, IH.
      f_equal. unfold Prisma.unthread. by destruct (bool_decide _).
  - intros m' Hin. apply list_elem_of_fmap in Hin as (x & -> & _).
    unfold Prisma.unthread.
    destruct (bool_decide (msg_threadId x = Some messageId)) eqn:Hdec; [done|].
    by apply bool_decide_eq_false in Hdec.
Qed.

(** X6 at alice's deletion of c0, which carries her reaction c1. *)
Lemma deleteMessage_by_the_author_removes_message_and_reactions_witness :
  reactions (SocketIo.db Fixture.w_rx) = [mkReaction "c1" "+1" "c0" "alice"]
  ∧ (MessageService.deleteMessage "c0" "alice" (SocketIo.db Fixture.w_rx)).1 = Ok ()
  ∧ reactions (MessageService.deleteMessage "c0" "alice" (SocketIo.db Fixture.w_rx)).2
    = filter (λ r, rx_messageId r ≠ "c0") (reactions (SocketIo.db Fixture.w_rx)).
Proof.
  split; [vm_compute; reflexivity|].
  pose proof (deleteMessage_by_the_author_removes_message_and_reactions
                "c0" "alice" _ (SocketIo.db Fixture.w_rx)
                ltac:(vm_compute; reflexivity) eq_refl) as (Hok & _ & _ & Hrx).
  split; [exact Hok | exact Hrx].
Defined.

(** X7: updateMessage by the author, with a new body that is a text the
    store accepts (well-formed, without the character U+0000), returns the
    message with the new body and the edited flag set, its id, author,
    channel, conversation and thread unchanged; the stored messages keep
    their ids and order, and a message with another id is left as it was. *)
Theorem updateMessage_by_the_author_edits_that_message_only
    (messageId userId content : string) (m : Message) (db : DB) :
  Prisma.text_ok content = true →
  find (λ m, bool_decide (msg_id m = messageId)) (messages db) = Some m →
  msg_userId m = userId →
  (MessageService.updateMessage messageId userId content db).1
  = Ok (mkMessage messageId content (msg_type m) (msg_channelId m) (msg_dmId m) userId
                  (msg_threadId m) true)
  ∧ msg_id <$> messages (MessageService.updateMessage messageId userId content db).2
    = msg_id <$> messages db
  ∧ (∀ i m', messages db !! i = Some m' → msg_id m' ≠ messageId →
             messages (MessageService.updateMessage messageId userId content db).2 !! i
             = Some m')
  ∧ (∀ m', m' ∈ messages (MessageService.updateMessage messageId userId content db).2 →
           msg_id m' = messageId → msg_content m' = content ∧ msg_edited m' = true)
  ∧ (∀ i m', messages db !! i = Some m' → msg_id m' = messageId →
             messages (MessageService.updateMessage messageId userId content db).2 !! i
             = Some (mkMessage messageId content (msg_type m') (msg_channelId m')
                               (msg_dmId m') (msg_userId m') (msg_threadId m') true)).
Proof.
  intros Htext Hfind Hauthor.
  rewrite (updateMessage_by_author _ _ _ _ _ Htext Hfind Hauthor). simpl.
  apply find_some in Hfind as [_ Hid]. apply bool_decide_eq_true in Hid.
  split_and!.
  - unfold MessageService.set_content. by rewrite Hid, Hauthor.
  - rewrite <- list_fmap_compose. apply list_fmap_ext. intros _ x _. simpl.
    by destruct (bool_decide _).
  - intros i m' Hi Hne. rewrite list_lookup_fmap, Hi. simpl.
    by rewrite bool_decide_eq_false_2.
  - intros m' Hin Hm'. apply list_elem_of_fmap in Hin as (x & -> & _).
    destruct (bool_decide (msg_id x = messageId)) eqn:Hdec; [done|].
    apply bool_decide_eq_false in Hdec. by destruct Hdec.
  - intros i m' Hi Hm'. rewrite list_lookup_fmap, Hi. simpl.
    rewrite bool_decide_eq_true_2 by done.
    unfold MessageService.set_content. by rewrite Hm'.
Qed.

(** X7 at alice's edit of c0. *)
Lemma updateMessage_by_the_author_edits_that_message_only_witness :
  Prisma.text_ok "hello all" = true
  ∧ find (λ m, bool_decide (msg_id m = "c0")) (messages (SocketIo.db Fixture.w_msg))
  = Some (mkMessage "c0" "hello" "text" (Some "general") None "alice" None false)
  ∧ (MessageService.updateMessage "c0" "alice" "hello all" (SocketIo.db Fixture.w_msg)).1
    = Ok (mkMessage "c0" "hello all" "text" (Some "general") None "alice" None true).
Proof.
  assert (find (λ m, bool_decide (msg_id m = "c0")) (messages (SocketIo.db Fixture.w_msg))
          = Some (mkMessage "c0" "hello" "text" (Some "general") None "alice" None false))
    as Hfind by (vm_compute; reflexivity).
  split_and!; [reflexivity | exact Hfind |].
  exact (proj1 (updateMessage_by_the_author_edits_that_message_only
                  "c0" "alice" "hello all" _ (SocketIo.db Fixture.w_msg) eq_refl Hfind
                  eq_refl)).
Defined.

(** X8: an edit by the author, with a new body that is a text the store
    accepts (well-formed, without the character U+0000), leaves the
    connected sockets as they were. For a channel message it is emitted as
    message-updated to the sockets in the channel's room. For a direct
    message, when the author's id, the conversation id and the stored
    conversation ids are texts the store accepts as well, it is emitted to
    the sockets in the author's own personal room and to no other socket:
    the other user of the conversation is not addressed. *)
Theorem update_message_goes_to_the_channel_or_to_the_author_only
    (lt : string → string → bool) (socket : SocketIo.Socket)
    (messageId content : string) (m : Message) (w : SocketIo.World) :
  Prisma.text_ok content = true →
  find (λ m, bool_decide (msg_id m = messageId)) (messages (SocketIo.db w)) = Some m →
  msg_userId m = SocketIo.userId socket →
  let r := MessageEditing.update_message lt socket messageId content w in
  SocketIo.io r.1 = SocketIo.io w
  ∧ (∀ c, msg_channelId m = Some c → c ≠ "" →
          ∀ sid ev, (sid, ev) ∈ r.2
                    ↔ ev = Wire.message_updated (MessageService.set_content content m)
                      ∧ ∃ s, s ∈ SocketIo.io w ∧ SocketIo.id s = sid ∧ c ∈ SocketIo.rooms s)
  ∧ (∀ d, Js.truthy (msg_channelId m) = false → msg_dmId m = Some d → d ≠ "" →
          Prisma.text_ok (SocketIo.userId socket) = true → Prisma.text_ok d = true →
          (∀ x, x ∈ directMessages (SocketIo.db w) → Prisma.text_ok (dm_id x) = true) →
          ∀ sid ev, (sid, ev) ∈ r.2
                    ↔ ev = Wire.message_updated (MessageService.set_content content m)
                      ∧ ∃ s, s ∈ SocketIo.io w ∧ SocketIo.id s = sid
                             ∧ SocketIo.userId socket ∈ SocketIo.rooms s).
Proof.
  intros Htext Hfind Hauthor r. subst r. unfold MessageEditing.update_message.
  rewrite (updateMessage_by_author _ _ _ _ _ Htext Hfind Hauthor).
  set (db1 := mkDB _ _ _ _ _ _ _ _ _ _).
  cbn [msg_channelId msg_dmId MessageService.set_content].
  split_and!.
  - destruct (Js.truthy (msg_channelId m)), (Js.truthy (msg_dmId m)); try done.
    by destruct (MessageService.getDMMessages _ _ _ _ _ _) as [[l|e] db2].
  - intros c Hc Hne sid ev. rewrite Hc. simpl.
    rewrite bool_decide_eq_true_2 by done. simpl. apply elem_of_wire_io_to.
  - intros d Hch Hd Hne Hu Htd Hids sid ev. rewrite Hch, Hd. simpl.
    rewrite bool_decide_eq_true_2 by done.
    destruct (getDMMessages_ok lt (SocketIo.userId socket) d (Some 1%Z) None db1)
      as [l Hl]; try done.
    { intros n [= <-]. lia. }
    rewrite Hl. simpl. apply elem_of_wire_io_to.
Qed.

(** X8 at alice's edit of her direct message to bob: bob's socket s2 is
    connected and receives nothing. *)
Lemma update_message_goes_to_the_channel_or_to_the_author_only_witness :
  Prisma.text_ok "hi bob!" = true
  ∧ find (λ m, bool_decide (msg_id m = "c1")) (messages (SocketIo.db Fixture.w_dm))
  = Some (mkMessage "c1" "hi bob" "text" None (Some "c0") "alice" None false)
  ∧ (MessageEditing.update_message String.ltb Fixture.s1 "c1" "hi bob!" Fixture.w_dm).2
    = [("s1", Wire.message_updated
                (mkMessage "c1" "hi bob!" "text" None (Some "c0") "alice" None true))]
  ∧ ∀ ev, ("s2", ev)
          ∉ (MessageEditing.update_message String.ltb Fixture.s1 "c1" "hi bob!" Fixture.w_dm).2.
Proof.
  assert (find (λ m, bool_decide (msg_id m = "c1")) (messages (SocketIo.db Fixture.w_dm))
          = Some (mkMessage "c1" "hi bob" "text" None (Some "c0") "alice" None false))
    as Hfind by (vm_compute; reflexivity).
  split_and!; [reflexivity | exact Hfind | vm_compute; reflexivity |].
  intros ev Hin.
  destruct (update_message_goes_to_the_channel_or_to_the_author_only
              String.ltb Fixture.s1 "c1" "hi bob!" _ Fixture.w_dm eq_refl Hfind eq_refl)
    as (_ & _ & Hdm).
  assert (∀ x, x ∈ directMessages (SocketIo.db Fixture.w_dm) →
               Prisma.text_ok (dm_id x) = true) as Hids.
  { intros x Hx.
    change (directMessages (SocketIo.db Fixture.w_dm))
      with [mkDirectMessage "c0" "alice" "bob"] in Hx.
    apply list_elem_of_singleton in Hx. by rewrite Hx. }
  apply (Hdm "c0" eq_refl eq_refl ltac:(done) eq_refl eq_refl Hids) in Hin
    as (_ & s & Hs & Hid & Hroom).
  revert Hs Hid Hroom.
  change (SocketIo.io Fixture.w_dm) with (SocketIo.io Fixture.w0).
  intros Hs Hid Hroom. apply list_elem_of_In in Hs. vm_compute in Hs.
  destruct Hs as [<-|[<-|[<-|[]]]]; try discriminate Hid.
  vm_compute in Hroom. discriminate Hroom.
Defined.

Section Reading.
Import MessageService.

Lemma find_elem_of {A} (f : A → bool) (l : list A) (x : A) :
  x ∈ l → f x = true → ∃ y, find f l = Some y.
Proof.
  intros Hin Hx. destruct (find f l) as [y|] eqn:Hfind; [eauto|].
  apply list_elem_of_In in Hin. eapply find_none in Hfind; [|exact Hin]. congruence.
Qed.

Lemma canUserAccessChannel_member (userId channelId : string) (db : DB) :
  mkChannelMember channelId userId ∈ channelMembers db →
  canUserAccessChannel userId channelId db = (Ok true, db).
Proof.
  intros Hin. unfold canUserAccessChannel, Prisma.channelMember_findUnique. unfold_M.
  destruct (find_elem_of
              (λ c, bool_decide (cm_channelId c = channelId ∧ cm_userId c = userId))
              _ _ Hin) as [c Hc]; [by apply bool_decide_eq_true|].
  by rewrite Hc.
Qed.

(** The newest [n] rows of a selection, oldest first. *)
Lemma newest_first_then_reversed {A} (l : list A) (n : nat) :
  reverse (take n (reverse l)) = drop (length l - n) l.
Proof. by rewrite take_reverse, reverse_involutive. Qed.

End Reading.

(** X9: getChannelMessages for a user who has no membership row of the
    channel fails with "Failed to fetch messages" (the access-denied error
    is caught and replaced) and reads no message. *)
Theorem getChannelMessages_is_refused_to_non_members
    (lt : string → string → bool) (channelId userId : string)
    (limit : option Z) (cursor : option string) (db : DB) :
  (∀ c, c ∈ channelMembers db → ¬ (cm_channelId c = channelId ∧ cm_userId c = userId)) →
  MessageService.getChannelMessages lt channelId userId limit cursor db
  = (Throw "Failed to fetch messages", db).
Proof.
  intros Hnot. unfold MessageService.getChannelMessages. unfold_M.
  by rewrite (canUserAccessChannel_non_member _ _ _ Hnot).
Qed.

(** X9 at carol and channel general. *)
Lemma getChannelMessages_is_refused_to_non_members_witness :
  MessageService.getChannelMessages String.ltb "general" "carol" None None
                                    (SocketIo.db Fixture.w_dm)
  = (Throw "Failed to fetch messages", SocketIo.db Fixture.w_dm).
Proof.
  apply getChannelMessages_is_refused_to_non_members.
  intros c Hc [_ Hu].
  change (channelMembers (SocketIo.db Fixture.w_dm))
    with [mkChannelMember "general" "alice"; mkChannelMember "general" "bob"] in Hc.
  apply list_elem_of_In in Hc. simpl in Hc.
  destruct Hc as [<-|[<-|[]]]; discriminate Hu.
Defined.

(** X10: for a member of the channel, an integer limit from 0 to 2^31 - 1
    (50 when no limit is given), and a channel id and a cursor that are
    texts the store accepts (well-formed, without the character U+0000),
    getChannelMessages writes nothing and returns the last [limit] of the
    channel's messages that the cursor admits, in the order in which they
    were stored: at most [limit] messages, all of the channel. Without a
    cursor they are the newest messages of the channel; with a cursor, every
    returned id is below the cursor in the order of the store. *)
Theorem getChannelMessages_returns_the_newest_page_oldest_first
    (lt : string → string → bool) (channelId userId : string)
    (limit : option Z) (cursor : option string) (db : DB) :
  mkChannelMember channelId userId ∈ channelMembers db →
  Prisma.text_ok channelId = true →
  (∀ c, cursor = Some c → Prisma.text_ok c = true) →
  (∀ n, limit = Some n → (0 ≤ n < 2 ^ 31)%Z) →
  ∃ l,
    MessageService.getChannelMessages lt channelId userId limit cursor db = (Ok l, db)
    ∧ l = (let page := filter (λ m, msg_channelId m = Some channelId
                                    ∧ MessageService.before_cursor lt cursor m = true)
                              (messages db) in
           drop (length page - Z.to_nat (default 50%Z limit)) page)
    ∧ length l ≤ Z.to_nat (default 50%Z limit)
    ∧ l `sublist_of` messages db
    ∧ (∀ m, m ∈ l → msg_channelId m = Some channelId)
    ∧ (Js.truthy cursor = false →
       l = drop (length (filter (λ m, msg_channelId m = Some channelId) (messages db))
                 - Z.to_nat (default 50%Z limit))
                (filter (λ m, msg_channelId m = Some channelId) (messages db)))
    ∧ (Js.truthy cursor = true →
       ∀ m, m ∈ l → lt (msg_id m) (default "" cursor) = true).
Proof.
  intros Hmember Htext Hcur Hlim. unfold MessageService.getChannelMessages. unfold_M.
  rewrite (canUserAccessChannel_member _ _ _ Hmember). simpl.
  rewrite message_findMany_desc_ok;
    [| simpl; rewrite Htext; by apply cursor_params_ok | by apply limit_in_range].
  simpl. rewrite newest_first_then_reversed.
  set (P := λ m : Message,
         bool_decide (msg_channelId m = Some channelId)
         && MessageService.before_cursor lt cursor m = true).
  eexists. split; [reflexivity|]. split_and!.
  - simpl.
    rewrite (list_filter_iff P (λ m, msg_channelId m = Some channelId
                                     ∧ MessageService.before_cursor lt cursor m = true));
      [done|].
    intros m. unfold P. by rewrite andb_true_iff, bool_decide_eq_true.
  - rewrite length_drop. lia.
  - etrans; [apply sublist_drop | apply sublist_filter].
  - intros m Hm. apply subseteq_drop in Hm. apply list_elem_of_filter in Hm as [Hm _].
    unfold P in Hm. apply andb_true_iff in Hm as [Hm _]. by apply bool_decide_eq_true in Hm.
  - intros Hnone.
    rewrite (list_filter_iff P (λ m, msg_channelId m = Some channelId)); [done|].
    intros m. unfold P, MessageService.before_cursor. rewrite Hnone, andb_true_r.
    apply bool_decide_eq_true.
  - intros Hsome m Hm. apply subseteq_drop in Hm. apply list_elem_of_filter in Hm as [Hm _].
    unfold P, MessageService.before_cursor in Hm. rewrite Hsome in Hm.
    by apply andb_true_iff in Hm as [_ Hm].
Qed.

(** X10 at alice reading general with a limit of 2: of "one", "two",
    "three" she gets "two" and "three". *)
Lemma getChannelMessages_returns_the_newest_page_oldest_first_witness :
  mkChannelMember "general" "alice" ∈ channelMembers (SocketIo.db Fixture.w_dm)
  ∧ Prisma.text_ok "general" = true
  ∧ (0 ≤ 2 < 2 ^ 31)%Z
  ∧ (msg_content <$> messages (SocketIo.db Fixture.w_dm)) = ["hi bob"; "one"; "two"; "three"]
  ∧ ∃ l, MessageService.getChannelMessages String.ltb "general" "alice" (Some 2%Z) None
                                           (SocketIo.db Fixture.w_dm)
         = (Ok l, SocketIo.db Fixture.w_dm)
         ∧ msg_content <$> l = ["two"; "three"].
Proof.
  assert (mkChannelMember "general" "alice" ∈ channelMembers (SocketIo.db Fixture.w_dm))
    as Hmember by (apply (list_elem_of_lookup_2 _ 0); reflexivity).
  split_and!; [exact Hmember | reflexivity | lia | lia | vm_compute; reflexivity |].
  destruct (getChannelMessages_returns_the_newest_page_oldest_first
              String.ltb "general" "alice" (Some 2%Z) None (SocketIo.db Fixture.w_dm)
              Hmember eq_refl ltac:(discriminate) ltac:(intros n [= <-]; lia))
    as (l & Hl & _ & _ & _ & _ & Hnewest & _).
  exists l. split; [exact Hl|].
  rewrite (Hnewest eq_refl). vm_compute. reflexivity.
Defined.

(** X11: getDMMessages writes nothing and gives the two users of a pair the
    same answer, whichever of them asks. When the two user ids are texts the
    store accepts (well-formed, without the character U+0000), it is the
    empty list if the pair has no conversation record; otherwise, for an
    integer limit from 0 to 2^31 - 1 (50 when no limit is given) and a
    conversation id and a cursor that the store accepts, it is the last
    [limit] of the messages filed under the first conversation record of the
    pair that the cursor admits, in the order in which they were stored. *)
Theorem getDMMessages_is_the_same_from_both_sides
    (lt : string → string → bool) (a b : string)
    (limit : option Z) (cursor : option string) (db : DB) :
  MessageService.getDMMessages lt a b limit cursor db
  = MessageService.getDMMessages lt b a limit cursor db
  ∧ (MessageService.getDMMessages lt a b limit cursor db).2 = db
  ∧ (Prisma.text_ok a = true → Prisma.text_ok b = true → dm_count a b db = 0 →
     MessageService.getDMMessages lt a b limit cursor db = (Ok [], db))
  ∧ (∀ d, Prisma.text_ok a = true → Prisma.text_ok b = true →
          find (Prisma.dm_between a b) (directMessages db) = Some d →
          Prisma.text_ok (dm_id d) = true →
          (∀ c, cursor = Some c → Prisma.text_ok c = true) →
          (∀ n, limit = Some n → (0 ≤ n < 2 ^ 31)%Z) →
          ∃ l, MessageService.getDMMessages lt a b limit cursor db = (Ok l, db)
               ∧ l = (let page :=
                        filter (λ m, msg_dmId m = Some (dm_id d)
                                     ∧ MessageService.before_cursor lt cursor m = true)
                               (messages db) in
                      drop (length page - Z.to_nat (default 50%Z limit)) page)
               ∧ length l ≤ Z.to_nat (default 50%Z limit)
               ∧ l `sublist_of` messages db
               ∧ ∀ m, m ∈ l → msg_dmId m = Some (dm_id d)).
Proof.
  split_and!.
  - unfold MessageService.getDMMessages, Prisma.directMessage_findFirst. unfold_M.
    rewrite (andb_comm (Prisma.text_ok b)).
    by rewrite (find_ext (Prisma.dm_between a b) (Prisma.dm_between b a))
      by (intros x; apply dm_between_sym).
  - apply getDMMessages_reads.
  - intros Ha Hb Hnone. apply count_0_find_None in Hnone.
    unfold MessageService.getDMMessages, Prisma.directMessage_findFirst. unfold_M.
    by rewrite Ha, Hb, Hnone.
  - intros d Ha Hb Hfind Hd Hcur Hlim.
    unfold MessageService.getDMMessages, Prisma.directMessage_findFirst. unfold_M.
    rewrite Ha, Hb, Hfind. simpl.
    rewrite message_findMany_desc_ok;
      [| simpl; rewrite Hd; by apply cursor_params_ok | by apply limit_in_range].
    simpl. rewrite newest_first_then_reversed.
    eexists. split; [reflexivity|]. split_and!.
    + simpl.
      rewrite (list_filter_iff _ (λ m, msg_dmId m = Some (dm_id d)
                                       ∧ MessageService.before_cursor lt cursor m = true));
        [done|].
      intros m. by rewrite andb_true_iff, bool_decide_eq_true.
    + rewrite length_drop. lia.
    + etrans; [apply sublist_drop | apply sublist_filter].
    + intros m Hm. apply subseteq_drop in Hm. apply list_elem_of_filter in Hm as [Hm _].
      apply andb_true_iff in Hm as [Hm _]. by apply bool_decide_eq_true in Hm.
Qed.

(** X11 at bob reading his conversation with alice, which holds her one
    message. *)
Lemma getDMMessages_is_the_same_from_both_sides_witness :
  find (Prisma.dm_between "bob" "alice") (directMessages (SocketIo.db Fixture.w_dm))
  = Some (mkDirectMessage "c0" "alice" "bob")
  ∧ (0 ≤ 1 < 2 ^ 31)%Z
  ∧ MessageService.getDMMessages String.ltb "bob" "alice" (Some 1%Z) None
                                 (SocketIo.db Fixture.w_dm)
    = MessageService.getDMMessages String.ltb "alice" "bob" (Some 1%Z) None
                                   (SocketIo.db Fixture.w_dm)
  ∧ ∃ l, MessageService.getDMMessages String.ltb "bob" "alice" (Some 1%Z) None
                                      (SocketIo.db Fixture.w_dm)
         = (Ok l, SocketIo.db Fixture.w_dm)
         ∧ length l ≤ 1
         ∧ ∀ m, m ∈ l → msg_dmId m = Some "c0".
Proof.
  assert (find (Prisma.dm_between "bob" "alice")
               (directMessages (SocketIo.db Fixture.w_dm))
          = Some (mkDirectMessage "c0" "alice" "bob")) as Hfind
      by (vm_compute; reflexivity).
  destruct (getDMMessages_is_the_same_from_both_sides
              String.ltb "bob" "alice" (Some 1%Z) None (SocketIo.db Fixture.w_dm))
    as (Hsym & _ & _ & Hpage).
  destruct (Hpage _ eq_refl eq_refl Hfind eq_refl ltac:(discriminate)
              ltac:(intros n [= <-]; lia)) as (l & Hl & _ & Hlen & _ & Hdm).
  split_and!; [exact Hfind | lia | lia | exact Hsym |].
  exists l. split_and!; [exact Hl | exact Hlen | exact Hdm].
Defined.

(** ** Reactions, continued *)

Section MoreReactions.
Import MessageService.

Lemma rx_is_other m u e m' u' e' r :
  (m', u', e') ≠ (m, u, e) → Prisma.rx_is m u e r = true → Prisma.rx_is m' u' e' r = false.
Proof.
  intros Hne Hr. destruct (Prisma.rx_is m' u' e' r) eqn:Hr'; [|done].
  destruct (rx_is_inj _ _ _ _ _ _ _ Hr Hr') as (-> & -> & ->). by destruct Hne.
Qed.

Lemma addReaction_other m u e m' u' e' db :
  (m', u', e') ≠ (m, u, e) →
  rx_count m' u' e' (addReaction m u e db).2 = rx_count m' u' e' db.
Proof.
  intros Hne. unfold addReaction, Prisma.reaction_upsert. unfold_M.
  destruct (find _ (reactions db)); [done|].
  destruct (Prisma.text_ok e); simpl; [|done].
  destruct (_ && _); [|done]. simpl.
  unfold rx_count. simpl. rewrite filter_app, length_app.
  rewrite filter_cons_False, filter_nil; [simpl; lia|].
  rewrite (rx_is_other m u e m' u' e'); [done | done |].
  unfold Prisma.rx_is. simpl. by apply bool_decide_eq_true.
Qed.

Lemma removeReaction_other m u e m' u' e' db :
  (m', u', e') ≠ (m, u, e) →
  rx_count m' u' e' (removeReaction m u e db).2 = rx_count m' u' e' db.
Proof.
  intros Hne. unfold removeReaction, Prisma.reaction_delete. unfold_M.
  destruct (existsb _ (reactions db)); [|done]. simpl.
  unfold rx_count. simpl. rewrite list_filter_filter. f_equal.
  apply list_filter_iff. intros r. split; [tauto|]. intros Hr. split; [done|].
  destruct (Prisma.rx_is m u e r) eqn:Hr0; [|done].
  rewrite (rx_is_other m u e m' u' e' r Hne Hr0) in Hr. discriminate.
Qed.

Lemma addReaction_present m u e db :
  is_ok (addReaction m u e db).1 = true → rx_count m u e (addReaction m u e db).2 ≠ 0.
Proof.
  unfold addReaction, Prisma.reaction_upsert. unfold_M.
  destruct (find _ (reactions db)) as [r|] eqn:Hfind.
  - intros _ Hcount. apply count_0_find_None in Hcount. simpl in Hcount. congruence.
  - destruct (Prisma.text_ok e); simpl; [|discriminate].
    destruct (_ && _); [|discriminate]. simpl. intros _.
    unfold rx_count. simpl. rewrite filter_app, length_app.
    rewrite (filter_cons_True _ (mkReaction _ _ _ _)).
    + simpl. lia.
    + unfold Prisma.rx_is. simpl. by apply bool_decide_eq_true.
Qed.

End MoreReactions.

(** X12: a reaction that was added can be removed: after an addReaction
    that succeeded, removeReaction of the same triple succeeds and leaves no
    record of the triple. Adding and removing one triple never changes the
    number of records of any other triple: the reactions of other users, of
    other messages and with other emoji are untouched. *)
Theorem reaction_add_then_remove_touches_that_triple_only
    (messageId userId emoji : string) (db : DB) :
  is_ok (MessageService.addReaction messageId userId emoji db).1 = true →
  let db1 := (MessageService.addReaction messageId userId emoji db).2 in
  let db2 := (MessageService.removeReaction messageId userId emoji db1).2 in
  (MessageService.removeReaction messageId userId emoji db1).1 = Ok ()
  ∧ rx_count messageId userId emoji db2 = 0
  ∧ ∀ m' u' e', (m', u', e') ≠ (messageId, userId, emoji) →
                rx_count m' u' e' db1 = rx_count m' u' e' db
                ∧ rx_count m' u' e' db2 = rx_count m' u' e' db.
Proof.
  intros Hok db1 db2. subst db1 db2.
  destruct (removeReaction_present messageId userId emoji _
              (addReaction_present _ _ _ _ Hok)) as [Hrm Hzero].
  split_and!; [exact Hrm | exact Hzero |].
  intros m' u' e' Hne. split.
  - by apply addReaction_other.
  - rewrite removeReaction_other by done. by apply addReaction_other.
Qed.

(** X12 at bob's +1 on message c0, which alice has already reacted to. *)
Lemma reaction_add_then_remove_touches_that_triple_only_witness :
  is_ok (MessageService.addReaction "c0" "bob" "+1" (SocketIo.db Fixture.w_rx)).1 = true
  ∧ rx_count "c0" "alice" "+1"
      (MessageService.removeReaction
         "c0" "bob" "+1"
         (MessageService.addReaction "c0" "bob" "+1" (SocketIo.db Fixture.w_rx)).2).2
    = rx_count "c0" "alice" "+1" (SocketIo.db Fixture.w_rx)
  ∧ rx_count "c0" "alice" "+1" (SocketIo.db Fixture.w_rx) = 1.
Proof.
  assert (is_ok (MessageService.addReaction "c0" "bob" "+1" (SocketIo.db Fixture.w_rx)).1
          = true) as Hok by (vm_compute; reflexivity).
  split_and!; [exact Hok | | vm_compute; reflexivity].
  destruct (reaction_add_then_remove_touches_that_triple_only
              "c0" "bob" "+1" (SocketIo.db Fixture.w_rx) Hok) as (_ & _ & Hother).
  apply (Hother "c0" "alice" "+1"). discriminate.
Defined.

(** X13: addReaction for a triple that has no record fails, and writes
    nothing, when the message or the user is not in the store; the
    add-reaction listener then answers the requesting socket alone with an
    error event. *)
Theorem addReaction_to_a_missing_message_fails
    (socket : SocketIo.Socket) (messageId emoji : string) (w : SocketIo.World) :
  rx_count messageId (SocketIo.userId socket) emoji (SocketIo.db w) = 0 →
  messageId ∉ msg_id <$> messages (SocketIo.db w)
  ∨ SocketIo.userId socket ∉ user_id <$> users (SocketIo.db w) →
  MessageService.addReaction messageId (SocketIo.userId socket) emoji (SocketIo.db w)
  = (Throw "Failed to add reaction", SocketIo.db w)
  ∧ MessageHandlers.add_reaction socket messageId emoji w
    = (w, [(SocketIo.id socket, SocketIo.error "Failed to add reaction")]).
Proof.
  intros Hnone Hmissing.
  assert (MessageService.addReaction messageId (SocketIo.userId socket) emoji (SocketIo.db w)
          = (Throw "Failed to add reaction", SocketIo.db w)) as Hadd.
  { apply count_0_find_None in Hnone.
    unfold MessageService.addReaction, Prisma.reaction_upsert, Prisma.fk. unfold_M.
    rewrite Hnone.
    destruct (Prisma.text_ok emoji); simpl; [|done].
    destruct Hmissing as [Hm|Hu].
    - by rewrite (bool_decide_eq_false_2 _ Hm).
    - rewrite (bool_decide_eq_false_2 _ Hu). by rewrite andb_false_r. }
  split; [exact Hadd|].
  unfold MessageHandlers.add_reaction. rewrite Hadd. by destruct w.
Qed.

(** X13 at a reaction to an id that names no message. *)
Lemma addReaction_to_a_missing_message_fails_witness :
  MessageHandlers.add_reaction Fixture.s1 "c9" "+1" Fixture.w_msg
  = (Fixture.w_msg, [("s1", SocketIo.error "Failed to add reaction")]).
Proof.
  refine (proj2 (addReaction_to_a_missing_message_fails
                   Fixture.s1 "c9" "+1" Fixture.w_msg _ _)).
  - vm_compute. reflexivity.
  - left. intros Hin. apply list_elem_of_In in Hin. vm_compute in Hin.
    destruct Hin as [Hin|[]]. discriminate Hin.
Defined.

(** ** Rooms *)

Section Rooms.
Import SocketIo MessageHandlers.

Lemma join_channel_member (socket : Socket) (channelId : string) (w : World) :
  mkChannelMember channelId (userId socket) ∈ channelMembers (db w) →
  join_channel socket channelId w
  = (mkWorld (db w) (socket_join socket channelId (io w)), []).
Proof.
  intros Hmember. unfold join_channel.
  by rewrite (canUserAccessChannel_member _ _ _ Hmember).
Qed.

Lemma elem_of_socket_join (socket s : Socket) (room : string) (ss : list Socket) :
  s ∈ ss → id s = id socket →
  with_rooms (union {[room]}) s ∈ socket_join socket room ss.
Proof.
  intros Hs Hid. unfold socket_join. apply list_elem_of_fmap. exists s.
  split; [|done]. by rewrite bool_decide_eq_true_2.
Qed.

Lemma elem_of_socket_leave (socket s' : Socket) (room : string) (ss : list Socket) :
  s' ∈ socket_leave socket room ss → id s' = id socket → room ∉ rooms s'.
Proof.
  unfold socket_leave. intros Hin Hid.
  apply list_elem_of_fmap in Hin as (s & -> & _).
  destruct (bool_decide (id s = id socket)) eqn:Hdec.
  - simpl. rewrite elem_of_difference, elem_of_singleton. tauto.
  - apply bool_decide_eq_false in Hdec. by destruct Hdec.
Qed.

Lemma socket_leave_idemp (socket : Socket) (room : string) (ss : list Socket) :
  socket_leave socket room (socket_leave socket room ss) = socket_leave socket room ss.
Proof.
  unfold socket_leave. rewrite <- list_fmap_compose. apply list_fmap_ext.
  intros _ s _. simpl. destruct (bool_decide (id s = id socket)) eqn:Hdec; simpl.
  - rewrite Hdec. unfold with_rooms. simpl. f_equal.
    apply set_eq. intros x. rewrite !elem_of_difference. tauto.
  - by rewrite Hdec.
Qed.

End Rooms.

(** X14: after join-channel by a member whose socket is connected, a message
    that any stored user sends to the channel, with a body that is a text
    the store accepts (well-formed, without the character U+0000), is
    delivered to that socket. The join itself emits nothing and writes
    nothing. *)
Theorem join_channel_then_channel_messages_arrive
    (socket sender : SocketIo.Socket) (content c : string) (w : SocketIo.World) :
  Prisma.text_ok content = true →
  mkChannelMember c (SocketIo.userId socket) ∈ channelMembers (SocketIo.db w) →
  (∃ s, s ∈ SocketIo.io w ∧ SocketIo.id s = SocketIo.id socket) →
  SocketIo.userId sender ∈ user_id <$> users (SocketIo.db w) →
  c ≠ "" → c ∈ channels (SocketIo.db w) →
  let joined := MessageHandlers.join_channel socket c w in
  joined.2 = []
  ∧ SocketIo.db joined.1 = SocketIo.db w
  ∧ (SocketIo.id socket,
     SocketIo.new_message
       (mkMessage (cuid (nextId (SocketIo.db w))) content "text" (Some c) None
                  (SocketIo.userId sender) None false))
    ∈ (MessageHandlers.send_message
         sender (MessageHandlers.mkSendMessageData content (Some c) None None) joined.1).2.
Proof.
  intros Htext Hmember (s & Hs & Hid) Hsender Hne Hc joined. subst joined.
  rewrite (join_channel_member _ _ _ Hmember). simpl. split_and!; try done.
  rewrite (send_message_channel_stored
             sender content c None
             (SocketIo.mkWorld (SocketIo.db w)
                               (SocketIo.socket_join socket c (SocketIo.io w))))
    by done.
  simpl. apply elem_of_io_to. split; [done|].
  exists (SocketIo.with_rooms (union {[c]}) s). split_and!.
  - by apply elem_of_socket_join.
  - exact Hid.
  - simpl. apply elem_of_union_l. by apply elem_of_singleton.
Qed.

(** X14 at bob joining general from the state where only alice has. *)
Lemma join_channel_then_channel_messages_arrive_witness :
  ("s2", SocketIo.new_message
           (mkMessage "c0" "hello" "text" (Some "general") None "alice" None false))
  ∈ (MessageHandlers.send_message
       Fixture.s1 (MessageHandlers.mkSendMessageData "hello" (Some "general") None None)
       (MessageHandlers.join_channel Fixture.s2 "general" Fixture.w0).1).2.
Proof.
  refine (proj2 (proj2 (join_channel_then_channel_messages_arrive
                          Fixture.s2 Fixture.s1 "hello" "general" Fixture.w0 _ _ _ _ _ _))).
  - reflexivity.
  - apply (list_elem_of_lookup_2 _ 1). reflexivity.
  - eexists. split; [apply (list_elem_of_lookup_2 _ 1); reflexivity | reflexivity].
  - apply (list_elem_of_lookup_2 _ 0). reflexivity.
  - done.
  - apply (list_elem_of_lookup_2 _ 0). reflexivity.
Defined.

(** X15: leave-channel asks for no membership, emits nothing and writes
    nothing; doing it twice is the same as doing it once; after it, no
    message sent to the channel is delivered to the socket. *)
Theorem leave_channel_then_channel_messages_stop
    (socket sender : SocketIo.Socket) (content c : string) (dm : option string)
    (w : SocketIo.World) :
  c ≠ "" →
  let left := MessageHandlers.leave_channel socket c w in
  left.2 = []
  ∧ SocketIo.db left.1 = SocketIo.db w
  ∧ MessageHandlers.leave_channel socket c left.1 = left
  ∧ ∀ m, (SocketIo.id socket, SocketIo.new_message m)
         ∉ (MessageHandlers.send_message
              sender (MessageHandlers.mkSendMessageData content (Some c) dm None) left.1).2.
Proof.
  intros Hne left. subst left. unfold MessageHandlers.leave_channel. simpl.
  split_and!; try done.
  - by rewrite socket_leave_idemp.
  - intros m. unfold MessageHandlers.send_message. simpl.
    destruct (MessageService.createMessage _ _) as [[m'|e] db']; simpl.
    + rewrite bool_decide_eq_true_2 by done. intros Hin.
      apply elem_of_io_to in Hin as (_ & s & Hs & Hid & Hroom).
      by apply (elem_of_socket_leave socket s c (SocketIo.io w)).
    + intros Hin. apply list_elem_of_singleton in Hin. discriminate Hin.
Qed.

(** X15 at bob leaving general before alice posts. *)
Lemma leave_channel_then_channel_messages_stop_witness :
  (MessageHandlers.send_message
     Fixture.s1 (MessageHandlers.mkSendMessageData "hello" (Some "general") None None)
     (MessageHandlers.leave_channel Fixture.s2 "general" Fixture.w0).1).2
  = [("s1", SocketIo.new_message
              (mkMessage "c0" "hello" "text" (Some "general") None "alice" None false))]
  ∧ ∀ m, ("s2", SocketIo.new_message m)
         ∉ (MessageHandlers.send_message
              Fixture.s1 (MessageHandlers.mkSendMessageData "hello" (Some "general") None None)
              (MessageHandlers.leave_channel Fixture.s2 "general" Fixture.w0).1).2.
Proof.
  split; [vm_compute; reflexivity|].
  exact (proj2 (proj2 (proj2 (leave_channel_then_channel_messages_stop
                                Fixture.s2 Fixture.s1 "hello" "general" None Fixture.w0
                                ltac:(done))))).
Defined.

(** ** Huddles, continued *)

Section MoreHuddles.
Import SocketIo HuddleService.

Lemma count_fmap_preserved {A} (P : A → Prop) `{!∀ x, Decision (P x)} (g : A → A)
    (l : list A) :
  (∀ x, P (g x) ↔ P x) → length (filter P (g <$> l)) = length (filter P l).
Proof.
  intros HPg. induction l as [|x l IH]; [done|].
  rewrite fmap_cons. destruct (decide (P x)) as [Hx|Hx].
  - rewrite (filter_cons_True P (g x)) by (by apply HPg).
    rewrite (filter_cons_True P x) by done. simpl. by rewrite IH.
  - rewrite (filter_cons_False P (g x)) by (by rewrite HPg).
    rewrite (filter_cons_False P x) by done. exact IH.
Qed.

Lemma hp_count_fmap (g : HuddleParticipant → HuddleParticipant) (h u : string)
    (l : list HuddleParticipant) :
  (∀ p, hp_huddleId (g p) = hp_huddleId p ∧ hp_userId (g p) = hp_userId p) →
  length (filter (λ p, hp_huddleId p = h ∧ hp_userId p = u) (g <$> l))
  = length (filter (λ p, hp_huddleId p = h ∧ hp_userId p = u) l).
Proof.
  intros Hg. apply count_fmap_preserved. intros p. destruct (Hg p) as [-> ->]. done.
Qed.

(** joinHuddle, case by case on the participant row it finds. *)
Lemma joinHuddle_cases (huddleId userId : string) (db : DB) :
  (∃ p, find (λ p, bool_decide (hp_huddleId p = huddleId ∧ hp_userId p = userId))
             (huddleParticipants db) = Some p
        ∧ hp_leftAt p = None ∧ joinHuddle huddleId userId db = (Ok p, db))
  ∨ (∃ p p0, find (λ p, bool_decide (hp_huddleId p = huddleId ∧ hp_userId p = userId))
                  (huddleParticipants db) = Some p
             ∧ hp_leftAt p ≠ None
             ∧ joinHuddle huddleId userId db
               = (Ok (rejoin (now db) p0),
                  mkDB (users db) (channels db) (channelMembers db) (directMessages db)
                       (messages db) (reactions db) (huddles db)
                       ((λ q, if bool_decide (hp_id q = hp_id p) then rejoin (now db) q
                              else q) <$> huddleParticipants db)
                       (nextId db) (now db)))
  ∨ (find (λ p, bool_decide (hp_huddleId p = huddleId ∧ hp_userId p = userId))
          (huddleParticipants db) = None
     ∧ (joinHuddle huddleId userId db = (Throw "Failed to join huddle", db)
        ∨ joinHuddle huddleId userId db
          = (Ok (mkHuddleParticipant (cuid (nextId db)) huddleId userId (now db) None
                                     false false),
             mkDB (users db) (channels db) (channelMembers db) (directMessages db)
                  (messages db) (reactions db) (huddles db)
                  (huddleParticipants db
                   ++ [mkHuddleParticipant (cuid (nextId db)) huddleId userId (now db) None
                                           false false])
                  (S (nextId db)) (now db)))).
Proof.
  unfold joinHuddle, Prisma.huddleParticipant_findUnique, Prisma.huddleParticipant_update,
    Prisma.huddleParticipant_create. unfold_M.
  destruct (find _ (huddleParticipants db)) as [p|] eqn:Hfind.
  - destruct (hp_leftAt p) as [t|] eqn:Hleft.
    + right. left.
      destruct (find (λ q, bool_decide (hp_id q = hp_id p)) (huddleParticipants db))
        as [p0|] eqn:Hid.
      * exists p, p0. rewrite Hleft. done.
      * apply find_some in Hfind as [Hin _].
        eapply find_none in Hid; [|exact Hin].
        by rewrite bool_decide_eq_true_2 in Hid.
    + left. exists p. done.
  - right. right. split; [done|].
    destruct (_ && _); simpl; [|by left].
    apply existsb_find_None in Hfind. rewrite Hfind. simpl. by right.
Qed.

(** After a joinHuddle that succeeded, the first row of the user in the
    huddle is active. *)
Lemma joinHuddle_row_active (huddleId userId : string) (db : DB) :
  is_ok (joinHuddle huddleId userId db).1 = true →
  ∃ p, find (λ p, bool_decide (hp_huddleId p = huddleId ∧ hp_userId p = userId))
            (huddleParticipants (joinHuddle huddleId userId db).2) = Some p
       ∧ hp_leftAt p = None.
Proof.
  intros Hok.
  destruct (joinHuddle_cases huddleId userId db)
    as [(p & Hfind & Hleft & Heq)|[(p & p0 & Hfind & Hleft & Heq)|[Hfind [Heq|Heq]]]];
    rewrite Heq in *.
  - eauto.
  - simpl. rewrite find_fmap_preserved.
    + rewrite Hfind. simpl. rewrite bool_decide_eq_true_2 by done. eauto.
    + intros q. by destruct (bool_decide (hp_id q = hp_id p)).
  - discriminate.
  - simpl.
    exists (mkHuddleParticipant (cuid (nextId db)) huddleId userId (now db) None
                                false false).
    split; [|reflexivity].
    apply find_app_None; [done|]. simpl. by apply bool_decide_eq_true.
Qed.

Lemma joinHuddle_active_rows (huddleId userId : string) (db : DB) :
  is_ok (joinHuddle huddleId userId db).1 = true →
  active_rows huddleId userId (joinHuddle huddleId userId db).2 ≠ [].
Proof.
  intros Hok. destruct (joinHuddle_row_active _ _ _ Hok) as (p & Hfind & Hleft).
  apply find_some in Hfind as [Hin Hkey].
  apply bool_decide_eq_true in Hkey as [Hh Hu]. apply list_elem_of_In in Hin.
  unfold active_rows. intros Hnil.
  assert (p ∈ filter (λ p, active_as huddleId userId p = true)
                     (huddleParticipants (joinHuddle huddleId userId db).2)) as Hp.
  { apply list_elem_of_filter. split; [|done].
    unfold active_as. by apply bool_decide_eq_true. }
  rewrite Hnil in Hp. by apply elem_of_nil in Hp.
Qed.

End MoreHuddles.

(** X16: a joinHuddle that succeeds leaves the user with an active
    participant row of the huddle, and joining again changes nothing: the
    second call succeeds with an active row of that user and writes
    nothing. *)
Theorem joinHuddle_makes_active_and_is_idempotent (huddleId userId : string) (db : DB) :
  is_ok (HuddleService.joinHuddle huddleId userId db).1 = true →
  let db1 := (HuddleService.joinHuddle huddleId userId db).2 in
  active_rows huddleId userId db1 ≠ []
  ∧ ∃ p, HuddleService.joinHuddle huddleId userId db1 = (Ok p, db1)
         ∧ hp_huddleId p = huddleId ∧ hp_userId p = userId ∧ hp_leftAt p = None.
Proof.
  intros Hok db1. subst db1.
  destruct (joinHuddle_row_active _ _ _ Hok) as (p & Hfind & Hleft).
  split; [by apply joinHuddle_active_rows|].
  pose proof Hfind as Hfind'. apply find_some in Hfind' as [_ Hkey].
  apply bool_decide_eq_true in Hkey as [Hh Hu].
  exists p. split_and!; try done.
  destruct (joinHuddle_cases huddleId userId
              (HuddleService.joinHuddle huddleId userId db).2)
    as [(q & Hq & _ & ->)|[(q & q0 & Hq & Hqleft & _)|[Hq _]]].
  - rewrite Hfind in Hq. by injection Hq as <-.
  - rewrite Hfind in Hq. injection Hq as <-. by destruct Hqleft.
  - rewrite Hfind in Hq. discriminate.
Qed.

(** X16 at bob rejoining huddle c0, which he had left with everyone when
    alice ended it. *)
Lemma joinHuddle_makes_active_and_is_idempotent_witness :
  is_ok (HuddleService.joinHuddle "c0" "bob" (SocketIo.db Fixture.w_ended)).1 = true
  ∧ active_rows "c0" "bob" (SocketIo.db Fixture.w_ended) = []
  ∧ active_rows "c0" "bob"
      (HuddleService.joinHuddle "c0" "bob" (SocketIo.db Fixture.w_ended)).2 ≠ [].
Proof.
  assert (is_ok (HuddleService.joinHuddle "c0" "bob" (SocketIo.db Fixture.w_ended)).1 = true)
    as Hok by (vm_compute; reflexivity).
  split_and!; [exact Hok | vm_compute; reflexivity |].
  exact (proj1 (joinHuddle_makes_active_and_is_idempotent
                  "c0" "bob" (SocketIo.db Fixture.w_ended) Hok)).
Defined.

Section ParticipantRows.
Import HuddleService.

Lemma hp_unique_fmap (g : HuddleParticipant → HuddleParticipant) (db db' : DB) :
  (∀ p, hp_huddleId (g p) = hp_huddleId p ∧ hp_userId (g p) = hp_userId p) →
  huddleParticipants db' = g <$> huddleParticipants db →
  hp_unique db → hp_unique db'.
Proof.
  intros Hg Hparts Huniq h u. unfold hp_count. rewrite Hparts, hp_count_fmap by done.
  apply Huniq.
Qed.

Lemma hp_unique_same (db db' : DB) :
  huddleParticipants db' = huddleParticipants db → hp_unique db → hp_unique db'.
Proof. intros Hparts Huniq h u. unfold hp_count. rewrite Hparts. apply Huniq. Qed.

Lemma joinHuddle_unique (huddleId userId : string) (db : DB) :
  hp_unique db → hp_unique (joinHuddle huddleId userId db).2.
Proof.
  intros Huniq.
  destruct (joinHuddle_cases huddleId userId db)
    as [(p & _ & _ & ->)|[(p & p0 & _ & _ & ->)|[Hfind [-> | ->]]]]; try done.
  - eapply hp_unique_fmap; [|reflexivity|exact Huniq].
    intros q. simpl. by destruct (bool_decide _).
  - intros h u. unfold hp_count. simpl. rewrite filter_app, length_app.
    destruct (decide (huddleId = h ∧ userId = u)) as [[<- <-]|Hne].
    + apply count_0_find_None in Hfind.
      rewrite (list_filter_iff _ (λ p, bool_decide (hp_huddleId p = huddleId
                                                    ∧ hp_userId p = userId) = true))
        by (intros p; by rewrite bool_decide_eq_true).
      rewrite Hfind. rewrite filter_cons_True, filter_nil by done. done.
    + rewrite filter_cons_False, filter_nil by done. simpl.
      specialize (Huniq h u). unfold hp_count in Huniq. lia.
Qed.

Lemma endHuddle_participants (huddleId userId : string) (db : DB) :
  huddleParticipants (endHuddle huddleId userId db).2 = huddleParticipants db
  ∨ huddleParticipants (endHuddle huddleId userId db).2
    = (λ p, if active_in huddleId p then set_leftAt (Some (now db)) p else p)
        <$> huddleParticipants db.
Proof.
  unfold endHuddle, Prisma.huddle_findUnique, Prisma.huddle_update,
    Prisma.huddleParticipant_updateMany. unfold_M.
  destruct (find _ (huddles db)) as [h|]; [|by left].
  destruct (bool_decide (hd_creatorId h ≠ userId)); [by left|].
  destruct (Prisma.fk _ _); simpl; [by right | by left].
Qed.

Lemma updateParticipant_participants (huddleId userId : string)
    (updates : UpdateParticipantData) (db : DB) :
  (updateParticipant huddleId userId updates db
   = (Throw "Failed to update participant", db)
   ∧ find (active_as huddleId userId) (huddleParticipants db) = None)
  ∨ ∃ p p0, find (active_as huddleId userId) (huddleParticipants db) = Some p
            ∧ updateParticipant huddleId userId updates db
              = (Ok (apply_updates updates p0),
                 mkDB (users db) (channels db) (channelMembers db) (directMessages db)
                      (messages db) (reactions db) (huddles db)
                      ((λ q, if bool_decide (hp_id q = hp_id p)
                             then apply_updates updates q else q)
                         <$> huddleParticipants db)
                      (nextId db) (now db)).
Proof.
  unfold updateParticipant, Prisma.huddleParticipant_findFirst,
    Prisma.huddleParticipant_update. unfold_M.
  destruct (find (active_as huddleId userId) (huddleParticipants db)) as [p|] eqn:Hfind;
    [|by left].
  right.
  destruct (find (λ q, bool_decide (hp_id q = hp_id p)) (huddleParticipants db))
    as [p0|] eqn:Hid.
  - exists p, p0. done.
  - apply find_some in Hfind as [Hin _].
    eapply find_none in Hid; [|exact Hin]. by rewrite bool_decide_eq_true_2 in Hid.
Qed.

End ParticipantRows.

(** X17: joinHuddle, leaveHuddle, endHuddle and updateParticipant keep the
    store at no more than one participant row per (huddle, user): a user
    who rejoins gets the old row back, not a second one. *)
Theorem huddle_operations_keep_one_row_per_participant
    (huddleId userId : string) (updates : HuddleService.UpdateParticipantData) (db : DB) :
  hp_unique db →
  hp_unique (HuddleService.joinHuddle huddleId userId db).2
  ∧ hp_unique (HuddleService.leaveHuddle huddleId userId db).2
  ∧ hp_unique (HuddleService.endHuddle huddleId userId db).2
  ∧ hp_unique (HuddleService.updateParticipant huddleId userId updates db).2.
Proof.
  intros Huniq. split_and!.
  - by apply joinHuddle_unique.
  - eapply hp_unique_fmap; [|apply leaveHuddle_participants|exact Huniq].
    intros p. simpl. by destruct (HuddleService.active_as huddleId userId p).
  - destruct (endHuddle_participants huddleId userId db) as [Hsame|Hmap].
    + by eapply hp_unique_same.
    + eapply hp_unique_fmap; [|exact Hmap|exact Huniq].
      intros p. simpl. by destruct (HuddleService.active_in huddleId p).
  - destruct (updateParticipant_participants huddleId userId updates db)
      as [[-> _]|(p & p0 & _ & ->)]; [done|].
    eapply hp_unique_fmap; [|reflexivity|exact Huniq].
    intros q. simpl. by destruct (bool_decide _).
Qed.

(** X17 at bob's return to the ended huddle c0: his row count stays 1. *)
Lemma huddle_operations_keep_one_row_per_participant_witness :
  hp_unique (SocketIo.db Fixture.w_ended)
  ∧ hp_count "c0" "bob" (SocketIo.db Fixture.w_ended) = 1
  ∧ hp_unique (HuddleService.joinHuddle "c0" "bob" (SocketIo.db Fixture.w_ended)).2.
Proof.
  assert (hp_unique (SocketIo.db Fixture.w_ended)) as Huniq.
  { intros h u. unfold hp_count.
    change (huddleParticipants (SocketIo.db Fixture.w_ended))
      with [mkHuddleParticipant "c1" "c0" "alice" 100 (Some 100) false false;
            mkHuddleParticipant "c2" "c0" "bob" 100 (Some 100) false false].
    rewrite !filter_cons, filter_nil. simpl.
    repeat case_decide; simpl; try lia.
    destruct H as [_ <-]. destruct H0 as [_ [=]]. }
  split_and!; [exact Huniq | vm_compute; reflexivity |].
  exact (proj1 (huddle_operations_keep_one_row_per_participant
                  "c0" "bob" (HuddleService.mkUpdateParticipantData None None)
                  (SocketIo.db Fixture.w_ended) Huniq)).
Defined.



Section Creating.
Import HuddleService.

Lemma find_fresh_None (huddleId userId : string) (l : list HuddleParticipant) :
  (∀ p, p ∈ l → hp_huddleId p ≠ huddleId) →
  find (λ p, bool_decide (hp_huddleId p = huddleId ∧ hp_userId p = userId)) l = None.
Proof.
  intros Hfresh. induction l as [|p l IH]; [done|]. simpl.
  rewrite bool_decide_eq_false_2.
  - apply IH. intros q Hq. apply Hfresh. by right.
  - intros [Hh _]. by apply (Hfresh p); [left|].
Qed.

Lemma filter_fresh_nil (huddleId : string) (l : list HuddleParticipant) :
  (∀ p, p ∈ l → hp_huddleId p ≠ huddleId) →
  filter (λ p, active_in huddleId p = true) l = [].
Proof.
  intros Hfresh. induction l as [|p l IH]; [done|].
  rewrite filter_cons_False.
  - apply IH. intros q Hq. apply Hfresh. by right.
  - unfold active_in. rewrite bool_decide_eq_true. intros [Hh _].
    by apply (Hfresh p); [left|].
Qed.

Lemma cuid_inj (a b : nat) : cuid a = cuid b → a = b.
Proof.
  unfold cuid. intros Heq. apply String.app_inj in Heq. by apply pretty_nat_inj in Heq.
Qed.

(** An id drawn from the counter is the id of no row that was stored under
    an earlier draw. *)
Lemma cuid_fresh (db : DB) :
  (∀ h, h ∈ huddles db → ∃ k, k < nextId db ∧ hd_id h = cuid k) →
  cuid (nextId db) ∉ hd_id <$> huddles db.
Proof.
  intros Hdrawn Hin. apply list_elem_of_fmap in Hin as (h & Hid & Hh).
  destruct (Hdrawn h Hh) as (k & Hk & Hhk). rewrite Hhk in Hid.
  apply cuid_inj in Hid. lia.
Qed.

End Creating.

(** X19: createHuddle by a stored user, for no channel or an existing one
    and with a name and a creator id that are texts the store accepts (well-
    formed, without the character U+0000), stores an active huddle of that
    creator under a new id, and appends one participant row: the creator is
    the huddle's one active participant, unmuted and with video off. The id
    is new: in a store whose huddle ids were all drawn earlier from the id
    counter and whose participant rows all refer to stored huddles, it is
    the id of no stored huddle and no participant row refers to it; the
    store has these two properties again after the call. *)
Theorem createHuddle_makes_the_creator_the_sole_participant
    (data : HuddleService.CreateHuddleData) (db : DB) :
  Prisma.text_opt_ok (HuddleService.name data) = true →
  Prisma.text_ok (HuddleService.creatorId data) = true →
  Prisma.fk_opt (HuddleService.channelId data) (channels db) = true →
  HuddleService.creatorId data ∈ user_id <$> users db →
  (∀ h, h ∈ huddles db → ∃ k, k < nextId db ∧ hd_id h = cuid k) →
  (∀ p, p ∈ huddleParticipants db → hp_huddleId p ∈ hd_id <$> huddles db) →
  let h := mkHuddle (cuid (nextId db)) (HuddleService.name data)
                    (HuddleService.channelId data) (HuddleService.creatorId data)
                    "active" None in
  (cuid (nextId db) ∉ hd_id <$> huddles db)
  ∧ (∀ p, p ∈ huddleParticipants db → hp_huddleId p ≠ cuid (nextId db))
  ∧ (HuddleService.createHuddle data db).1 = Ok h
  ∧ huddles (HuddleService.createHuddle data db).2 = huddles db ++ [h]
  ∧ (HuddleService.getHuddleParticipants (cuid (nextId db))
       (HuddleService.createHuddle data db).2).1
    = Ok [mkHuddleParticipant (cuid (S (nextId db))) (cuid (nextId db))
                              (HuddleService.creatorId data) (now db) None false false]
  ∧ huddleParticipants (HuddleService.createHuddle data db).2
    = huddleParticipants db
      ++ [mkHuddleParticipant (cuid (S (nextId db))) (cuid (nextId db))
                              (HuddleService.creatorId data) (now db) None false false]
  ∧ (∀ h', h' ∈ huddles (HuddleService.createHuddle data db).2 →
           ∃ k, k < nextId (HuddleService.createHuddle data db).2 ∧ hd_id h' = cuid k)
  ∧ (∀ p, p ∈ huddleParticipants (HuddleService.createHuddle data db).2 →
          hp_huddleId p ∈ hd_id <$> huddles (HuddleService.createHuddle data db).2).
Proof.
  intros Hname Hcreator Hch Hu Hdrawn Hrefs h. subst h.
  pose proof (cuid_fresh db Hdrawn) as Hnew.
  assert (∀ p, p ∈ huddleParticipants db → hp_huddleId p ≠ cuid (nextId db)) as Hfresh.
  { intros p Hp Heq. apply Hnew. rewrite <- Heq. by apply Hrefs. }
  split; [exact Hnew|]. split; [exact Hfresh|].
  unfold HuddleService.createHuddle, Prisma.huddle_create, HuddleService.joinHuddle,
    Prisma.huddleParticipant_findUnique, Prisma.huddleParticipant_create, Prisma.fk.
  unfold_M. rewrite Hname, Hcreator, Hch. simpl.
  rewrite (find_fresh_None _ _ _ Hfresh). simpl.
  rewrite fmap_app. simpl.
  rewrite (bool_decide_eq_true_2 (cuid (nextId db) ∈ _))
    by (apply elem_of_app; right; left).
  rewrite (bool_decide_eq_true_2 _ Hu). simpl.
  rewrite (proj2 (existsb_find_None _ _) (find_fresh_None _ _ _ Hfresh)). simpl.
  split_and!; try done.
  - unfold HuddleService.getHuddleParticipants, Prisma.huddleParticipant_findMany. unfold_M.
    simpl. rewrite filter_app, (filter_fresh_nil _ _ Hfresh). simpl.
    rewrite filter_cons_True, filter_nil; [done|].
    unfold HuddleService.active_in. simpl. by apply bool_decide_eq_true.
  - intros h' Hh'. apply elem_of_app in Hh' as [Hh'|Hh'].
    + destruct (Hdrawn h' Hh') as (k & Hk & Hid). exists k. split; [lia|done].
    + apply list_elem_of_singleton in Hh' as ->. exists (nextId db). split; [lia|done].
  - intros p Hp. rewrite fmap_app. apply elem_of_app.
    apply elem_of_app in Hp as [Hp|Hp].
    + left. by apply Hrefs.
    + apply list_elem_of_singleton in Hp as ->. right. left.
Qed.

(** X19 at carol's huddle, created while alice's huddle c0 with alice and
    bob is on: it gets the id c3 and carol's row the id c4. *)
Lemma createHuddle_makes_the_creator_the_sole_participant_witness :
  (hd_id <$> huddles (SocketIo.db Fixture.w_huddle) = ["c0"]
   ∧ hp_huddleId <$> huddleParticipants (SocketIo.db Fixture.w_huddle) = ["c0"; "c0"]
   ∧ nextId (SocketIo.db Fixture.w_huddle) = 3)
  ∧ ("c3" ∉ hd_id <$> huddles (SocketIo.db Fixture.w_huddle))
  ∧ (HuddleService.createHuddle
       (HuddleService.mkCreateHuddleData "carol" (Some "general") (Some "standup"))
       (SocketIo.db Fixture.w_huddle)).1
    = Ok (mkHuddle "c3" (Some "standup") (Some "general") "carol" "active" None)
  ∧ (HuddleService.getHuddleParticipants
       "c3" (HuddleService.createHuddle
               (HuddleService.mkCreateHuddleData "carol" (Some "general") (Some "standup"))
               (SocketIo.db Fixture.w_huddle)).2).1
    = Ok [mkHuddleParticipant "c4" "c3" "carol" 100 None false false].
Proof.
  assert (hd_id <$> huddles (SocketIo.db Fixture.w_huddle) = ["c0"]
          ∧ hp_huddleId <$> huddleParticipants (SocketIo.db Fixture.w_huddle) = ["c0"; "c0"]
          ∧ nextId (SocketIo.db Fixture.w_huddle) = 3) as Hstore
      by (split_and!; vm_compute; reflexivity).
  split; [exact Hstore|].
  destruct Hstore as (Hhuddles & Hparts & Hnext).
  destruct (createHuddle_makes_the_creator_the_sole_participant
              (HuddleService.mkCreateHuddleData "carol" (Some "general") (Some "standup"))
              (SocketIo.db Fixture.w_huddle))
    as (Hnew & _ & Hh & _ & Hroster & _).
  - reflexivity.
  - reflexivity.
  - vm_compute. reflexivity.
  - apply (list_elem_of_lookup_2 _ 2). reflexivity.
  - intros h Hh. exists 0. rewrite Hnext. split; [lia|].
    assert (hd_id h ∈ hd_id <$> huddles (SocketIo.db Fixture.w_huddle)) as Hin
        by (by apply list_elem_of_fmap_2).
    rewrite Hhuddles in Hin. apply list_elem_of_singleton in Hin. by rewrite Hin.
  - intros q Hq. rewrite Hhuddles.
    assert (hp_huddleId q ∈ hp_huddleId <$> huddleParticipants (SocketIo.db Fixture.w_huddle))
      as Hin by (by apply list_elem_of_fmap_2).
    rewrite Hparts in Hin. apply list_elem_of_In in Hin. simpl in Hin.
    destruct Hin as [<-|[<-|[]]]; left.
  - rewrite Hnext in Hnew, Hh, Hroster. split_and!; [exact Hnew | exact Hh | exact Hroster].
Defined.

(** X20: createHuddle is not atomic. When the creator is not a stored user,
    the name and the creator's id are texts the store accepts (well-formed,
    without the character U+0000) and no participant row refers to the id
    the huddle gets, the huddle row is written first and the join of the
    creator then fails: the call throws "Failed to create huddle", yet the
    store keeps an active huddle that has no participant. The create-huddle
    listener answers the requesting socket alone with an error event. *)
Theorem createHuddle_by_an_unknown_user_leaves_an_empty_huddle
    (socket : SocketIo.Socket) (channelId name : option string) (w : SocketIo.World) :
  Prisma.text_opt_ok name = true →
  Prisma.text_ok (SocketIo.userId socket) = true →
  Prisma.fk_opt channelId (channels (SocketIo.db w)) = true →
  SocketIo.userId socket ∉ user_id <$> users (SocketIo.db w) →
  (∀ p, p ∈ huddleParticipants (SocketIo.db w) →
        hp_huddleId p ≠ cuid (nextId (SocketIo.db w))) →
  let r := HuddleHandlers.create_huddle socket channelId name w in
  r.2 = [(SocketIo.id socket, SocketIo.error "Failed to create huddle")]
  ∧ SocketIo.io r.1 = SocketIo.io w
  ∧ huddles (SocketIo.db r.1)
    = huddles (SocketIo.db w)
      ++ [mkHuddle (cuid (nextId (SocketIo.db w))) name channelId (SocketIo.userId socket)
                   "active" None]
  ∧ huddleParticipants (SocketIo.db r.1) = huddleParticipants (SocketIo.db w).
Proof.
  intros Hname Hcreator Hch Hu Hfresh r. subst r.
  unfold HuddleHandlers.create_huddle, HuddleService.createHuddle, Prisma.huddle_create,
    HuddleService.joinHuddle, Prisma.huddleParticipant_findUnique,
    Prisma.huddleParticipant_create, Prisma.fk.
  unfold_M. simpl. rewrite Hname, Hcreator, Hch. simpl.
  rewrite (find_fresh_None _ _ _ Hfresh). simpl.
  rewrite (bool_decide_eq_false_2 _ Hu), andb_false_r. simpl. done.
Qed.

(** X20 at a socket whose token names a user that is not in the store. *)
Lemma createHuddle_by_an_unknown_user_leaves_an_empty_huddle_witness :
  let ghost := SocketIo.mkSocket "s9" "dave" "dave" ({["dave"]} ∪ {["s9"]}) in
  (HuddleHandlers.create_huddle ghost None None Fixture.w0).2
  = [("s9", SocketIo.error "Failed to create huddle")]
  ∧ huddles (SocketIo.db (HuddleHandlers.create_huddle ghost None None Fixture.w0).1)
    = [mkHuddle "c0" None None "dave" "active" None].
Proof.
  intros ghost.
  destruct (createHuddle_by_an_unknown_user_leaves_an_empty_huddle
              ghost None None Fixture.w0) as (Hout & _ & Hh & _).
  - reflexivity.
  - reflexivity.
  - reflexivity.
  - intros Hin. apply list_elem_of_In in Hin. vm_compute in Hin.
    destruct Hin as [Hin|[Hin|[Hin|[]]]]; discriminate Hin.
  - intros p Hp. by apply elem_of_nil in Hp.
  - split; [exact Hout | exact Hh].
Defined.

Section Leaving.
Import HuddleService.



End Leaving.



(** X22: endHuddle by anyone but the creator, or for an id that names no
    huddle, throws and writes nothing; the end-huddle listener answers the
    requesting socket alone with an error event and leaves every socket in
    its rooms. *)
Theorem end_huddle_is_refused_to_anyone_but_the_creator
    (socket : SocketIo.Socket) (huddleId : string) (w : SocketIo.World) :
  (∀ h, find (λ h, bool_decide (hd_id h = huddleId)) (huddles (SocketIo.db w)) = Some h →
        hd_creatorId h ≠ SocketIo.userId socket) →
  HuddleService.endHuddle huddleId (SocketIo.userId socket) (SocketIo.db w)
  = (Throw "Failed to end huddle", SocketIo.db w)
  ∧ HuddleHandlers.end_huddle socket huddleId w
    = (w, [(SocketIo.id socket, SocketIo.error "Failed to end huddle")]).
Proof.
  intros Hnot.
  assert (HuddleService.endHuddle huddleId (SocketIo.userId socket) (SocketIo.db w)
          = (Throw "Failed to end huddle", SocketIo.db w)) as Hend.
  { unfold HuddleService.endHuddle, Prisma.huddle_findUnique. unfold_M.
    destruct (find _ (huddles (SocketIo.db w))) as [h|] eqn:Hfind; [|done].
    by rewrite bool_decide_eq_true_2 by (by apply Hnot). }
  split; [exact Hend|].
  unfold HuddleHandlers.end_huddle. rewrite Hend. by destruct w.
Qed.

(** X22 at bob trying to end alice's huddle. *)
Lemma end_huddle_is_refused_to_anyone_but_the_creator_witness :
  HuddleHandlers.end_huddle Fixture.s2 "c0" Fixture.w_huddle
  = (Fixture.w_huddle, [("s2", SocketIo.error "Failed to end huddle")]).
Proof.
  refine (proj2 (end_huddle_is_refused_to_anyone_but_the_creator
                   Fixture.s2 "c0" Fixture.w_huddle _)).
  intros h Hh.
  change (huddles (SocketIo.db Fixture.w_huddle))
    with [mkHuddle "c0" None (Some "general") "alice" "active" None] in Hh.
  simpl in Hh. injection Hh as <-. discriminate.
Defined.

(** X23: when end-huddle by the creator succeeds, huddle-ended is emitted
    to exactly the sockets that were in the huddle's room, and afterwards no
    socket is in that room; no socket is disconnected and the other rooms of
    every socket are kept. *)
Theorem end_huddle_notifies_and_empties_the_room
    (socket : SocketIo.Socket) (huddleId : string) (h : Huddle) (w : SocketIo.World) :
  find (λ h, bool_decide (hd_id h = huddleId)) (huddles (SocketIo.db w)) = Some h →
  hd_creatorId h = SocketIo.userId socket →
  let r := HuddleHandlers.end_huddle socket huddleId w in
  (∀ sid ev, (sid, ev) ∈ r.2
             ↔ ev = SocketIo.huddle_ended huddleId
               ∧ ∃ s, s ∈ SocketIo.io w ∧ SocketIo.id s = sid
                      ∧ HuddleHandlers.room_of huddleId ∈ SocketIo.rooms s)
  ∧ (∀ s, s ∈ SocketIo.io r.1 → HuddleHandlers.room_of huddleId ∉ SocketIo.rooms s)
  ∧ SocketIo.id <$> SocketIo.io r.1 = SocketIo.id <$> SocketIo.io w
  ∧ (∀ i s, SocketIo.io w !! i = Some s →
            ∃ s', SocketIo.io r.1 !! i = Some s'
                  ∧ ∀ room, room ≠ HuddleHandlers.room_of huddleId →
                            (room ∈ SocketIo.rooms s' ↔ room ∈ SocketIo.rooms s)).
Proof.
  intros Hfind Hcreator r. subst r. unfold HuddleHandlers.end_huddle.
  rewrite (endHuddle_by_creator _ _ _ _ Hfind Hcreator). simpl. split_and!.
  - intros sid ev. apply elem_of_io_to.
  - intros s Hs. apply list_elem_of_fmap in Hs as (s0 & -> & _). simpl.
    rewrite elem_of_difference, elem_of_singleton. tauto.
  - rewrite <- list_fmap_compose. by apply list_fmap_ext.
  - intros i s Hi. rewrite list_lookup_fmap, Hi. simpl. eexists. split; [done|].
    intros room Hne. simpl. rewrite elem_of_difference, elem_of_singleton. tauto.
Qed.

(** X23 at alice ending huddle c0, whose room holds her socket and bob's. *)
Lemma end_huddle_notifies_and_empties_the_room_witness :
  (HuddleHandlers.end_huddle Fixture.s1 "c0" Fixture.w_huddle).2
  = [("s1", SocketIo.huddle_ended "c0"); ("s2", SocketIo.huddle_ended "c0")]
  ∧ ∀ s, s ∈ SocketIo.io (HuddleHandlers.end_huddle Fixture.s1 "c0" Fixture.w_huddle).1 →
         HuddleHandlers.room_of "c0" ∉ SocketIo.rooms s.
Proof.
  split; [vm_compute; reflexivity|].
  exact (proj1 (proj2 (end_huddle_notifies_and_empties_the_room
                         Fixture.s1 "c0" _ Fixture.w_huddle
                         ltac:(vm_compute; reflexivity) eq_refl))).
Defined.

(** ** Audio and video toggles, active huddles *)

Section Controls.
Import SocketIo HuddleService.

Lemma active_rows_nil_find (huddleId userId : string) (db : DB) :
  active_rows huddleId userId db = [] →
  find (active_as huddleId userId) (huddleParticipants db) = None.
Proof.
  unfold active_rows. intros Hnil. apply count_0_find_None. by rewrite Hnil.
Qed.

Lemma updateParticipant_refused (huddleId userId : string) (updates : UpdateParticipantData)
    (db : DB) :
  active_rows huddleId userId db = [] →
  updateParticipant huddleId userId updates db = (Throw "Failed to update participant", db).
Proof.
  intros Hnil. apply active_rows_nil_find in Hnil.
  unfold updateParticipant, Prisma.huddleParticipant_findFirst. unfold_M. by rewrite Hnil.
Qed.

End Controls.

(** X24: a user with no active participant row in the huddle (never
    joined, or left, or the huddle was ended) cannot toggle audio or video
    there: updateParticipant throws and writes nothing, and the listener
    answers the requesting socket alone with an error event. *)
Theorem toggles_are_refused_to_non_participants
    (socket : SocketIo.Socket) (huddleId : string) (flag : bool) (w : SocketIo.World) :
  active_rows huddleId (SocketIo.userId socket) (SocketIo.db w) = [] →
  HuddleControls.toggle_audio socket huddleId flag w
  = (w, [(SocketIo.id socket, Wire.error "Failed to toggle audio")])
  ∧ HuddleControls.toggle_video socket huddleId flag w
    = (w, [(SocketIo.id socket, Wire.error "Failed to toggle video")]).
Proof.
  intros Hnil. unfold HuddleControls.toggle_audio, HuddleControls.toggle_video.
  rewrite !(updateParticipant_refused _ _ _ _ Hnil). by destruct w.
Qed.

(** X24 at carol, who is not in huddle c0, and at bob after alice has
    ended it. *)
Lemma toggles_are_refused_to_non_participants_witness :
  HuddleControls.toggle_audio Fixture.s3 "c0" true Fixture.w_huddle
  = (Fixture.w_huddle, [("s3", Wire.error "Failed to toggle audio")])
  ∧ HuddleControls.toggle_video Fixture.s2 "c0" true Fixture.w_ended
    = (Fixture.w_ended, [("s2", Wire.error "Failed to toggle video")]).
Proof.
  split.
  - exact (proj1 (toggles_are_refused_to_non_participants
                    Fixture.s3 "c0" true Fixture.w_huddle ltac:(vm_compute; reflexivity))).
  - exact (proj2 (toggles_are_refused_to_non_participants
                    Fixture.s2 "c0" true Fixture.w_ended ltac:(vm_compute; reflexivity))).
Defined.

(** X25: toggle-audio by an active participant sets the muted flag of
    that participant's row and nothing else in the row; rows with another
    id are left as they were; the change is emitted to the other sockets of
    the huddle's room and not to the sender. toggle-video does the same
    with the video flag. *)
Theorem toggles_set_one_flag_and_tell_the_others
    (socket : SocketIo.Socket) (huddleId : string) (flag : bool) (p : HuddleParticipant)
    (w : SocketIo.World) :
  find (HuddleService.active_as huddleId (SocketIo.userId socket))
       (huddleParticipants (SocketIo.db w)) = Some p →
  let a := HuddleControls.toggle_audio socket huddleId flag w in
  let v := HuddleControls.toggle_video socket huddleId flag w in
  (∀ i q, huddleParticipants (SocketIo.db w) !! i = Some q →
          huddleParticipants (SocketIo.db a.1) !! i
          = Some (if bool_decide (hp_id q = hp_id p)
                  then mkHuddleParticipant (hp_id q) (hp_huddleId q) (hp_userId q)
                                           (hp_joinedAt q) (hp_leftAt q) flag (hp_videoOn q)
                  else q)
          ∧ huddleParticipants (SocketIo.db v.1) !! i
            = Some (if bool_decide (hp_id q = hp_id p)
                    then mkHuddleParticipant (hp_id q) (hp_huddleId q) (hp_userId q)
                                             (hp_joinedAt q) (hp_leftAt q)
                                             (hp_audioMuted q) flag
                    else q))
  ∧ (∀ sid ev, (sid, ev) ∈ a.2
               ↔ ev = Wire.participant_audio_toggled (SocketIo.userId socket) flag
                 ∧ ∃ s, s ∈ SocketIo.io w ∧ SocketIo.id s = sid
                        ∧ HuddleHandlers.room_of huddleId ∈ SocketIo.rooms s
                        ∧ SocketIo.id s ≠ SocketIo.id socket)
  ∧ (∀ sid ev, (sid, ev) ∈ v.2
               ↔ ev = Wire.participant_video_toggled (SocketIo.userId socket) flag
                 ∧ ∃ s, s ∈ SocketIo.io w ∧ SocketIo.id s = sid
                        ∧ HuddleHandlers.room_of huddleId ∈ SocketIo.rooms s
                        ∧ SocketIo.id s ≠ SocketIo.id socket).
Proof.
  intros Hfind a v. subst a v.
  unfold HuddleControls.toggle_audio, HuddleControls.toggle_video.
  destruct (updateParticipant_participants
              huddleId (SocketIo.userId socket)
              (HuddleService.mkUpdateParticipantData (Some flag) None) (SocketIo.db w))
    as [[_ Hnone]|(p1 & p01 & Hp1 & ->)]; [congruence|].
  destruct (updateParticipant_participants
              huddleId (SocketIo.userId socket)
              (HuddleService.mkUpdateParticipantData None (Some flag)) (SocketIo.db w))
    as [[_ Hnone]|(p2 & p02 & Hp2 & ->)]; [congruence|].
  rewrite Hfind in Hp1, Hp2. injection Hp1 as <-. injection Hp2 as <-. simpl.
  split_and!.
  - intros i q Hq. rewrite !list_lookup_fmap, Hq. simpl.
    by destruct (bool_decide (hp_id q = hp_id p)).
  - intros sid ev. apply elem_of_wire_socket_to.
  - intros sid ev. apply elem_of_wire_socket_to.
Qed.

(** X25 at bob muting himself in huddle c0: alice's socket is told. *)
Lemma toggles_set_one_flag_and_tell_the_others_witness :
  find (HuddleService.active_as "c0" "bob") (huddleParticipants (SocketIo.db Fixture.w_huddle))
  = Some (mkHuddleParticipant "c2" "c0" "bob" 100 None false false)
  ∧ (HuddleControls.toggle_audio Fixture.s2 "c0" true Fixture.w_huddle).2
    = [("s1", Wire.participant_audio_toggled "bob" true)]
  ∧ huddleParticipants
      (SocketIo.db (HuddleControls.toggle_audio Fixture.s2 "c0" true Fixture.w_huddle).1) !! 1
    = Some (mkHuddleParticipant "c2" "c0" "bob" 100 None true false).
Proof.
  assert (find (HuddleService.active_as "c0" "bob")
               (huddleParticipants (SocketIo.db Fixture.w_huddle))
          = Some (mkHuddleParticipant "c2" "c0" "bob" 100 None false false)) as Hfind
      by (vm_compute; reflexivity).
  split_and!; [exact Hfind | vm_compute; reflexivity |].
  destruct (toggles_set_one_flag_and_tell_the_others
              Fixture.s2 "c0" true _ Fixture.w_huddle Hfind) as [Hrows _].
  destruct (Hrows 1 (mkHuddleParticipant "c2" "c0" "bob" 100 None false false)
              ltac:(vm_compute; reflexivity)) as [Ha _].
  exact Ha.
Defined.

(** X26: getActiveHuddles writes nothing and lists the huddles whose status
    is active, each with its active participants and no others. After the
    creator has ended a huddle it is no longer listed, and the other active
    huddles still are. *)
Theorem getActiveHuddles_lists_active_huddles_only
    (huddleId userId : string) (h : Huddle) (db : DB) :
  find (λ h, bool_decide (hd_id h = huddleId)) (huddles db) = Some h →
  hd_creatorId h = userId →
  let after := (HuddleService.endHuddle huddleId userId db).2 in
  ∃ before_list after_list,
    HuddleService.getActiveHuddles db = (Ok before_list, db)
    ∧ HuddleService.getActiveHuddles after = (Ok after_list, after)
    ∧ (∀ h' ps, (h', ps) ∈ before_list →
                h' ∈ huddles db ∧ hd_status h' = "active"
                ∧ ∀ p, p ∈ ps ↔ p ∈ huddleParticipants db ∧ hp_huddleId p = hd_id h'
                               ∧ hp_leftAt p = None)
    ∧ (∀ h', h' ∈ huddles db → hd_status h' = "active" → ∃ ps, (h', ps) ∈ before_list)
    ∧ (∀ h' ps, (h', ps) ∈ after_list → hd_id h' ≠ huddleId)
    ∧ (∀ h', h' ∈ huddles db → hd_status h' = "active" → hd_id h' ≠ huddleId →
             ∃ ps, (h', ps) ∈ after_list).
Proof.
  intros Hfind Hcreator after. subst after.
  rewrite (endHuddle_by_creator _ _ _ _ Hfind Hcreator).
  unfold HuddleService.getActiveHuddles, Prisma.huddle_findMany. unfold_M. simpl.
  eexists _, _. split; [reflexivity|]. split; [reflexivity|]. split_and!.
  - intros h' ps Hin. apply list_elem_of_fmap in Hin as (h0 & [= -> ->] & Hh0).
    apply list_elem_of_filter in Hh0 as [Hst Hh0]. apply bool_decide_eq_true in Hst.
    split_and!; try done. intros p. rewrite list_elem_of_filter. tauto.
  - intros h' Hin Hst. eexists. apply list_elem_of_fmap. exists h'. split; [reflexivity|].
    apply list_elem_of_filter. split; [|done]. by apply bool_decide_eq_true.
  - intros h' ps Hin Hid. apply list_elem_of_fmap in Hin as (h0 & [= -> ->] & Hh0).
    apply list_elem_of_filter in Hh0 as [Hst Hh0]. apply bool_decide_eq_true in Hst.
    apply list_elem_of_fmap in Hh0 as (h1 & -> & _).
    destruct (bool_decide (hd_id h1 = huddleId)) eqn:Hdec; [discriminate Hst|].
    apply bool_decide_eq_false in Hdec. by destruct Hdec.
  - intros h' Hin Hst Hne. eexists. apply list_elem_of_fmap. exists h'.
    split; [reflexivity|]. apply list_elem_of_filter.
    split; [by apply bool_decide_eq_true|].
    apply list_elem_of_fmap. exists h'. split; [|done].
    by rewrite bool_decide_eq_false_2.
Qed.

(** X26 at huddle c0 before and after alice ends it. *)
Lemma getActiveHuddles_lists_active_huddles_only_witness :
  (HuddleService.getActiveHuddles (SocketIo.db Fixture.w_huddle)).1
  = Ok [(mkHuddle "c0" None (Some "general") "alice" "active" None,
         [mkHuddleParticipant "c1" "c0" "alice" 100 None false false;
          mkHuddleParticipant "c2" "c0" "bob" 100 None false false])]
  ∧ (HuddleService.getActiveHuddles
       (HuddleService.endHuddle "c0" "alice" (SocketIo.db Fixture.w_huddle)).2).1 = Ok []
  ∧ ∃ before_list after_list,
      HuddleService.getActiveHuddles (SocketIo.db Fixture.w_huddle)
      = (Ok before_list, SocketIo.db Fixture.w_huddle)
      ∧ (HuddleService.getActiveHuddles
           (HuddleService.endHuddle "c0" "alice" (SocketIo.db Fixture.w_huddle)).2).1
        = Ok after_list
      ∧ ∀ h' ps, (h', ps) ∈ after_list → hd_id h' ≠ "c0".
Proof.
  split_and!; [vm_compute; reflexivity | vm_compute; reflexivity |].
  destruct (getActiveHuddles_lists_active_huddles_only
              "c0" "alice" _ (SocketIo.db Fixture.w_huddle)
              ltac:(vm_compute; reflexivity) eq_refl)
    as (bl & al & Hb & Ha & _ & _ & Hgone & _).
  exists bl, al. split_and!; [exact Hb | by rewrite Ha | exact Hgone].
Defined.

(** ** Presence and typing *)

(** X27: update-status by a stored user stores whatever status string the
    client sent, provided it is a text the store accepts (well-formed,
    without the character U+0000), without checking it against online, away
    and offline: the rows of that user get the status and the time of the
    call, the rows of other users stay as they were. The change is emitted
    to every connected socket but the sender's. get-online-users then
    answers the asking socket alone with the stored users whose status is
    online or away: the user is on that list exactly when the status sent
    was one of those two. *)
Theorem update_status_stores_any_string_and_online_users_filters
    (socket asker : SocketIo.Socket) (status : string) (w : SocketIo.World) :
  Prisma.text_ok status = true →
  SocketIo.userId socket ∈ user_id <$> users (SocketIo.db w) →
  let r := PresenceHandlers.update_status socket status w in
  (∀ u, u ∈ users (SocketIo.db r.1) → user_id u = SocketIo.userId socket →
        user_status u = status)
  ∧ user_id <$> users (SocketIo.db r.1) = user_id <$> users (SocketIo.db w)
  ∧ (∀ i u, users (SocketIo.db w) !! i = Some u →
            users (SocketIo.db r.1) !! i
            = Some (if bool_decide (user_id u = SocketIo.userId socket)
                    then mkUser (user_id u) status (now (SocketIo.db w)) else u))
  ∧ (∀ sid ev, (sid, ev) ∈ r.2
               ↔ ev = SocketIo.user_status_changed (SocketIo.userId socket) status
                 ∧ ∃ s, s ∈ SocketIo.io w ∧ SocketIo.id s = sid
                        ∧ SocketIo.id s ≠ SocketIo.id socket)
  ∧ ∃ l, OnlineUsers.get_online_users asker r.1
         = (r.1, [(SocketIo.id asker, Wire.online_users l)])
         ∧ ((∃ u, u ∈ l ∧ user_id u = SocketIo.userId socket)
            ↔ status = "online" ∨ status = "away").
Proof.
  intros Htext Hin r. subst r. unfold PresenceHandlers.update_status.
  rewrite (user_update_existing _ _ _ Hin) by (intros u; exact Htext). simpl.
  set (us := (λ u, if bool_decide (user_id u = SocketIo.userId socket)
                   then PresenceHandlers.set_status status (now (SocketIo.db w)) u else u)
               <$> users (SocketIo.db w)).
  assert (∀ u, u ∈ us → user_id u = SocketIo.userId socket → user_status u = status)
    as Hset.
  { intros u Hu Hid. apply list_elem_of_fmap in Hu as (u0 & -> & _).
    destruct (bool_decide (user_id u0 = SocketIo.userId socket)) eqn:Hdec; [done|].
    apply bool_decide_eq_false in Hdec. by destruct Hdec. }
  split_and!; [exact Hset | | | |].
  - unfold us. rewrite <- list_fmap_compose. apply list_fmap_ext. intros _ u _. simpl.
    by destruct (bool_decide _).
  - intros i u Hu. unfold us. by rewrite list_lookup_fmap, Hu.
  - intros sid ev. unfold SocketIo.socket_broadcast_emit. rewrite elem_of_deliver.
    split; intros [-> (s & Hs & Hid)]; (split; [done|]); exists s.
    + apply list_elem_of_filter in Hs as [Hnot Hs].
      apply bool_decide_eq_true in Hnot. done.
    + destruct Hid as [Hid Hnot]. split; [|done].
      apply list_elem_of_filter. split; [|done]. by apply bool_decide_eq_true.
  - unfold OnlineUsers.get_online_users, Prisma.user_findMany. unfold_M. simpl.
    eexists. split; [reflexivity|]. split.
    + intros (u & Hu & Hid). apply list_elem_of_filter in Hu as [Hst Hu].
      rewrite (Hset u Hu Hid) in Hst.
      apply orb_true_iff in Hst as [Hst|Hst]; apply bool_decide_eq_true in Hst; auto.
    + intros Hst. apply list_elem_of_fmap in Hin as (u0 & Hid & Hu0).
      exists (PresenceHandlers.set_status status (now (SocketIo.db w)) u0).
      split; [|done]. apply list_elem_of_filter. split.
      * simpl. apply orb_true_iff.
        destruct Hst as [->| ->]; [left|right]; by apply bool_decide_eq_true.
      * unfold us. apply list_elem_of_fmap. exists u0. split; [|done].
        by rewrite bool_decide_eq_true_2.
Qed.

(** X27 at alice setting the status "busy": it is stored, and she is not
    on the list of online users that bob then gets. *)
Lemma update_status_stores_any_string_and_online_users_filters_witness :
  Prisma.text_ok "busy" = true
  ∧ SocketIo.userId Fixture.s1 ∈ user_id <$> users (SocketIo.db Fixture.w0)
  ∧ (∀ u, u ∈ users (SocketIo.db (PresenceHandlers.update_status
                                    Fixture.s1 "busy" Fixture.w0).1) →
          user_id u = "alice" → user_status u = "busy")
  ∧ ∃ l, (OnlineUsers.get_online_users
            Fixture.s2 (PresenceHandlers.update_status Fixture.s1 "busy" Fixture.w0).1).2
         = [("s2", Wire.online_users l)]
         ∧ ¬ ∃ u, u ∈ l ∧ user_id u = "alice".
Proof.
  assert (SocketIo.userId Fixture.s1 ∈ user_id <$> users (SocketIo.db Fixture.w0)) as Hin
      by (apply (list_elem_of_lookup_2 _ 0); reflexivity).
  destruct (update_status_stores_any_string_and_online_users_filters
              Fixture.s1 Fixture.s2 "busy" Fixture.w0 eq_refl Hin)
    as (Hset & _ & _ & _ & l & Hl & Hon).
  split_and!; [reflexivity | exact Hin | exact Hset |].
  exists l. split; [by rewrite Hl|].
  intros Hu. apply Hon in Hu as [Hu|Hu]; discriminate Hu.
Defined.

(** X28: typing-start and typing-stop write nothing and keep no marker: the
    world is as it was. For a channel they are emitted to the sockets in the
    channel's room other than the sender's socket, with the sender's user
    id; without a channel and with a user id, both are emitted to the
    sockets in that user's personal room other than the sender's; with
    neither, or with empty strings for them, to nobody. *)
Theorem typing_events_go_to_the_room_but_not_to_the_sender
    (socket : SocketIo.Socket) (c : string) (dm : option string) (w : SocketIo.World) :
  c ≠ "" →
  (Typing.typing_start socket (Some c) dm w).1 = w
  ∧ (Typing.typing_stop socket (Some c) dm w).1 = w
  ∧ (Typing.typing_start socket None (Some c) w).1 = w
  ∧ (Typing.typing_stop socket None (Some c) w).1 = w
  ∧ (∀ sid ev, (sid, ev) ∈ (Typing.typing_start socket (Some c) dm w).2
               ↔ ev = Wire.user_typing_start (SocketIo.userId socket)
                        (SocketIo.username socket) (Wire.typing_channel c)
                 ∧ ∃ s, s ∈ SocketIo.io w ∧ SocketIo.id s = sid
                        ∧ c ∈ SocketIo.rooms s ∧ SocketIo.id s ≠ SocketIo.id socket)
  ∧ (∀ sid ev, (sid, ev) ∈ (Typing.typing_stop socket (Some c) dm w).2
               ↔ ev = Wire.user_typing_stop (SocketIo.userId socket) (Wire.typing_channel c)
                 ∧ ∃ s, s ∈ SocketIo.io w ∧ SocketIo.id s = sid
                        ∧ c ∈ SocketIo.rooms s ∧ SocketIo.id s ≠ SocketIo.id socket)
  ∧ (∀ sid ev, (sid, ev) ∈ (Typing.typing_start socket None (Some c) w).2
               ↔ ev = Wire.user_typing_start (SocketIo.userId socket)
                        (SocketIo.username socket) (Wire.typing_dm c)
                 ∧ ∃ s, s ∈ SocketIo.io w ∧ SocketIo.id s = sid
                        ∧ c ∈ SocketIo.rooms s ∧ SocketIo.id s ≠ SocketIo.id socket)
  ∧ (∀ sid ev, (sid, ev) ∈ (Typing.typing_stop socket None (Some c) w).2
               ↔ ev = Wire.user_typing_stop (SocketIo.userId socket) (Wire.typing_dm c)
                 ∧ ∃ s, s ∈ SocketIo.io w ∧ SocketIo.id s = sid
                        ∧ c ∈ SocketIo.rooms s ∧ SocketIo.id s ≠ SocketIo.id socket)
  ∧ (Typing.typing_start socket None None w).2 = []
  ∧ (Typing.typing_stop socket None None w).2 = []
  ∧ (Typing.typing_start socket (Some "") None w).2 = []
  ∧ (Typing.typing_stop socket (Some "") (Some "") w).2 = [].
Proof.
  intros Hne. unfold Typing.typing_start, Typing.typing_stop. simpl.
  rewrite !bool_decide_eq_true_2 by done.
  split_and!; try done; intros sid ev; apply elem_of_wire_socket_to.
Qed.

(** X28 at alice typing in general, and at alice who stops typing to bob:
    bob's socket is told, hers is not. *)
Lemma typing_events_go_to_the_room_but_not_to_the_sender_witness :
  (Typing.typing_start Fixture.s1 (Some "general") None Fixture.w0).2
  = [("s2", Wire.user_typing_start "alice" "alice" (Wire.typing_channel "general"))]
  ∧ (Typing.typing_stop Fixture.s1 None (Some "bob") Fixture.w0).2
    = [("s2", Wire.user_typing_stop "alice" (Wire.typing_dm "bob"))]
  ∧ (Typing.typing_start Fixture.s1 (Some "general") None Fixture.w0).1 = Fixture.w0
  ∧ ∀ ev, ("s2", ev) ∈ (Typing.typing_stop Fixture.s1 None (Some "bob") Fixture.w0).2
          → ev = Wire.user_typing_stop "alice" (Wire.typing_dm "bob").
Proof.
  split_and!; [vm_compute; reflexivity | vm_compute; reflexivity | |].
  - exact (proj1 (typing_events_go_to_the_room_but_not_to_the_sender
                    Fixture.s1 "general" None Fixture.w0 ltac:(done))).
  - intros ev Hin.
    destruct (typing_events_go_to_the_room_but_not_to_the_sender
                Fixture.s1 "bob" None Fixture.w0 ltac:(done))
      as (_ & _ & _ & _ & _ & _ & _ & Hstop & _).
    by apply Hstop in Hin as [-> _].
Defined.

(** ** Tokens and the handshake *)

Section Tokens.

Lemma substring_all (s : string) : String.substring 0 (String.length s) s = s.
Proof. induction s as [|a s IH]; simpl; [done|]. by rewrite IH. Qed.

Lemma prefix_split (p a : string) :
  String.prefix p a = true → ∃ t, a = p +:+ t.
Proof.
  revert a. induction p as [|c p IH]; intros a Hp.
  - by exists a.
  - destruct a as [|c' a]; simpl in Hp; [discriminate|].
    destruct (Ascii.ascii_dec c c') as [->|]; [|discriminate].
    destruct (IH a Hp) as [t ->]. by exists t.
Qed.

Lemma extractTokenFromHeader_bearer (t : string) :
  Jwt.extractTokenFromHeader (Some ("Bearer " +:+ t)) = Some t.
Proof.
  unfold Jwt.extractTokenFromHeader. simpl.
  change ("" +:+ t) with t.
  replace (String.length t - 0) with (String.length t) by lia.
  rewrite substring_all. by destruct t.
Qed.

End Tokens.

(** X29: extractTokenFromHeader returns a token exactly for the headers
    that consist of "Bearer " followed by the token, and returns the token
    unchanged; a missing header, an empty one and any other scheme give
    null. The header "Bearer " gives the empty token, not null. *)
Theorem extractTokenFromHeader_inverts_the_bearer_prefix
    (authorization : option string) (t : string) :
  Jwt.extractTokenFromHeader authorization = Some t
  ↔ authorization = Some ("Bearer " +:+ t).
Proof.
  split.
  - destruct authorization as [a|]; [|discriminate]. intros Hex.
    assert (String.prefix "Bearer " a = true) as Hp.
    { unfold Jwt.extractTokenFromHeader in Hex.
      destruct (String.prefix "Bearer " a); [done|].
      rewrite orb_true_r in Hex. discriminate. }
    destruct (prefix_split _ _ Hp) as [t' ->].
    rewrite extractTokenFromHeader_bearer in Hex. by injection Hex as ->.
  - intros ->. apply extractTokenFromHeader_bearer.
Qed.

(** X30: the authentication middleware refuses a handshake that carries no
    token, or an empty one, with "Authentication token required", whatever
    verifyToken would say, and one whose token verifyToken rejects with
    "Invalid authentication token". A handshake that is let through leaves
    the store and the connected sockets as they were and adds one socket,
    which carries the user id and the user name of the token's payload and
    is in the room named by that user id. *)
Theorem handshake_admits_verified_tokens_only
    (verifyToken : string → Result (string * string)) (sid : string)
    (token : option string) (w : SocketIo.World) :
  (Js.truthy token = false →
   Handshake.connect verifyToken sid token w = Throw "Authentication token required")
  ∧ (∀ e, Js.truthy token = true → verifyToken (default "" token) = Throw e →
          Handshake.connect verifyToken sid token w = Throw "Invalid authentication token")
  ∧ (∀ w', Handshake.connect verifyToken sid token w = Ok w' →
           ∃ t uid uname,
             token = Some t ∧ t ≠ "" ∧ verifyToken t = Ok (uid, uname)
             ∧ SocketIo.db w' = SocketIo.db w
             ∧ ∃ s, SocketIo.io w' = SocketIo.io w ++ [s]
                    ∧ SocketIo.id s = sid ∧ SocketIo.userId s = uid
                    ∧ SocketIo.username s = uname ∧ uid ∈ SocketIo.rooms s).
Proof.
  unfold Handshake.connect, Handshake.authenticate. split_and!.
  - by intros ->.
  - intros e -> ->. done.
  - destruct token as [t|]; simpl; [|discriminate].
    destruct (bool_decide (t ≠ "")) eqn:Hne; [|discriminate].
    apply bool_decide_eq_true in Hne.
    destruct (verifyToken t) as [[uid uname]|e] eqn:Hv; [|discriminate].
    intros w' [= <-]. exists t, uid, uname. split_and!; try done.
    eexists. split; [reflexivity|]. split_and!; try done.
    simpl. apply elem_of_union_l. by apply elem_of_singleton.
Qed.

(** X30 with a verifier that accepts the one token "good", for alice. *)
Lemma handshake_admits_verified_tokens_only_witness :
  let verifyToken := λ t : string,
        if bool_decide (t = "good") then Ok ("alice", "alice")
        else Throw "Invalid or expired token" in
  Handshake.connect verifyToken "s1" None (SocketIo.mkWorld Fixture.db0 [])
  = Throw "Authentication token required"
  ∧ Handshake.connect verifyToken "s1" (Some "bad") (SocketIo.mkWorld Fixture.db0 [])
    = Throw "Invalid authentication token"
  ∧ Handshake.connect verifyToken "s1" (Some "good") (SocketIo.mkWorld Fixture.db0 [])
    = Ok (Index.on_connection "s1" "alice" "alice" (SocketIo.mkWorld Fixture.db0 []))
  ∧ ∃ t uid uname, Some "good" = Some t ∧ verifyToken t = Ok (uid, uname).
Proof.
  intros verifyToken.
  assert (Handshake.connect verifyToken "s1" (Some "good") (SocketIo.mkWorld Fixture.db0 [])
          = Ok (Index.on_connection "s1" "alice" "alice" (SocketIo.mkWorld Fixture.db0 [])))
    as Hok by reflexivity.
  split_and!; [| | exact Hok |].
  - exact (proj1 (handshake_admits_verified_tokens_only
                    verifyToken "s1" None (SocketIo.mkWorld Fixture.db0 [])) eq_refl).
  - exact (proj1 (proj2 (handshake_admits_verified_tokens_only
                           verifyToken "s1" (Some "bad") (SocketIo.mkWorld Fixture.db0 [])))
                 "Invalid or expired token" eq_refl eq_refl).
  - destruct (proj2 (proj2 (handshake_admits_verified_tokens_only
                              verifyToken "s1" (Some "good")
                              (SocketIo.mkWorld Fixture.db0 []))) _ Hok)
      as (t & uid & uname & Ht & _ & Hv & _).
    exists t, uid, uname. done.
Defined.
